(** * Job-event ingestion: the IVCAP API client and the chat run controller

    A shallow embedding of the event wire decoder and the long-poll
    subscription loop of [subscribeToJobEvents] (client/src/lib/api.ts) and of
    the run controller [useChatJobEvents] (client/src/hooks), together with the
    properties the specification states about them.

    Conventions of the embedding:
    - a JavaScript string is a [string] of 8-bit code units (the Latin-1 range);
    - a value produced by [JSON.parse] is a [json]; [undefined] is [None];
    - the closure variables of one subscription ([lastSeqId], [hasConnected],
      the abort signal) are the fields of [Sub], threaded through a state and
      exception monad; callback invocations and requests are appended to a
      trace of observations;
    - the host platform ([JSON.parse], [JSON.stringify], the wall clock, the
      classifier imported from '@/types/events') is the type class [Host]. *)

From Stdlib Require Import String Ascii List ZArith Bool Arith Lia.
From Stdlib Require Import Numbers.DecimalString.
Import ListNotations.
Open Scope string_scope.
Open Scope list_scope.
Set Warnings "-register-all".

(* ------------------------------------------------------------------ *)
(** ** JavaScript strings *)

Module Str.

Definition LF : ascii := "010"%char.
Definition CR : ascii := "013"%char.

(** The line feed as a one-character string (the literal '\n'). *)
Definition NL : string := String LF EmptyString.

(** White space and line terminators of ECMAScript that fit in one Latin-1
    code unit: TAB, LF, VT, FF, CR, SP and NBSP. *)
Definition is_ws (c : ascii) : bool :=
  match c with
  | "009"%char | "010"%char | "011"%char | "012"%char | "013"%char
  | " "%char | "160"%char => true
  | _ => false
  end.

(** [String.prototype.trimStart]. *)
Fixpoint trimStart (s : string) : string :=
  match s with
  | EmptyString => EmptyString
  | String c s' => if is_ws c then trimStart s' else s
  end.

(** [String.prototype.trimEnd]. *)
Fixpoint trimEnd (s : string) : string :=
  match s with
  | EmptyString => EmptyString
  | String c s' =>
      match trimEnd s' with
      | EmptyString => if is_ws c then EmptyString else String c EmptyString
      | r => String c r
      end
  end.

(** [String.prototype.trim]. *)
Definition trim (s : string) : string := trimEnd (trimStart s).

(** [s.startsWith(p)]. *)
Definition startsWith (p s : string) : bool := String.prefix p s.

(** [s.slice(n)] for a non-negative [n]. *)
Fixpoint slice (n : nat) (s : string) : string :=
  match n, s with
  | O, _ => s
  | S _, EmptyString => EmptyString
  | S n', String _ s' => slice n' s'
  end.

(** [s.includes(needle)]. *)
Fixpoint includes (needle s : string) : bool :=
  String.prefix needle s
  || match s with
     | EmptyString => false
     | String _ s' => includes needle s'
     end.

Definition cons_head (c : ascii) (ls : list string) : list string :=
  match ls with
  | [] => [String c EmptyString]
  | l :: rest => String c l :: rest
  end.

(** [s.split(/\r?\n/)]: the separator is a line feed, or a carriage return
    immediately followed by a line feed. *)
Fixpoint splitLines (s : string) : list string :=
  match s with
  | EmptyString => [EmptyString]
  | String c s' =>
      if Ascii.eqb c LF then EmptyString :: splitLines s'
      else
        match s' with
        | String d s'' =>
            if Ascii.eqb c CR && Ascii.eqb d LF
            then EmptyString :: splitLines s''
            else cons_head c (splitLines s')
        | EmptyString => [String c EmptyString]
        end
  end.

(** [lines.join('\n')]. *)
Definition joinLines (ls : list string) : string := String.concat NL ls.

(** A string is truthy when it is not empty. *)
Definition nonEmpty (s : string) : bool := negb (s =? "").

(** [String(n)] and template interpolation of an integer. *)
Definition ofZ (n : Z) : string := NilZero.string_of_int (Z.to_int n).

(** [String.prototype.toLowerCase] on Latin-1: A-Z, and the accented capitals
    other than the multiplication sign. *)
Definition lowerChar (c : ascii) : ascii :=
  let n := N_of_ascii c in
  if ((65 <=? n) && (n <=? 90))%N
     || ((192 <=? n) && (n <=? 222) && negb (n =? 215))%N
  then ascii_of_N (n + 32)
  else c.

Fixpoint toLowerCase (s : string) : string :=
  match s with
  | EmptyString => EmptyString
  | String c s' => String (lowerChar c) (toLowerCase s')
  end.

(** The characters of a string, as [for ... of] enumerates them. *)
Fixpoint chars (s : string) : list string :=
  match s with
  | EmptyString => []
  | String c s' => String c EmptyString :: chars s'
  end.

End Str.

(* ------------------------------------------------------------------ *)
(** ** JavaScript values coming from JSON *)

Inductive json : Type :=
| JNull
| JBool (b : bool)
| JNum (n : Z)
| JStr (s : string)
| JArr (items : list json)
| JObj (members : list (string * json)).

Module Js.

(** ToBoolean. *)
Definition truthy (v : json) : bool :=
  match v with
  | JNull => false
  | JBool b => b
  | JNum n => negb (n =? 0)%Z
  | JStr s => Str.nonEmpty s
  | JArr _ | JObj _ => true
  end.

Fixpoint assoc (k : string) (ms : list (string * json)) : option json :=
  match ms with
  | [] => None
  | (k', v) :: rest => if k' =? k then Some v else assoc k rest
  end.

(** [v.k] for a value [v] that is neither [null] nor [undefined] and a key
    [k] that no prototype defines (all the keys read by the decoder):
    [undefined] unless [v] is an object with that member. *)
Definition prop (v : json) (k : string) : option json :=
  match v with
  | JObj ms => assoc k ms
  | _ => None
  end.

(** [v?.k] for an optional [v]. *)
Definition optProp (v : option json) (k : string) : option json :=
  match v with
  | Some (JObj ms) => assoc k ms
  | _ => None
  end.

(** The first truthy operand of [a || b || ...], if any. *)
Fixpoint firstTruthy (vs : list (option json)) : option json :=
  match vs with
  | [] => None
  | Some v :: rest => if truthy v then Some v else firstTruthy rest
  | None :: rest => firstTruthy rest
  end.

(** [a ?? b]. *)
Definition nullish (a : option json) (b : json) : json :=
  match a with
  | None | Some JNull => b
  | Some v => v
  end.

(** The elements [for ... of] enumerates; [None] when the value is not
    iterable. *)
Definition iterate (v : json) : option (list json) :=
  match v with
  | JArr l => Some l
  | JStr s => Some (map JStr (Str.chars s))
  | _ => None
  end.

Definition isArray (v : json) : bool :=
  match v with JArr _ => true | _ => false end.

End Js.

(* ------------------------------------------------------------------ *)
(** ** Events, errors and the host platform *)

(** The event kinds of '@/types/events'. *)
Inductive EventType : Type :=
| workflow | phase | agent | task | chatToken | chatLifecycle | unknown.

(** A [Date]: built from a value found in the payload, or from a reading of
    the wall clock. *)
Inductive Timestamp : Type :=
| DateOf (v : json)
| DateAt (ms : Z).

Record JobEvent : Type := mkJobEvent {
  step_id : json;
  message : json;
  finished : json;
  timestamp : Timestamp;
  type : EventType
}.

(** Thrown values: all are [Error] instances with a [name] and a [message]. *)
Inductive JsError : Type :=
| TypeError (msg : string)
| SyntaxError (msg : string)
| PlainError (msg : string)
| DOMException (name msg : string).

Definition err_name (e : JsError) : string :=
  match e with
  | TypeError _ => "TypeError"
  | SyntaxError _ => "SyntaxError"
  | PlainError _ => "Error"
  | DOMException n _ => n
  end.

Definition err_message (e : JsError) : string :=
  match e with
  | TypeError m | SyntaxError m | PlainError m | DOMException _ m => m
  end.

(** What an aborted [fetch] or body read rejects with. *)
Definition AbortError : JsError :=
  DOMException "AbortError" "signal is aborted without reason".

(** The host platform. [JSON_parse] is [None] where [JSON.parse] throws,
    and [JSON_message text] is then the message of the [SyntaxError] it
    throws, which depends on the engine and on the text; [Date_now k] is the
    wall clock at its [k]-th reading; [getEventType] is the classifier of
    '@/types/events' on the run-time value it is given. *)
Class Host : Type := {
  JSON_parse : string -> option json;
  JSON_message : string -> string;
  JSON_stringify : json -> string;
  getEventType : json -> EventType;
  Date_now : nat -> Z
}.

(** What the subscription does that its environment can see. *)
Inductive Obs : Type :=
| Fetch (lastEventId : option json)
| OnEvent (e : JobEvent)
| OnComplete
| OnError (e : JsError).

(** The closure variables of one [subscribeToJobEvents] call. *)
Record Sub : Type := mkSub {
  lastSeqId : option json;
  hasConnected : bool;
  aborted : bool;
  running : bool;
  clockReads : nat;
  trace : list Obs
}.

(* ------------------------------------------------------------------ *)
(** ** State and exceptions *)

Inductive Outcome (A : Type) : Type :=
| Return (a : A)
| Throw (e : JsError).
Arguments Return {A} a.
Arguments Throw {A} e.

Definition M (A : Type) : Type := Sub -> Outcome A * Sub.

Definition ret {A} (a : A) : M A := fun s => (Return a, s).
Definition throw {A} (e : JsError) : M A := fun s => (Throw e, s).
Definition bind {A B} (c : M A) (k : A -> M B) : M B :=
  fun s =>
    match c s with
    | (Return a, s') => k a s'
    | (Throw e, s') => (Throw e, s')
    end.
Definition tryCatch {A} (c : M A) (handler : M A) : M A :=
  fun s =>
    match c s with
    | (Return a, s') => (Return a, s')
    | (Throw _, s') => handler s'
    end.

Notation "x <- c ;; k" := (bind c (fun x => k))
  (at level 61, c at next level, right associativity).
Notation "c ;;; k" := (bind c (fun _ => k))
  (at level 61, right associativity).

Definition emit (o : Obs) : M unit :=
  fun s => (Return tt,
            mkSub (lastSeqId s) (hasConnected s) (aborted s) (running s)
                  (clockReads s) (trace s ++ [o])).

Definition setLastSeqId (v : json) : M unit :=
  fun s => (Return tt,
            mkSub (Some v) (hasConnected s) (aborted s) (running s)
                  (clockReads s) (trace s)).

Definition setConnected : M unit :=
  fun s => (Return tt,
            mkSub (lastSeqId s) true (aborted s) (running s)
                  (clockReads s) (trace s)).

Definition when (b : bool) (c : M unit) : M unit := if b then c else ret tt.

(** [for (const x of l) body(x)]. *)
Fixpoint forOf {A} (body : A -> M unit) (l : list A) : M unit :=
  match l with
  | [] => ret tt
  | x :: rest => body x ;;; forOf body rest
  end.

(* ------------------------------------------------------------------ *)
(** ** The event wire decoder (closures of [subscribeToJobEvents]) *)

Section Decoder.
Context `{Host}.

(** One reading of the wall clock ([new Date()] or [Date.now()]). *)
Definition readClock : M Z :=
  fun s => (Return (Date_now (clockReads s)),
            mkSub (lastSeqId s) (hasConnected s) (aborted s) (running s)
                  (S (clockReads s)) (trace s)).

Definition onEvent (e : JobEvent) : M unit := emit (OnEvent e).
Definition onComplete : M unit := emit OnComplete.
Definition onError (e : JsError) : M unit := emit (OnError e).

Definition markConnected : M unit :=
  fun s => if hasConnected s then (Return tt, s)
           else (setConnected ;;; onComplete) s.

(** The engine's error for reading a property of [null]. *)
Definition nullPropertyError (key : string) : JsError :=
  TypeError ("Cannot read properties of null (reading '" ++ key ++ "')").

Definition notIterableError : JsError := TypeError "items is not iterable".

Definition stepIdOf (record : json) (fallback : option json) : json :=
  match Js.firstTruthy
          [ Js.prop record "step_id"; Js.prop record "stepId";
            Js.prop record "step-id"; Js.prop record "eventID";
            Js.prop record "EventID"; Js.prop record "SeqID";
            Js.prop record "seqId"; Js.optProp fallback "eventID";
            Js.optProp fallback "EventID"; Js.optProp fallback "SeqID" ] with
  | Some v => v
  | None => JStr "unknown"
  end.

Definition messageOf (record : json) : json :=
  match Js.firstTruthy [ Js.prop record "message"; Js.prop record "msg" ] with
  | Some v => v
  | None => JStr (JSON_stringify record)
  end.

Definition finishedOf (record : json) : json :=
  Js.nullish (Js.prop record "finished")
             (Js.nullish (Js.prop record "Finished") (JBool false)).

Definition timestampOf (record : json) (fallback : option json) : M Timestamp :=
  match Js.firstTruthy
          [ Js.prop record "timestamp"; Js.prop record "Timestamp";
            Js.optProp fallback "timestamp"; Js.optProp fallback "Timestamp" ] with
  | Some v => ret (DateOf v)
  | None => now <- readClock ;; ret (DateAt now)
  end.

(** The part of [parseEventPayload] after the string case: [data] is read as
    a record; reading its first property throws when it is [null]. *)
Definition eventOfRecord (record : json) (fallback : option json)
  : M (option JobEvent) :=
  match record with
  | JNull => throw (nullPropertyError "step_id")
  | _ =>
      let stepId := stepIdOf record fallback in
      let message := messageOf record in
      ts <- timestampOf record fallback ;;
      ret (Some (mkJobEvent stepId message (finishedOf record) ts
                            (getEventType stepId)))
  end.

(** The event built when the payload text is not JSON. *)
Definition rawTextEvent (trimmed : string) (now : Z) : JobEvent :=
  mkJobEvent (JStr "unknown") (JStr trimmed) (JBool false) (DateAt now)
             (getEventType (JStr "")).

Definition parseEventPayload (payload : option json) (fallback : option json)
  : M (option JobEvent) :=
  match payload with
  | None | Some JNull => ret None
  | Some (JStr data) =>
      let trimmed := Str.trim data in
      if negb (Str.nonEmpty trimmed) then ret None
      else
        match JSON_parse trimmed with
        | None => now <- readClock ;; ret (Some (rawTextEvent trimmed now))
        | Some parsed => eventOfRecord parsed fallback
        end
  | Some data => eventOfRecord data fallback
  end.

(** One entry of [parseSseText]'s result. *)
Record SseEntry : Type := mkSseEntry {
  sse_id : option string;
  sse_data : string
}.

(** The local variables of [parseSseText]. *)
Record SseAcc : Type := mkSseAcc {
  events : list SseEntry;
  currentId : option string;
  dataLines : list string
}.

Definition idTruthy (i : option string) : bool :=
  match i with
  | Some s => Str.nonEmpty s
  | None => false
  end.

Definition pushEvent (a : SseAcc) : SseAcc :=
  mkSseAcc
    (if idTruthy (currentId a) || (0 <? List.length (dataLines a))%nat
     then events a ++ [mkSseEntry (currentId a) (Str.joinLines (dataLines a))]
     else events a)
    None [].

Definition sseLine (a : SseAcc) (line : string) : SseAcc :=
  if line =? "" then pushEvent a
  else if Str.startsWith ":" line then a
  else if Str.startsWith "id:" line
       then mkSseAcc (events a) (Some (Str.trim (Str.slice 3 line))) (dataLines a)
  else if Str.startsWith "data:" line
       then mkSseAcc (events a) (currentId a)
                     (dataLines a ++ [Str.trimStart (Str.slice 5 line)])
  else a.

Definition parseSseText (text : string) : list SseEntry :=
  events (pushEvent (fold_left sseLine (Str.splitLines text)
                               (mkSseAcc [] None []))).

Definition deliver (parsed : option JobEvent) : M unit :=
  match parsed with
  | Some e => onEvent e
  | None => ret tt
  end.

(** Body of the loop over the entries of an SSE text. *)
Definition emitSseEntry (entry : SseEntry) : M unit :=
  let seq := if idTruthy (sse_id entry) then sse_id entry else None in
  match seq with
  | Some i => setLastSeqId (JStr i)
  | None => ret tt
  end ;;;
  event <- parseEventPayload
             (Some (JStr (sse_data entry)))
             (option_map (fun i => JObj [("SeqID", JStr i)]) seq) ;;
  deliver event.

(** [Array.isArray(raw) ? raw : raw.events || raw.items || [raw]], then the
    elements the loop enumerates. *)
Definition itemsOf (raw : json) : M (list json) :=
  let items :=
    if Js.isArray raw then raw
    else match Js.firstTruthy [ Js.prop raw "events"; Js.prop raw "items" ] with
         | Some v => v
         | None => JArr [raw]
         end in
  match Js.iterate items with
  | Some l => ret l
  | None => throw notIterableError
  end.

(** Body of the loop over the items of a JSON response. *)
Definition emitItem (entry : json) : M unit :=
  match entry with
  | JNull => throw (nullPropertyError "SeqID")
  | _ =>
      match Js.firstTruthy [ Js.prop entry "SeqID"; Js.prop entry "seqId" ] with
      | Some seqId => setLastSeqId seqId
      | None => ret tt
      end ;;;
      let payload := Js.nullish (Js.prop entry "data") entry in
      parsed <- parseEventPayload (Some payload) (Some entry) ;;
      deliver parsed
  end.

(** Whether a trimmed text body is taken for Server-Sent Events. *)
Definition looksLikeSse (trimmed : string) : bool :=
  Str.startsWith "id:" trimmed
  || Str.startsWith "data:" trimmed
  || Str.includes (Str.NL ++ "data:") trimmed.

Definition emitFromResponse (raw : json) : M unit :=
  match raw with
  | JNull => ret tt
  | JStr text =>
      let trimmed := Str.trim text in
      if negb (Str.nonEmpty trimmed) then ret tt
      else if looksLikeSse trimmed
      then forOf emitSseEntry (parseSseText trimmed)
      else parsed <- parseEventPayload (Some (JStr trimmed)) None ;;
           deliver parsed
  | _ =>
      items <- itemsOf raw ;;
      forOf emitItem items
  end.

(** [JSON.parse] as a computation that throws. *)
Definition parseJson (text : string) : M json :=
  match JSON_parse text with
  | Some v => ret v
  | None => throw (SyntaxError (JSON_message text))
  end.

(** [response.ok]. *)
Definition ok (status : Z) : bool := ((200 <=? status) && (status <=? 299))%Z.

(** What awaiting [response.text()] gives. *)
Inductive BodyRead : Type :=
| BodyText (text : string)
| BodyRejected (e : JsError).

(** What awaiting [fetch] gives. *)
Inductive Reply : Type :=
| FetchRejected (e : JsError)
| Response (status : Z) (body : BodyRead).

Definition readText (body : BodyRead) : M string :=
  match body with
  | BodyText text => ret text
  | BodyRejected e => throw e
  end.

(** One iteration of the loop of [poll], from the point where the awaited
    [fetch] settles to the end of the loop body. *)
Definition pollBody (r : Reply) : M unit :=
  match r with
  | FetchRejected e => throw e
  | Response status body =>
      if (status =? 204)%Z then markConnected
      else if negb (ok status) && negb (status =? 101)%Z
      then text <- readText body ;;
           throw (PlainError ("Events request failed: " ++ Str.ofZ status
                              ++ " - " ++ text))
      else markConnected ;;;
           text <- readText body ;;
           if negb (Str.nonEmpty (Str.trim text)) then ret tt
           else tryCatch (v <- parseJson text ;; emitFromResponse v)
                         (emitFromResponse (JStr text))
  end.

(** The head of the loop: while the signal is not aborted, one more request
    is issued, carrying the cursor when there is one. *)
Definition pollHead : M unit :=
  fun s =>
    if aborted s
    then (Return tt,
          mkSub (lastSeqId s) (hasConnected s) (aborted s) false
                (clockReads s) (trace s))
    else emit (Fetch (lastSeqId s)) s.

(** The rejection handler installed on [poll()]. *)
Definition pollCatch (err : JsError) : M unit :=
  fun s =>
    let s' := mkSub (lastSeqId s) (hasConnected s) (aborted s) false
                    (clockReads s) (trace s) in
    if negb (err_name err =? "AbortError") then onError err s'
    else (Return tt, s').

(** What happens to a subscription: the pending request settles, or the
    cleanup function returned by [subscribeToJobEvents] is called. *)
Inductive Input : Type :=
| Arrives (r : Reply)
| Cancel.

Definition abortSignal (s : Sub) : Sub :=
  mkSub (lastSeqId s) (hasConnected s) true (running s)
        (clockReads s) (trace s).

(** One step of a subscription. While the loop runs a request is pending:
    a reply resumes the loop body and then its head; a cancellation aborts
    the signal, which rejects the pending request with an [AbortError]. Once
    the loop has ended nothing is pending any more. *)
Definition step (s : Sub) (i : Input) : Sub :=
  if running s then
    match i with
    | Arrives r =>
        match pollBody r s with
        | (Return _, s') => snd (pollHead s')
        | (Throw e, s') => snd (pollCatch e s')
        end
    | Cancel => snd (pollCatch AbortError (abortSignal s))
    end
  else
    match i with
    | Arrives _ => s
    | Cancel => abortSignal s
    end.

(** A fresh subscription: the first request is issued synchronously. *)
Definition subscribeToJobEvents : Sub :=
  mkSub None false false true 0 [Fetch None].

Definition run (s : Sub) (script : list Input) : Sub :=
  fold_left step script s.

End Decoder.

(** The observations a step adds to the trace. *)
Definition added (before after : Sub) : list Obs :=
  skipn (List.length (trace before)) (trace after).

(* ------------------------------------------------------------------ *)
(** ** Event kinds *)

Module Events.

(** How one rule of the classifier reads a step id. *)
Inductive Pattern : Type :=
| Prefix (p : string)
| PrefixWith (p inner : string).

Definition matches (pat : Pattern) (stepId : string) : bool :=
  match pat with
  | Prefix p => Str.startsWith p stepId
  | PrefixWith p inner => Str.startsWith p stepId && Str.includes inner stepId
  end.

(** Modelled from the spec: the rule table of [getEventType] in
    '@/types/events', a file that is not among the sources. The spec gives
    the rules in this order: [workflow:], [phase:], [agent:...:task-],
    [agent:...], [chat:token] or [chat:tokens], then
    [chat:request|response|complete]; anything else is unknown. *)
Definition rules : list (Pattern * EventType) :=
  [ (Prefix "workflow:", workflow);
    (Prefix "phase:", phase);
    (PrefixWith "agent:" ":task-", task);
    (Prefix "agent:", agent);
    (Prefix "chat:token", chatToken);
    (Prefix "chat:tokens", chatToken);
    (Prefix "chat:request", chatLifecycle);
    (Prefix "chat:response", chatLifecycle);
    (Prefix "chat:complete", chatLifecycle) ].

Fixpoint firstMatch (rs : list (Pattern * EventType)) (stepId : string)
  : EventType :=
  match rs with
  | [] => unknown
  | (pat, k) :: rest => if matches pat stepId then k else firstMatch rest stepId
  end.

(** Modelled from the spec: [getEventType] of '@/types/events' (not among
    the sources): prefix matching, case-sensitive, first match wins. *)
Definition getEventType (stepId : string) : EventType :=
  firstMatch rules stepId.

End Events.

(* ------------------------------------------------------------------ *)
(** ** A reference host

    An executable instance of [Host], used to run the model on concrete
    response bodies. Its [parse] follows the JSON grammar (ECMA-404) on the
    fragment with integer number literals and escapes inside Latin-1; its
    [stringify] prints without white space, as [JSON.stringify] does. *)

Module Ref.

Definition DQUOTE : ascii := "034"%char.
Definition BACKSLASH : ascii := "092"%char.

(** Writes a JSON text with apostrophes in place of double quotes. *)
Fixpoint q (s : string) : string :=
  match s with
  | EmptyString => EmptyString
  | String c r => String (if Ascii.eqb c "'" then DQUOTE else c) (q r)
  end.

Definition jsonWs (c : ascii) : bool :=
  match c with
  | " "%char | "009"%char | "010"%char | "013"%char => true
  | _ => false
  end.

Fixpoint skipWs (s : string) : string :=
  match s with
  | EmptyString => EmptyString
  | String c r => if jsonWs c then skipWs r else s
  end.

Definition literal (lit : string) (v : json) (s : string)
  : option (json * string) :=
  if String.prefix lit s then Some (v, Str.slice (String.length lit) s)
  else None.

Definition hexDigit (c : ascii) : option N :=
  let n := N_of_ascii c in
  if ((48 <=? n) && (n <=? 57))%N then Some (n - 48)%N
  else if ((97 <=? n) && (n <=? 102))%N then Some (n - 87)%N
  else if ((65 <=? n) && (n <=? 70))%N then Some (n - 55)%N
  else None.

(** The code unit of [\uXXXX] when it lies in Latin-1. *)
Definition hex4 (a b c d : ascii) : option ascii :=
  match hexDigit a, hexDigit b, hexDigit c, hexDigit d with
  | Some 0%N, Some 0%N, Some x, Some y => Some (ascii_of_N (16 * x + y))
  | _, _, _, _ => None
  end.

Definition unescape (c : ascii) : option ascii :=
  match c with
  | "034"%char => Some DQUOTE
  | "092"%char => Some BACKSLASH
  | "/"%char => Some "/"%char
  | "b"%char => Some "008"%char
  | "f"%char => Some "012"%char
  | "n"%char => Some "010"%char
  | "r"%char => Some "013"%char
  | "t"%char => Some "009"%char
  | _ => None
  end.

Definition consChar (c : ascii) (r : option (string * string))
  : option (string * string) :=
  match r with
  | Some (t, rest) => Some (String c t, rest)
  | None => None
  end.

(** The characters of a string literal after its opening quote. *)
Fixpoint parseStringBody (s : string) : option (string * string) :=
  match s with
  | EmptyString => None
  | String c r =>
      if Ascii.eqb c DQUOTE then Some (EmptyString, r)
      else if Ascii.eqb c BACKSLASH then
        match r with
        | EmptyString => None
        | String e r' =>
            if Ascii.eqb e "u" then
              match r' with
              | String h1 (String h2 (String h3 (String h4 r''))) =>
                  match hex4 h1 h2 h3 h4 with
                  | Some ch => consChar ch (parseStringBody r'')
                  | None => None
                  end
              | _ => None
              end
            else
              match unescape e with
              | Some ch => consChar ch (parseStringBody r')
              | None => None
              end
        end
      else if (N_of_ascii c <? 32)%N then None
      else consChar c (parseStringBody r)
  end.

Definition isDigit (c : ascii) : bool :=
  ((48 <=? N_of_ascii c) && (N_of_ascii c <=? 57))%N.

Fixpoint digits (acc : Z) (s : string) : Z * string :=
  match s with
  | String c r =>
      if isDigit c
      then digits (10 * acc + Z.of_N (N_of_ascii c - 48)) r
      else (acc, s)
  | EmptyString => (acc, s)
  end.

(** An integer literal: [0] or a non-zero digit followed by digits; a
    fraction or an exponent is outside the fragment. *)
Definition parseNat (s : string) : option (Z * string) :=
  match s with
  | String c r =>
      if isDigit c then
        let '(n, rest) := if Ascii.eqb c "0" then (0%Z, r) else digits 0 s in
        match rest with
        | String d _ =>
            if isDigit d || Ascii.eqb d "." || Ascii.eqb d "e" || Ascii.eqb d "E"
            then None else Some (n, rest)
        | EmptyString => Some (n, rest)
        end
      else None
  | EmptyString => None
  end.

Definition parseNumber (s : string) : option (json * string) :=
  match s with
  | String "-" r =>
      match parseNat r with
      | Some (n, rest) => Some (JNum (- n), rest)
      | None => None
      end
  | _ =>
      match parseNat s with
      | Some (n, rest) => Some (JNum n, rest)
      | None => None
      end
  end.

(** A repeated key keeps its place and takes the later value. *)
Fixpoint setMember (k : string) (v : json) (ms : list (string * json))
  : list (string * json) :=
  match ms with
  | [] => [(k, v)]
  | (k', v') :: rest =>
      if k' =? k then (k', v) :: rest else (k', v') :: setMember k v rest
  end.

Fixpoint parseValue (fuel : nat) (s : string) : option (json * string) :=
  match fuel with
  | O => None
  | S fuel' =>
      match skipWs s with
      | EmptyString => None
      | String c r as s0 =>
          if Ascii.eqb c "n" then literal "null" JNull s0
          else if Ascii.eqb c "t" then literal "true" (JBool true) s0
          else if Ascii.eqb c "f" then literal "false" (JBool false) s0
          else if Ascii.eqb c DQUOTE then
            match parseStringBody r with
            | Some (t, rest) => Some (JStr t, rest)
            | None => None
            end
          else if Ascii.eqb c "[" then
            match skipWs r with
            | String "]" rest => Some (JArr [], rest)
            | _ =>
                match parseElements fuel' r with
                | Some (vs, rest) => Some (JArr vs, rest)
                | None => None
                end
            end
          else if Ascii.eqb c "{" then
            match skipWs r with
            | String "}" rest => Some (JObj [], rest)
            | _ =>
                match parseMembers fuel' [] r with
                | Some (ms, rest) => Some (JObj ms, rest)
                | None => None
                end
            end
          else parseNumber s0
      end
  end
with parseElements (fuel : nat) (s : string) : option (list json * string) :=
  match fuel with
  | O => None
  | S fuel' =>
      match parseValue fuel' s with
      | Some (v, rest) =>
          match skipWs rest with
          | String "," rest' =>
              match parseElements fuel' rest' with
              | Some (vs, rest'') => Some (v :: vs, rest'')
              | None => None
              end
          | String "]" rest' => Some ([v], rest')
          | _ => None
          end
      | None => None
      end
  end
with parseMembers (fuel : nat) (acc : list (string * json)) (s : string)
  : option (list (string * json) * string) :=
  match fuel with
  | O => None
  | S fuel' =>
      match skipWs s with
      | String c r =>
          if Ascii.eqb c DQUOTE then
            match parseStringBody r with
            | Some (k, rest) =>
                match skipWs rest with
                | String ":" rest' =>
                    match parseValue fuel' rest' with
                    | Some (v, rest'') =>
                        let acc' := setMember k v acc in
                        match skipWs rest'' with
                        | String "," rest3 => parseMembers fuel' acc' rest3
                        | String "}" rest3 => Some (acc', rest3)
                        | _ => None
                        end
                    | None => None
                    end
                | _ => None
                end
            | None => None
            end
          else None
      | EmptyString => None
      end
  end.

(** [JSON.parse]: one value, with nothing but white space after it. *)
Definition parse (text : string) : option json :=
  match parseValue (S (String.length text)) text with
  | Some (v, rest) =>
      match skipWs rest with
      | EmptyString => Some v
      | _ => None
      end
  | None => None
  end.

Definition hexChar (n : N) : ascii :=
  if (n <? 10)%N then ascii_of_N (48 + n) else ascii_of_N (87 + n).

Fixpoint escape (s : string) : string :=
  match s with
  | EmptyString => EmptyString
  | String c r =>
      let rest := escape r in
      if Ascii.eqb c DQUOTE then String BACKSLASH (String DQUOTE rest)
      else if Ascii.eqb c BACKSLASH then String BACKSLASH (String BACKSLASH rest)
      else if Ascii.eqb c "010" then String BACKSLASH (String "n" rest)
      else if Ascii.eqb c "013" then String BACKSLASH (String "r" rest)
      else if Ascii.eqb c "009" then String BACKSLASH (String "t" rest)
      else if Ascii.eqb c "008" then String BACKSLASH (String "b" rest)
      else if Ascii.eqb c "012" then String BACKSLASH (String "f" rest)
      else if (N_of_ascii c <? 32)%N
      then String BACKSLASH
             (String "u" (String "0" (String "0"
                (String (hexChar (N_of_ascii c / 16))
                   (String (hexChar (N_of_ascii c mod 16)) rest)))))
      else String c rest
  end.

Definition quote (s : string) : string :=
  String DQUOTE (escape s ++ String DQUOTE EmptyString).

(** [JSON.stringify] of a value. *)
Fixpoint stringify (v : json) : string :=
  match v with
  | JNull => "null"
  | JBool true => "true"
  | JBool false => "false"
  | JNum n => Str.ofZ n
  | JStr s => quote s
  | JArr l => "[" ++ String.concat "," (map stringify l) ++ "]"
  | JObj ms =>
      "{" ++ String.concat ","
               (map (fun m => (quote (fst m) ++ ":" ++ stringify (snd m))%string)
                    ms)
          ++ "}"
  end.

(** The classifier on run-time values: the event kinds of the spec on
    strings. *)
Definition classify (v : json) : EventType :=
  match v with
  | JStr s => Events.getEventType s
  | _ => unknown
  end.

(** A clock that advances by one second at each reading. *)
Definition clock (k : nat) : Z := (1700000000000 + 1000 * Z.of_nat k)%Z.

(** The message of the [SyntaxError] of this host. *)
Definition message (text : string) : string :=
  match skipWs text with
  | EmptyString => "Unexpected end of JSON input"
  | _ => "Unexpected token in JSON"
  end.

Definition host : Host :=
  {| JSON_parse := parse;
     JSON_message := message;
     JSON_stringify := stringify;
     getEventType := classify;
     Date_now := clock |}.

End Ref.

(* ------------------------------------------------------------------ *)
(** ** The run controller ([useChatJobEvents]) *)

Module Hook.

Inductive ChatRunStatus : Type :=
| Idle | Submitting | Streaming | Success | Error.

Inductive EventsConnectionStatus : Type :=
| ConnIdle | ConnWaiting | ConnQuerying | ConnConnected | ConnError.

Inductive Role : Type := RoleSystem | RoleUser | RoleAssistant.

Inductive PartState : Type := PartStreaming | PartDone.

Inductive Part : Type :=
| TextPart (text : string) (state : PartState)
| OtherPart (kind : string).

(** Identifiers produced by [generateId] and handles produced by
    [window.setInterval] are numbered by a counter. *)
Record UIMessage : Type := mkUIMessage {
  msg_id : nat;
  role : Role;
  parts : list Part
}.

(** What [readJob] resolves to. *)
Record JobRead : Type := mkJobRead {
  job_status : string;
  errorMessage : option string
}.

(** The state of the hook: its React state, its refs, and the resources it
    has created: the interval timers still active and every subscription it
    has opened, each with the state of its loop. *)
Record State : Type := mkState {
  messages : list UIMessage;
  status : ChatRunStatus;
  jobId : option string;
  error : option string;
  tokenEvents : nat;
  eventsConnectionStatus : EventsConnectionStatus;
  events : list JobEvent;
  assistantIdRef : option nat;
  abortRef : option nat;
  pollRef : option nat;
  connectedRef : bool;
  timers : list nat;
  streams : list Sub;
  nextId : nat
}.

Definition initial : State :=
  mkState [] Idle None None 0 ConnIdle [] None None None false [] [] 0.

Definition setMessages (f : list UIMessage -> list UIMessage) (h : State) :=
  mkState (f (messages h)) (status h) (jobId h) (error h) (tokenEvents h)
          (eventsConnectionStatus h) (events h) (assistantIdRef h)
          (abortRef h) (pollRef h) (connectedRef h) (timers h) (streams h)
          (nextId h).
Definition setStatus (v : ChatRunStatus) (h : State) :=
  mkState (messages h) v (jobId h) (error h) (tokenEvents h)
          (eventsConnectionStatus h) (events h) (assistantIdRef h)
          (abortRef h) (pollRef h) (connectedRef h) (timers h) (streams h)
          (nextId h).
Definition setJobId (v : option string) (h : State) :=
  mkState (messages h) (status h) v (error h) (tokenEvents h)
          (eventsConnectionStatus h) (events h) (assistantIdRef h)
          (abortRef h) (pollRef h) (connectedRef h) (timers h) (streams h)
          (nextId h).
Definition setError (v : option string) (h : State) :=
  mkState (messages h) (status h) (jobId h) v (tokenEvents h)
          (eventsConnectionStatus h) (events h) (assistantIdRef h)
          (abortRef h) (pollRef h) (connectedRef h) (timers h) (streams h)
          (nextId h).
Definition setTokenEvents (f : nat -> nat) (h : State) :=
  mkState (messages h) (status h) (jobId h) (error h) (f (tokenEvents h))
          (eventsConnectionStatus h) (events h) (assistantIdRef h)
          (abortRef h) (pollRef h) (connectedRef h) (timers h) (streams h)
          (nextId h).
Definition setEventsConnectionStatus (v : EventsConnectionStatus) (h : State) :=
  mkState (messages h) (status h) (jobId h) (error h) (tokenEvents h)
          v (events h) (assistantIdRef h)
          (abortRef h) (pollRef h) (connectedRef h) (timers h) (streams h)
          (nextId h).
Definition setEvents (f : list JobEvent -> list JobEvent) (h : State) :=
  mkState (messages h) (status h) (jobId h) (error h) (tokenEvents h)
          (eventsConnectionStatus h) (f (events h)) (assistantIdRef h)
          (abortRef h) (pollRef h) (connectedRef h) (timers h) (streams h)
          (nextId h).
Definition setAssistantIdRef (v : option nat) (h : State) :=
  mkState (messages h) (status h) (jobId h) (error h) (tokenEvents h)
          (eventsConnectionStatus h) (events h) v
          (abortRef h) (pollRef h) (connectedRef h) (timers h) (streams h)
          (nextId h).
Definition setAbortRef (v : option nat) (h : State) :=
  mkState (messages h) (status h) (jobId h) (error h) (tokenEvents h)
          (eventsConnectionStatus h) (events h) (assistantIdRef h)
          v (pollRef h) (connectedRef h) (timers h) (streams h)
          (nextId h).
Definition setPollRef (v : option nat) (h : State) :=
  mkState (messages h) (status h) (jobId h) (error h) (tokenEvents h)
          (eventsConnectionStatus h) (events h) (assistantIdRef h)
          (abortRef h) v (connectedRef h) (timers h) (streams h)
          (nextId h).
Definition setConnectedRef (v : bool) (h : State) :=
  mkState (messages h) (status h) (jobId h) (error h) (tokenEvents h)
          (eventsConnectionStatus h) (events h) (assistantIdRef h)
          (abortRef h) (pollRef h) v (timers h) (streams h)
          (nextId h).
Definition setTimers (f : list nat -> list nat) (h : State) :=
  mkState (messages h) (status h) (jobId h) (error h) (tokenEvents h)
          (eventsConnectionStatus h) (events h) (assistantIdRef h)
          (abortRef h) (pollRef h) (connectedRef h) (f (timers h)) (streams h)
          (nextId h).
Definition setStreams (f : list Sub -> list Sub) (h : State) :=
  mkState (messages h) (status h) (jobId h) (error h) (tokenEvents h)
          (eventsConnectionStatus h) (events h) (assistantIdRef h)
          (abortRef h) (pollRef h) (connectedRef h) (timers h) (f (streams h))
          (nextId h).

(** [generateId()], and the handle of a new interval timer. *)
Definition fresh (h : State) : nat * State :=
  (nextId h,
   mkState (messages h) (status h) (jobId h) (error h) (tokenEvents h)
           (eventsConnectionStatus h) (events h) (assistantIdRef h)
           (abortRef h) (pollRef h) (connectedRef h) (timers h) (streams h)
           (S (nextId h))).

(** Applies [f] to the element at index [i], if there is one. *)
Fixpoint updateAt {A} (i : nat) (f : A -> A) (l : list A) : list A :=
  match l, i with
  | [], _ => []
  | x :: rest, O => f x :: rest
  | x :: rest, S i' => x :: updateAt i' f rest
  end.

Section Controller.
Context `{Host}.

(** The functions [isChatTokenEvent] and [getChatTokenText] of '@/lib/api',
    which the sources do not include. *)
Variable isChatTokenEvent : JobEvent -> bool.
Variable getChatTokenText : JobEvent -> string.

(** [window.clearInterval(t)]. *)
Definition clearInterval (t : nat) : State -> State :=
  setTimers (filter (fun t' => negb (t' =? t)%nat)).

(** Calling the cleanup function of the subscription with handle [i]. *)
Definition callAbort (i : nat) : State -> State :=
  setStreams (updateAt i (fun s => step s Cancel)).

Definition cleanup (h : State) : State :=
  let h1 := match abortRef h with
            | Some i => setAbortRef None (callAbort i h)
            | None => h
            end in
  let h2 := match pollRef h1 with
            | Some t => setPollRef None (clearInterval t h1)
            | None => h1
            end in
  setConnectedRef false h2.

Definition donePart (p : Part) : Part :=
  match p with
  | TextPart text _ => TextPart text PartDone
  | OtherPart k => OtherPart k
  end.

Definition finalizeAssistant (h : State) : State :=
  match assistantIdRef h with
  | None => h
  | Some assistantId =>
      setMessages
        (map (fun m =>
                if negb (msg_id m =? assistantId)%nat then m
                else mkUIMessage (msg_id m) (role m) (map donePart (parts m))))
        h
  end.

Fixpoint firstText (ps : list Part) : string :=
  match ps with
  | [] => ""
  | TextPart text _ :: _ => text
  | OtherPart _ :: rest => firstText rest
  end.

Definition appendAssistantChunk (chunk : string) (h : State) : State :=
  match assistantIdRef h with
  | None => h
  | Some assistantId =>
      setMessages
        (map (fun m =>
                if negb (msg_id m =? assistantId)%nat then m
                else mkUIMessage (msg_id m) (role m)
                       [TextPart (firstText (parts m) ++ chunk) PartStreaming]))
        h
  end.

Definition buildUserMessage (id : nat) (prompt : string) : UIMessage :=
  mkUIMessage id RoleUser [TextPart prompt PartDone].

Definition buildAssistantMessage (id : nat) : UIMessage :=
  mkUIMessage id RoleAssistant [TextPart "" PartStreaming].

(** [submitPrompt] up to its first [await]: [None] when the prompt is
    blank and the call returns at once. *)
Definition submitPrompt (prompt : string) (h : State) : option State :=
  let trimmed := Str.trim prompt in
  if negb (Str.nonEmpty trimmed) then None
  else
    let h := cleanup h in
    let h := setStatus Submitting h in
    let h := setError None h in
    let h := setJobId None h in
    let h := setTokenEvents (fun _ => 0) h in
    let h := setEvents (fun _ => []) h in
    let h := setEventsConnectionStatus ConnWaiting h in
    let '(userId, h) := fresh h in
    let '(assistantId, h) := fresh h in
    let h := setAssistantIdRef (Some assistantId) h in
    Some (setMessages
            (fun messages => (messages ++ [buildUserMessage userId trimmed])
                             ++ [buildAssistantMessage assistantId])
            h).

(** The three callbacks handed to [subscribeToJobEvents]. *)
Definition onStreamEvent (event : JobEvent) (h : State) : State :=
  let h := setEvents (fun prev => prev ++ [event]) h in
  if isChatTokenEvent event && negb (Js.truthy (finished event)) then
    let token := getChatTokenText event in
    if Str.nonEmpty token
    then appendAssistantChunk token (setTokenEvents S h)
    else h
  else h.

Definition onStreamConnected (h : State) : State :=
  setEventsConnectionStatus ConnConnected h.

Definition onStreamError (streamError : JsError) (h : State) : State :=
  let h := setEventsConnectionStatus ConnError h in
  let h := setError (Some (err_message streamError)) h in
  let h := setStatus Error h in
  finalizeAssistant h.

(** The wiring of the callbacks in the call of [subscribeToJobEvents]. *)
Definition dispatch (h : State) (o : Obs) : State :=
  match o with
  | OnEvent event => onStreamEvent event h
  | OnComplete => onStreamConnected h
  | OnError streamError => onStreamError streamError h
  | Fetch _ => h
  end.

(** Something reaches the subscription with handle [i]: its loop takes one
    step, and the callbacks it invokes run in the order of invocation. *)
Definition streamInput (i : nat) (r : Reply) (h : State) : State :=
  match nth_error (streams h) i with
  | None => h
  | Some s =>
      let s' := step s (Arrives r) in
      fold_left dispatch (added s s') (setStreams (updateAt i (fun _ => s')) h)
  end.

Definition terminalSuccess : list string := ["success"; "complete"; "succeeded"].
Definition terminalError : list string := ["error"; "failed"].
Definition nonTerminal : list string :=
  ["scheduled"; "pending"; "running"; "executing"].

Definition has (set : list string) (x : string) : bool :=
  existsb (String.eqb x) set.

(** [subscribeToJobEvents(...)]: a new subscription, whose handle is its
    index among the subscriptions opened so far. *)
Definition openSubscription (h : State) : State :=
  let i := List.length (streams h) in
  setAbortRef (Some i) (setStreams (fun ss => ss ++ [subscribeToJobEvents]) h).

(** [pollOnce] from the point where [readJob] has resolved. *)
Definition pollOnce (job : JobRead) (h : State) : State :=
  let normalized := Str.toLowerCase (job_status job) in
  let h :=
    if ((normalized =? "running") || (normalized =? "executing"))
       && negb (connectedRef h)
    then
      let h := setConnectedRef true h in
      let h := setStatus Streaming h in
      let h := setEventsConnectionStatus ConnQuerying h in
      openSubscription h
    else h in
  if has terminalSuccess normalized then
    setStatus Success (finalizeAssistant (cleanup h))
  else if has terminalError normalized then
    let h := setStatus Error (finalizeAssistant (cleanup h)) in
    setError
      (Some (match errorMessage job with
             | Some m =>
                 if Str.nonEmpty m then m else ("Chat job " ++ normalized)%string
             | None => ("Chat job " ++ normalized)%string
             end)) h
  else if negb (has nonTerminal normalized) then
    let h := setStatus Error (finalizeAssistant (cleanup h)) in
    setError
      (Some ("Unexpected job status: "
             ++ (if Str.nonEmpty normalized then normalized else "unknown"))%string)
      h
  else h.

(** The rejection handler of the timer's [pollOnce] call. *)
Definition onPollError (message : string) (h : State) : State :=
  let h := setError (Some message) h in
  let h := setStatus Error h in
  finalizeAssistant (cleanup h).

(** [submitPrompt] after [createChatJob] has resolved. *)
Definition onJobCreated (createdJobId : string) (h : State) : State :=
  setJobId (Some createdJobId) h.

(** [submitPrompt] after the first [pollOnce] has resolved: the interval
    timer is started. *)
Definition startPolling (h : State) : State :=
  let '(t, h) := fresh h in
  setPollRef (Some t) (setTimers (fun ts => ts ++ [t]) h).

(** The [catch] of [submitPrompt]. *)
Definition onSubmitError (message : string) (h : State) : State :=
  let h := finalizeAssistant (cleanup h) in
  setStatus Error (setError (Some message) h).

Definition reset (h : State) : State :=
  let h := cleanup h in
  let h := setAssistantIdRef None h in
  let h := setMessages (fun _ => []) h in
  let h := setStatus Idle h in
  let h := setJobId None h in
  let h := setError None h in
  let h := setTokenEvents (fun _ => 0) h in
  let h := setEvents (fun _ => []) h in
  setEventsConnectionStatus ConnIdle h.

(** Subscriptions numbered from [k], each stopped unless it is the one
    whose handle is [a]. *)
Definition heldFrom (k : nat) (a : option nat) (l : list Sub) : bool :=
  forallb (fun p => negb (running (snd p))
                    || match a with
                       | Some i => (fst p =? i)%nat
                       | None => false
                       end)
          (combine (seq k (List.length l)) l).

Definition allStopped (l : list Sub) : bool :=
  forallb (fun s => negb (running s)) l.

(** Every active timer is the one [pollRef] holds, and every subscription
    whose loop still runs is the one [abortRef] holds. *)
Definition owned (h : State) : bool :=
  forallb (fun t => match pollRef h with
                    | Some t' => (t =? t')%nat
                    | None => false
                    end) (timers h)
  && heldFrom 0 (abortRef h) (streams h).

(** The handles and resources of a run: what teardown is about. *)
Definition sameResources (h h' : State) : Prop :=
  abortRef h' = abortRef h /\ pollRef h' = pollRef h /\
  connectedRef h' = connectedRef h /\ timers h' = timers h /\
  streams h' = streams h.

(** The part of the asynchronous body of [submitPrompt] still to run. *)
Inductive Pending : Type :=
| NoSubmit
| AwaitingJob
| AwaitingFirstPoll.

(** One step of the controller: a handler, or the continuation of an
    [await], runs to completion. A status read may complete at any time, a
    reply may reach any subscription at any time, and the caller may reset
    at any time; a prompt is submitted only while no submission is pending. *)
Inductive transition : Pending * State -> Pending * State -> Prop :=
| Submits (h h' : State) (prompt : string) :
    submitPrompt prompt h = Some h' ->
    transition (NoSubmit, h) (AwaitingJob, h')
| JobCreated (h : State) (createdJobId : string) :
    transition (AwaitingJob, h) (AwaitingFirstPoll, onJobCreated createdJobId h)
| CreateFails (h : State) (message : string) :
    transition (AwaitingJob, h) (NoSubmit, onSubmitError message h)
| FirstPollRead (h : State) (job : JobRead) :
    transition (AwaitingFirstPoll, h) (NoSubmit, startPolling (pollOnce job h))
| FirstPollFails (h : State) (message : string) :
    transition (AwaitingFirstPoll, h) (NoSubmit, onSubmitError message h)
| TickRead (p : Pending) (h : State) (job : JobRead) :
    transition (p, h) (p, pollOnce job h)
| TickFails (p : Pending) (h : State) (message : string) :
    transition (p, h) (p, onPollError message h)
| StreamReplies (p : Pending) (h : State) (i : nat) (r : Reply) :
    transition (p, h) (p, streamInput i r h)
| Resets (p : Pending) (h : State) :
    transition (p, h) (p, reset h).

(** The states a run can be in. *)
Inductive reachable : Pending * State -> Prop :=
| AtStart : reachable (NoSubmit, initial)
| AfterStep (c c' : Pending * State) :
    reachable c -> transition c c' -> reachable c'.

(** What holds of every state of a run: the controller holds every active
    timer and every running subscription; while it is not connected no
    subscription runs; and while a submission is pending no timer is held. *)
Definition invariant (c : Pending * State) : Prop :=
  owned (snd c) = true /\
  (connectedRef (snd c) = false -> allStopped (streams (snd c)) = true) /\
  (fst c <> NoSubmit -> pollRef (snd c) = None).

End Controller.

End Hook.

(* ------------------------------------------------------------------ *)
(** ** Vocabulary of the properties *)

(** The events a trace delivered through [onEvent], in order. *)
Fixpoint delivered (t : list Obs) : list JobEvent :=
  match t with
  | [] => []
  | OnEvent e :: rest => e :: delivered rest
  | _ :: rest => delivered rest
  end.

(** How often [onComplete] (the first-connect callback) was invoked. *)
Fixpoint connects (t : list Obs) : nat :=
  match t with
  | [] => 0
  | OnComplete :: rest => S (connects rest)
  | _ :: rest => connects rest
  end.

(** The errors handed to [onError] (the fatal-error callback). *)
Fixpoint errors (t : list Obs) : list JsError :=
  match t with
  | [] => []
  | OnError e :: rest => e :: errors rest
  | _ :: rest => errors rest
  end.

(** How many requests were issued. *)
Fixpoint fetches (t : list Obs) : nat :=
  match t with
  | [] => 0
  | Fetch _ :: rest => S (fetches rest)
  | _ :: rest => fetches rest
  end.

(** What a decoder computation does to the closure variables: it may move
    the cursor, it reads the clock some number of times, and it delivers
    events. *)
Record Effect : Type := mkEffect {
  eff_cursor : option json;
  eff_reads : nat;
  eff_events : list JobEvent
}.

Definition applyEffect (e : Effect) (s : Sub) : Sub :=
  mkSub (match eff_cursor e with
         | Some v => Some v
         | None => lastSeqId s
         end)
        (hasConnected s) (aborted s) (running s)
        (clockReads s + eff_reads e)
        (trace s ++ map OnEvent (eff_events e)).

Definition noEffect : Effect := mkEffect None 0 [].

(** Moving the clock forward by [k] readings and nothing else. *)
Definition advance (k : nat) : Effect := mkEffect None k [].

Definition seqEffect (e1 e2 : Effect) : Effect :=
  mkEffect (match eff_cursor e2 with
            | Some v => Some v
            | None => eff_cursor e1
            end)
           (eff_reads e1 + eff_reads e2)
           (eff_events e1 ++ eff_events e2).

(** A timestamp with the reading of the wall clock blanked. *)
Definition eraseStamp (t : Timestamp) : Timestamp :=
  match t with
  | DateAt _ => DateAt 0
  | DateOf v => DateOf v
  end.

(** An event with its client-assigned fallback timestamp blanked. *)
Definition eraseClock (e : JobEvent) : JobEvent :=
  mkJobEvent (step_id e) (message e) (finished e)
             (eraseStamp (timestamp e)) (type e).

(** Two optional events that agree up to the fallback timestamp. *)
Definition sameButClock (a b : option JobEvent) : Prop :=
  option_map eraseClock a = option_map eraseClock b.

Definition sameOutcome {A} (R : A -> A -> Prop) (o1 o2 : Outcome A) : Prop :=
  match o1, o2 with
  | Return a1, Return a2 => R a1 a2
  | Throw x1, Throw x2 => x1 = x2
  | _, _ => False
  end.

(** Two computations that, from any two states, end alike, move the cursor
    alike and deliver the same events up to fallback timestamps. *)
Definition related {A} (R : A -> A -> Prop) (c1 c2 : M A) : Prop :=
  forall s1 s2, exists o1 o2 e1 e2,
    c1 s1 = (o1, applyEffect e1 s1) /\
    c2 s2 = (o2, applyEffect e2 s2) /\
    eff_cursor e1 = eff_cursor e2 /\
    map eraseClock (eff_events e1) = map eraseClock (eff_events e2) /\
    sameOutcome R o1 o2.

(** A text without line feed or carriage return. *)
Fixpoint noBreak (s : string) : bool :=
  match s with
  | EmptyString => true
  | String c s' =>
      negb (Ascii.eqb c Str.LF) && negb (Ascii.eqb c Str.CR) && noBreak s'
  end.

(** *** The frames of an SSE body

    A frame is a run of lines between blank lines. Its lines may be [id:]
    lines, [data:] lines, comments and anything else, in any order. *)

Definition isIdLine (line : string) : bool := Str.startsWith "id:" line.
Definition isDataLine (line : string) : bool := Str.startsWith "data:" line.

(** Lines cut at the empty lines. Two empty lines in a row, or an empty
    line at either end, give an empty block. *)
Fixpoint blocks (lines : list string) : list (list string) :=
  match lines with
  | [] => [[]]
  | line :: rest =>
      if line =? "" then [] :: blocks rest
      else match blocks rest with
           | b :: bs => (line :: b) :: bs
           | [] => [[line]]
           end
  end.

Definition hasLines (b : list string) : bool :=
  match b with [] => false | _ :: _ => true end.

(** The frames among lines: the blocks that hold a line. *)
Definition framesOfLines (lines : list string) : list (list string) :=
  filter hasLines (blocks lines).

(** The frames of a body. The decoder trims the body, and lines end at a
    line feed or at a carriage return followed by a line feed. *)
Definition frames (text : string) : list (list string) :=
  framesOfLines (Str.splitLines (Str.trim text)).

(** The value of the last [id:] line of a frame, trimmed. *)
Definition frameId (f : list string) : option string :=
  fold_left (fun acc line =>
               if isIdLine line then Some (Str.trim (Str.slice 3 line)) else acc)
            f None.

(** The id of a frame when the frame has one that is not blank. *)
Definition frameSeq (f : list string) : option string :=
  match frameId f with
  | Some i => if Str.nonEmpty i then Some i else None
  | None => None
  end.

(** The values of the [data:] lines of a frame, each without the white
    space that follows the colon. *)
Definition frameDataLines (f : list string) : list string :=
  map (fun line => Str.trimStart (Str.slice 5 line)) (filter isDataLine f).

(** The data of a frame: its data lines joined by line feeds. *)
Definition frameData (f : list string) : string :=
  Str.joinLines (frameDataLines f).

Definition hasData (f : list string) : bool := existsb isDataLine f.

(** A frame whose data is not blank. *)
Definition carriesData (f : list string) : bool :=
  Str.nonEmpty (Str.trim (frameData f)).

(** A body the decoder reads frame by frame: it is blank, or it passes the
    decoder's test for Server-Sent Events. *)
Definition readAsSse (text : string) : bool :=
  negb (Str.nonEmpty (Str.trim text)) || looksLikeSse (Str.trim text).

(** The entry [parseSseText] makes of a frame, if it makes one. *)
Definition entryOf (f : list string) : list SseEntry :=
  if idTruthy (frameId f) || hasData f
  then [mkSseEntry (frameId f) (frameData f)]
  else [].

(** The id of the last frame that has one that is not blank. *)
Fixpoint lastFrameSeq (fs : list (list string)) : option string :=
  match fs with
  | [] => None
  | f :: rest =>
      match lastFrameSeq rest with
      | Some i => Some i
      | None => frameSeq f
      end
  end.

Section Vocabulary.
Context `{Host}.

(** A payload text from which [parseEventPayload] builds an event: it is
    not blank, and it is not the JSON text of [null]. *)
Definition deliverableText (d : string) : bool :=
  Str.nonEmpty (Str.trim d)
  && match JSON_parse (Str.trim d) with
     | Some JNull => false
     | _ => true
     end.

(** The payload of one item of a JSON response: its [data] member when it
    has one that is not [null], the item itself otherwise. *)
Definition payloadOf (entry : json) : json :=
  Js.nullish (Js.prop entry "data") entry.

(** An item that is a JSON object whose payload, when it is a text, is
    deliverable. *)
Definition deliverableItem (entry : json) : bool :=
  match entry with
  | JObj _ =>
      match payloadOf entry with
      | JStr d => deliverableText d
      | _ => true
      end
  | _ => false
  end.

(** [ev] is what [parseEventPayload] makes of the item [entry]. *)
Definition decodesItem (entry : json) (ev : JobEvent) : Prop :=
  exists s s',
    parseEventPayload (Some (payloadOf entry)) (Some entry) s
    = (Return (Some ev), s').

(** A frame whose data does not make the payload parser throw: it is blank,
    or it is not the JSON text of [null]. *)
Definition decodableFrame (f : list string) : bool :=
  negb (carriesData f) || deliverableText (frameData f).

(** [ev] is what [parseEventPayload] makes of the data of frame [f], with
    the frame's id, when it has one that is not blank, as fallback
    context. *)
Definition decodesFrame (f : list string) (ev : JobEvent) : Prop :=
  exists s s',
    parseEventPayload
      (Some (JStr (frameData f)))
      (option_map (fun i => JObj [("SeqID", JStr i)]) (frameSeq f)) s
    = (Return (Some ev), s').

(** The state [markConnected] leaves. *)
Definition connectedState (s : Sub) : Sub := snd (markConnected s).

(** The first-connect callback has fired exactly when the flag is set. *)
Definition connectInvariant (s : Sub) : Prop :=
  connects (trace s) = if hasConnected s then 1 else 0.

(** The state of a run in mid-stream: a prompt was submitted, the job was
    created, the first status poll found it running, so that the
    subscription is open, and the poll timer was started. *)
Definition midStream : Hook.State :=
  match Hook.submitPrompt "hello" Hook.initial with
  | Some h =>
      Hook.startPolling
        (Hook.pollOnce (Hook.mkJobRead "running" None)
                       (Hook.onJobCreated "job-1" h))
  | None => Hook.initial
  end.

(** Two submissions that overlap: a prompt is submitted; the caller resets
    and submits another prompt while the first job is still being created;
    then the continuation of the first submission runs, and after it the
    continuation of the second: each records its job, reads the status
    (found pending) and starts its poll timer. *)
Definition overlapping : Hook.State :=
  match Hook.submitPrompt "first" Hook.initial with
  | Some h1 =>
      match Hook.submitPrompt "second" (Hook.reset h1) with
      | Some h2 =>
          let first :=
            Hook.startPolling
              (Hook.pollOnce (Hook.mkJobRead "pending" None)
                             (Hook.onJobCreated "job-1" h2)) in
          Hook.startPolling
            (Hook.pollOnce (Hook.mkJobRead "pending" None)
                           (Hook.onJobCreated "job-2" first))
      | None => Hook.initial
      end
  | None => Hook.initial
  end.

End Vocabulary.

(** Closes a goal saying that updates of the React state keep the handles
    and resources. *)
Ltac resources :=
  cbv zeta;
  unfold Hook.sameResources, Hook.finalizeAssistant, Hook.appendAssistantChunk;
  repeat match goal with
         | |- context [match Hook.assistantIdRef ?x with _ => _ end] =>
             destruct (Hook.assistantIdRef x)
         end;
  repeat split; reflexivity.

(* ------------------------------------------------------------------ *)
(** ** The Jobs API calls around the subscription ([createJob], [readJob]) *)

Module Api.

(** What [readJob] resolves to. The casts of the source change no value:
    [status] is whatever the response holds under that key, or the text
    [unknown]. *)
Record JobRead : Type := mkJobRead {
  status : json;
  errorMessage : option json;
  finishedAt : option json
}.

(** [a ?? b], where [b] may itself be [undefined]. *)
Definition orElse (a b : option json) : option json :=
  match a with
  | None | Some JNull => b
  | Some _ => a
  end.

Section Calls.
Context `{Host}.

(** [readJob] from the point where the awaited [fetch] settles. The body is
    read before the status is looked at. *)
Definition readJob (r : Reply) : Outcome JobRead :=
  match r with
  | FetchRejected e => Throw e
  | Response _ (BodyRejected e) => Throw e
  | Response status (BodyText text) =>
      if negb (ok status)
      then Throw (PlainError ("Job read failed: " ++ Str.ofZ status
                              ++ " - " ++ text))
      else
        match (if Str.nonEmpty text then JSON_parse text else Some (JObj [])) with
        | None => Throw (SyntaxError (JSON_message text))
        | Some JNull => Throw (nullPropertyError "status")
        | Some data =>
            Return
              (mkJobRead
                 (Js.nullish (Js.prop data "status") (JStr "unknown"))
                 (orElse (Js.prop data "error-message")
                         (orElse (Js.prop data "error_message")
                                 (Js.prop data "errorMessage")))
                 (orElse (Js.prop data "finished-at")
                         (orElse (Js.prop data "finished_at")
                                 (Js.prop data "finishedAt"))))
        end
  end.

(** [createJob] from the point where the awaited [fetch] settles:
    [response.json()] is [JSON.parse] of the body. *)
Definition createJob (r : Reply) : Outcome json :=
  match r with
  | FetchRejected e => Throw e
  | Response _ (BodyRejected e) => Throw e
  | Response status (BodyText text) =>
      if negb (ok status)
      then Throw (PlainError ("Job creation failed: " ++ Str.ofZ status
                              ++ " - " ++ text))
      else
        match JSON_parse text with
        | None => Throw (SyntaxError (JSON_message text))
        | Some JNull => Throw (nullPropertyError "id")
        | Some result =>
            match Js.firstTruthy [ Js.prop result "id";
                                   Js.prop result "job-id";
                                   Js.prop result "job_id" ] with
            | Some jobId => Return jobId
            | None => Throw (PlainError "Job creation response missing job ID")
            end
        end
  end.

End Calls.

End Api.

(* ------------------------------------------------------------------ *)
(** ** The transcript helpers and the status poll of [useChatJobEvents] *)

Module Chat.

Record ChatMessage : Type := mkChatMessage {
  chat_role : Hook.Role;
  content : string
}.

Definition isTextPart (part : Hook.Part) : bool :=
  match part with
  | Hook.TextPart _ _ => true
  | Hook.OtherPart _ => false
  end.

Definition partText (part : Hook.Part) : string :=
  match part with
  | Hook.TextPart text _ => text
  | Hook.OtherPart _ => ""
  end.

Definition getMessageText (message : Hook.UIMessage) : string :=
  String.concat "" (map partText (filter isTextPart (Hook.parts message))).

Definition chatRole (r : Hook.Role) : bool :=
  match r with
  | Hook.RoleSystem | Hook.RoleUser | Hook.RoleAssistant => true
  end.

Definition asChatMessages (messages : list Hook.UIMessage) : list ChatMessage :=
  filter (fun message =>
            (0 <? String.length (Str.trim (content message)))%nat)
         (map (fun message =>
                 mkChatMessage (Hook.role message) (getMessageText message))
              (filter (fun message => chatRole (Hook.role message)) messages)).

(** The argument [submitPrompt] hands to [createChatJob]: the transcript so
    far and the new user message, as chat messages. *)
Definition chatMessages (prompt : string) (h : Hook.State) : list ChatMessage :=
  let trimmed := Str.trim prompt in
  let userMessage := Hook.buildUserMessage (Hook.nextId h) trimmed in
  let history := Hook.messages h ++ [userMessage] in
  asChatMessages history.

Definition isBusy (h : Hook.State) : bool :=
  match Hook.status h with
  | Hook.Submitting | Hook.Streaming => true
  | _ => false
  end.

(** [String(v)] on a value that came from JSON. *)
Fixpoint toString (v : json) : string :=
  match v with
  | JNull => "null"
  | JBool true => "true"
  | JBool false => "false"
  | JNum n => Str.ofZ n
  | JStr s => s
  | JArr l =>
      String.concat ","
        (map (fun x => match x with JNull => "" | _ => toString x end) l)
  | JObj _ => "[object Object]"
  end.

(** [String(job.status || '')]. *)
Definition statusText (v : json) : string :=
  if Js.truthy v then toString v else "".

(** [job.errorMessage] as the left operand of [||] in [pollOnce]: a text,
    to the left; nothing, to the left, when it is missing or falsy; and to
    the right a value that is truthy without being a text, which [setError]
    stores as it is. *)
Definition errorText (v : option json) : option string + json :=
  match v with
  | Some (JStr m) => inl (Some m)
  | Some v' => if Js.truthy v' then inr v' else inl None
  | None => inl None
  end.

(** What a run of the interval callback leaves: the state of the
    controller, or that state with a value that is not a text in its
    error field. *)
Inductive Ticked : Type :=
| Settled (h : Hook.State)
| SettledWith (error : json) (h : Hook.State).

Section Poll.
Context `{Host}.

(** One run of the interval callback, from the point where the [fetch] of
    [readJob] settles: [pollOnce], with its rejection handler. The error
    message of the job is read only when the status is one of the terminal
    errors. *)
Definition tick (r : Reply) (h : Hook.State) : Ticked :=
  match Api.readJob r with
  | Return job =>
      let status := statusText (Api.status job) in
      if Hook.has Hook.terminalError (Str.toLowerCase status)
      then match errorText (Api.errorMessage job) with
           | inl m => Settled (Hook.pollOnce (Hook.mkJobRead status m) h)
           | inr v =>
               SettledWith v (Hook.pollOnce (Hook.mkJobRead status None) h)
           end
      else Settled (Hook.pollOnce (Hook.mkJobRead status None) h)
  | Throw pollError => Settled (Hook.onPollError (err_message pollError) h)
  end.

End Poll.

End Chat.

(* ------------------------------------------------------------------ *)
(** ** Vocabulary of the further properties *)

(** The carriage return and line feed pair. *)
Definition CRLF : string := String Str.CR (String Str.LF EmptyString).

(** A line that sets a field read by [parseSseText]. *)
Definition fieldLine (line : string) : bool :=
  Str.startsWith "id:" line || Str.startsWith "data:" line.

(** The cursor is unset or holds a truthy value. *)
Definition cursorOk (s : Sub) : bool :=
  match lastSeqId s with
  | Some v => Js.truthy v
  | None => true
  end.

(** Whether a request carries no cursor or a truthy one. *)
Definition requestOk (o : Obs) : bool :=
  match o with
  | Fetch (Some v) => Js.truthy v
  | _ => true
  end.

(** A controller that holds no handle and has no timer active and no
    subscription loop running. *)
Definition released (h : Hook.State) : Prop :=
  Hook.abortRef h = None /\ Hook.pollRef h = None /\
  Hook.timers h = [] /\ Hook.allStopped (Hook.streams h) = true.

(** How many replies a script holds. *)
Definition replies (script : list Input) : nat :=
  List.length (filter (fun i => match i with Arrives _ => true | Cancel => false end)
                      script).

(** The cursor and every request issued so far are in order. *)
Definition cursorInvariant (s : Sub) : bool :=
  cursorOk s && forallb requestOk (trace s).

(** A computation of the subscription that keeps them in order. *)
Definition keeps {A} (c : M A) : Prop :=
  forall s, cursorInvariant s = true -> cursorInvariant (snd (c s)) = true.

(** Among the callbacks of a trace, no event comes before the first-connect
    notification. *)
Fixpoint connectFirst (t : list Obs) : bool :=
  match t with
  | [] => true
  | OnComplete :: _ => true
  | OnEvent _ :: _ => false
  | _ :: rest => connectFirst rest
  end.

Section Tokens.
Variable isChatTokenEvent : JobEvent -> bool.
Variable getChatTokenText : JobEvent -> string.

(** The text an event adds to the transcript, as [onEvent] of the
    controller decides: the token of a chat token event that is not the
    finishing one, when it is not empty. *)
Definition tokenOf (event : JobEvent) : option string :=
  if isChatTokenEvent event && negb (Js.truthy (finished event))
  then if Str.nonEmpty (getChatTokenText event)
       then Some (getChatTokenText event)
       else None
  else None.

Fixpoint tokensOf (evs : list JobEvent) : list string :=
  match evs with
  | [] => []
  | e :: rest =>
      match tokenOf e with
      | Some t => t :: tokensOf rest
      | None => tokensOf rest
      end
  end.

End Tokens.

(** The message [appendAssistantChunk] makes of a message when the
    assistant id is [a]. *)
Definition withChunk (a : nat) (chunk : string) (m : Hook.UIMessage)
  : Hook.UIMessage :=
  if negb (Hook.msg_id m =? a)%nat then m
  else Hook.mkUIMessage (Hook.msg_id m) (Hook.role m)
         [Hook.TextPart (Hook.firstText (Hook.parts m) ++ chunk)
                        Hook.PartStreaming].

(** Whether every text part of a message is done. *)
Definition allDone (m : Hook.UIMessage) : bool :=
  forallb (fun p => match p with
                    | Hook.TextPart _ Hook.PartStreaming => false
                    | _ => true
                    end) (Hook.parts m).

(** Two states with the same message ids, in the same order, and the same
    id counter. *)
Definition sameIds (h h' : Hook.State) : Prop :=
  map Hook.msg_id (Hook.messages h') = map Hook.msg_id (Hook.messages h) /\
  Hook.nextId h' = Hook.nextId h.

(** Every message id was produced by the id counter. *)
Definition idsBelow (h : Hook.State) : Prop :=
  Forall (fun m => Hook.msg_id m < Hook.nextId h) (Hook.messages h).

(** The sequence id an item of a JSON response carries, if any. *)
Definition seqIdOf (entry : json) : option json :=
  Js.firstTruthy [ Js.prop entry "SeqID"; Js.prop entry "seqId" ].

(** The sequence id of the last item that carries one. *)
Fixpoint lastSeqIdOf (items : list json) : option json :=
  match items with
  | [] => None
  | entry :: rest =>
      match lastSeqIdOf rest with
      | Some v => Some v
      | None => seqIdOf entry
      end
  end.

(* ------------------------------------------------------------------ *)
(** ** The single-request client

    The other [subscribeToJobEvents] of the sources: one request, whose
    reply is decoded as JSON and delivered, followed by [onComplete]. *)

Module OneShot.

Section OneShot.
Context `{Host}.

(** [c.catch(handler)], the handler receiving what was thrown. *)
Definition catch {A} (c : M A) (handler : JsError -> M A) : M A :=
  fun s =>
    match c s with
    | (Return a, s') => (Return a, s')
    | (Throw e, s') => handler e s'
    end.

(** [Array.isArray(data) ? data : (data.events || data.items || [data])],
    then the elements the loop enumerates. *)
Definition itemsOf (data : json) : M (list json) :=
  match data with
  | JNull => throw (nullPropertyError "events")
  | _ =>
      let events :=
        if Js.isArray data then data
        else match Js.firstTruthy [ Js.prop data "events";
                                    Js.prop data "items" ] with
             | Some v => v
             | None => JArr [data]
             end in
      match Js.iterate events with
      | Some l => ret l
      | None => throw (TypeError "events is not iterable")
      end
  end.

Definition stepIdOf (item : json) : option json :=
  Js.firstTruthy [ Js.prop item "step_id"; Js.prop item "stepId";
                   Js.prop item "step-id" ].

(** The body of the loop over the items. *)
Definition emitItem (item : json) : M unit :=
  match item with
  | JNull => throw (nullPropertyError "step_id")
  | _ =>
      let step_id := match stepIdOf item with
                     | Some v => v
                     | None => JStr "unknown"
                     end in
      let message := match Js.firstTruthy [ Js.prop item "message";
                                            Js.prop item "msg" ] with
                     | Some v => v
                     | None => JStr ""
                     end in
      let finished := Js.nullish (Js.prop item "finished") (JBool false) in
      timestamp <- match Js.firstTruthy [ Js.prop item "timestamp" ] with
                   | Some v => ret (DateOf v)
                   | None => now <- readClock ;; ret (DateAt now)
                   end ;;
      let type := getEventType (match stepIdOf item with
                                | Some v => v
                                | None => JStr ""
                                end) in
      onEvent (mkJobEvent step_id message finished timestamp type)
  end.

(** The [then] callback of the request, with the [catch] that follows. *)
Definition settle (r : Reply) : M unit :=
  catch
    (match r with
     | FetchRejected e => throw e
     | Response status body =>
         text <- readText body ;;
         if negb (ok status)
         then throw (PlainError ("Events request failed: " ++ Str.ofZ status
                                 ++ " - " ++ text))
         else tryCatch (data <- parseJson text ;;
                        items <- itemsOf data ;;
                        forOf emitItem items)
                       (ret tt) ;;;
              onComplete
     end)
    (fun err => if negb (err_name err =? "AbortError")
                then onError err
                else ret tt).

(** The request is issued at once; its reply settles the subscription, and
    so does a cancellation, which rejects the request with an
    [AbortError]. *)
Definition subscribeToJobEvents : Sub :=
  mkSub None false false true 0 [Fetch None].

Definition ended (s : Sub) : Sub :=
  mkSub (lastSeqId s) (hasConnected s) (aborted s) false
        (clockReads s) (trace s).

Definition step (s : Sub) (i : Input) : Sub :=
  if running s then
    match i with
    | Arrives r => ended (snd (settle r s))
    | Cancel => ended (snd (settle (FetchRejected AbortError) (abortSignal s)))
    end
  else
    match i with
    | Arrives _ => s
    | Cancel => abortSignal s
    end.

Definition run (s : Sub) (script : list Input) : Sub :=
  fold_left step script s.

End OneShot.

End OneShot.

(* ------------------------------------------------------------------ *)
(** ** Facts about strings and lines *)

Section StringFacts.

Lemma append_assoc (a b c : string) : ((a ++ b) ++ c = a ++ (b ++ c))%string.
Proof.
  induction a as [|x a IH]; simpl; [reflexivity | now rewrite IH].
Qed.

Lemma append_empty_r (a : string) : (a ++ "")%string = a.
Proof.
  induction a as [|x a IH]; simpl; [reflexivity | now rewrite IH].
Qed.

Lemma nonEmpty_true (s : string) : Str.nonEmpty s = true -> s <> "".
Proof.
  unfold Str.nonEmpty. destruct s; simpl; [discriminate | discriminate].
Qed.

Lemma nonEmpty_cons (c : ascii) (s : string) : Str.nonEmpty (String c s) = true.
Proof. reflexivity. Qed.

Lemma noBreak_cons (c : ascii) (s : string) :
  noBreak (String c s) = true ->
  Ascii.eqb c Str.LF = false /\ Ascii.eqb c Str.CR = false /\ noBreak s = true.
Proof.
  simpl. intros E.
  apply andb_true_iff in E as [E E3]. apply andb_true_iff in E as [E1 E2].
  apply negb_true_iff in E1. apply negb_true_iff in E2. auto.
Qed.

(** A text without line breaks is one line. *)
Lemma splitLines_single (s : string) :
  noBreak s = true -> Str.splitLines s = [s].
Proof.
  induction s as [|c s IH]; intros E; [reflexivity|].
  apply noBreak_cons in E as (E1 & E2 & E3).
  cbn [Str.splitLines]. rewrite E1.
  destruct s as [|d s']; [reflexivity|].
  rewrite E2. cbn [andb]. rewrite (IH E3). reflexivity.
Qed.

(** The first line of a text ends at its first line feed. *)
Lemma splitLines_line (a b : string) :
  noBreak a = true ->
  Str.splitLines (a ++ String Str.LF b) = a :: Str.splitLines b.
Proof.
  induction a as [|c a IH]; intros E.
  - reflexivity.
  - apply noBreak_cons in E as (E1 & E2 & E3).
    specialize (IH E3).
    cbn [append Str.splitLines]. rewrite E1.
    destruct a as [|d a'].
    + cbn [append] in *. rewrite E2. cbn [andb]. rewrite IH. reflexivity.
    + cbn [append] in *. rewrite E2. cbn [andb]. rewrite IH. reflexivity.
Qed.

Lemma trimStart_idempotent (s : string) :
  Str.trimStart (Str.trimStart s) = Str.trimStart s.
Proof.
  induction s as [|c s IH]; [reflexivity|].
  cbn [Str.trimStart]. destruct (Str.is_ws c) eqn:W; [exact IH|].
  cbn [Str.trimStart]. now rewrite W.
Qed.

Lemma trimEnd_cons (c : ascii) (s : string) :
  Str.trimEnd (String c s)
  = if (Str.trimEnd s =? "") && Str.is_ws c then ""
    else String c (Str.trimEnd s).
Proof.
  cbn [Str.trimEnd]. destruct (Str.trimEnd s); [|reflexivity].
  cbn. now destruct (Str.is_ws c).
Qed.

Lemma trimEnd_idempotent (s : string) :
  Str.trimEnd (Str.trimEnd s) = Str.trimEnd s.
Proof.
  induction s as [|c s IH]; [reflexivity|].
  rewrite trimEnd_cons.
  destruct ((Str.trimEnd s =? "") && Str.is_ws c) eqn:E; [reflexivity|].
  now rewrite trimEnd_cons, IH, E.
Qed.

(** Trimming the two ends in either order gives the same text. *)
Lemma trimStart_trimEnd (s : string) :
  Str.trimStart (Str.trimEnd s) = Str.trimEnd (Str.trimStart s).
Proof.
  induction s as [|c s IH]; [reflexivity|].
  rewrite trimEnd_cons. cbn [Str.trimStart].
  destruct (Str.is_ws c) eqn:W.
  - rewrite andb_true_r.
    destruct (Str.trimEnd s =? "") eqn:E.
    + apply String.eqb_eq in E. rewrite <- IH, E. reflexivity.
    + cbn [Str.trimStart]. rewrite W. exact IH.
  - rewrite andb_false_r. cbn [Str.trimStart]. rewrite W.
    rewrite trimEnd_cons, W, andb_false_r. reflexivity.
Qed.

Lemma trim_trimStart (s : string) : Str.trim (Str.trimStart s) = Str.trim s.
Proof. unfold Str.trim. now rewrite trimStart_idempotent. Qed.

Lemma trim_trimEnd (s : string) : Str.trim (Str.trimEnd s) = Str.trim s.
Proof.
  unfold Str.trim. now rewrite trimStart_trimEnd, trimEnd_idempotent.
Qed.

Lemma startsWith_app (p s : string) : Str.startsWith p (p ++ s) = true.
Proof.
  unfold Str.startsWith. induction p as [|c p IH]; cbn [append String.prefix].
  - now destruct s.
  - destruct (ascii_dec c c) as [_ | N]; [exact IH | now destruct N].
Qed.

Lemma noBreak_app (a b : string) :
  noBreak a = true -> noBreak b = true -> noBreak (a ++ b) = true.
Proof.
  induction a as [|c a IH]; intros Ea Eb; [exact Eb|].
  apply noBreak_cons in Ea as (E1 & E2 & E3).
  cbn [append noBreak]. rewrite E1, E2, (IH E3 Eb). reflexivity.
Qed.

End StringFacts.

(* ------------------------------------------------------------------ *)
(** ** Effects of the decoder *)

Section EffectFacts.
Context `{Host}.

Lemma applyEffect_noEffect (s : Sub) : applyEffect noEffect s = s.
Proof.
  destruct s. unfold applyEffect. simpl.
  now rewrite Nat.add_0_r, app_nil_r.
Qed.

Lemma applyEffect_seq (e1 e2 : Effect) (s : Sub) :
  applyEffect e2 (applyEffect e1 s) = applyEffect (seqEffect e1 e2) s.
Proof.
  unfold applyEffect, seqEffect. simpl.
  rewrite map_app, app_assoc, Nat.add_assoc.
  destruct (eff_cursor e2); reflexivity.
Qed.

Lemma related_ret {A} (R : A -> A -> Prop) (a1 a2 : A) :
  R a1 a2 -> related R (ret a1) (ret a2).
Proof.
  intros HR s1 s2. exists (Return a1), (Return a2), noEffect, noEffect.
  unfold ret. rewrite !applyEffect_noEffect. simpl. auto.
Qed.

Lemma related_throw {A} (R : A -> A -> Prop) (e : JsError) :
  related R (throw e) (throw e).
Proof.
  intros s1 s2. exists (Throw e), (Throw e), noEffect, noEffect.
  unfold throw. rewrite !applyEffect_noEffect. simpl. auto.
Qed.

Lemma seqEffect_agree (e1 e2 f1 f2 : Effect) :
  eff_cursor e1 = eff_cursor e2 ->
  map eraseClock (eff_events e1) = map eraseClock (eff_events e2) ->
  eff_cursor f1 = eff_cursor f2 ->
  map eraseClock (eff_events f1) = map eraseClock (eff_events f2) ->
  eff_cursor (seqEffect e1 f1) = eff_cursor (seqEffect e2 f2) /\
  map eraseClock (eff_events (seqEffect e1 f1))
  = map eraseClock (eff_events (seqEffect e2 f2)).
Proof.
  intros C1 E1 C2 E2. unfold seqEffect. simpl.
  rewrite !map_app, C1, C2, E1, E2. auto.
Qed.

Lemma related_bind {A B} (RA : A -> A -> Prop) (RB : B -> B -> Prop)
      (c1 c2 : M A) (k1 k2 : A -> M B) :
  related RA c1 c2 ->
  (forall a1 a2, RA a1 a2 -> related RB (k1 a1) (k2 a2)) ->
  related RB (bind c1 k1) (bind c2 k2).
Proof.
  intros Hc Hk s1 s2.
  destruct (Hc s1 s2) as (o1 & o2 & e1 & e2 & R1 & R2 & C & E & O).
  unfold bind. rewrite R1, R2.
  destruct o1 as [a1|x1], o2 as [a2|x2]; simpl in O; try contradiction.
  - destruct (Hk a1 a2 O (applyEffect e1 s1) (applyEffect e2 s2))
      as (p1 & p2 & f1 & f2 & Q1 & Q2 & C' & E' & O').
    exists p1, p2, (seqEffect e1 f1), (seqEffect e2 f2).
    rewrite Q1, Q2, !applyEffect_seq.
    destruct (seqEffect_agree e1 e2 f1 f2 C E C' E'). auto.
  - subst x2. exists (Throw x1), (Throw x1), e1, e2. simpl. auto.
Qed.

Lemma related_tryCatch {A} (R : A -> A -> Prop) (c1 c2 h1 h2 : M A) :
  related R c1 c2 -> related R h1 h2 ->
  related R (tryCatch c1 h1) (tryCatch c2 h2).
Proof.
  intros Hc Hh s1 s2.
  destruct (Hc s1 s2) as (o1 & o2 & e1 & e2 & R1 & R2 & C & E & O).
  unfold tryCatch. rewrite R1, R2.
  destruct o1 as [a1|x1], o2 as [a2|x2]; simpl in O; try contradiction.
  - exists (Return a1), (Return a2), e1, e2. simpl. auto.
  - destruct (Hh (applyEffect e1 s1) (applyEffect e2 s2))
      as (p1 & p2 & f1 & f2 & Q1 & Q2 & C' & E' & O').
    exists p1, p2, (seqEffect e1 f1), (seqEffect e2 f2).
    rewrite Q1, Q2, !applyEffect_seq.
    destruct (seqEffect_agree e1 e2 f1 f2 C E C' E'). auto.
Qed.

Lemma related_weaken {A} (R R' : A -> A -> Prop) (c1 c2 : M A) :
  (forall a1 a2, R a1 a2 -> R' a1 a2) -> related R c1 c2 -> related R' c1 c2.
Proof.
  intros HR Hc s1 s2.
  destruct (Hc s1 s2) as (o1 & o2 & e1 & e2 & R1 & R2 & C & E & O).
  exists o1, o2, e1, e2. repeat split; auto.
  destruct o1, o2; simpl in *; auto.
Qed.

Lemma related_readClock : related (fun _ _ => True) readClock readClock.
Proof.
  intros s1 s2.
  exists (Return (Date_now (clockReads s1))), (Return (Date_now (clockReads s2))),
         (mkEffect None 1 []), (mkEffect None 1 []).
  unfold readClock, applyEffect. simpl.
  rewrite !app_nil_r, !Nat.add_1_r. auto.
Qed.

Lemma related_onEvent (e1 e2 : JobEvent) :
  eraseClock e1 = eraseClock e2 -> related eq (onEvent e1) (onEvent e2).
Proof.
  intros E s1 s2.
  exists (Return tt), (Return tt), (mkEffect None 0 [e1]), (mkEffect None 0 [e2]).
  unfold onEvent, emit, applyEffect. simpl.
  rewrite !Nat.add_0_r, E. auto.
Qed.

Lemma related_setLastSeqId (v : json) :
  related eq (setLastSeqId v) (setLastSeqId v).
Proof.
  intros s1 s2.
  exists (Return tt), (Return tt), (mkEffect (Some v) 0 []), (mkEffect (Some v) 0 []).
  unfold setLastSeqId, applyEffect. simpl.
  rewrite !Nat.add_0_r, !app_nil_r. auto.
Qed.

Lemma related_timestampOf (record : json) (fallback : option json) :
  related (fun t1 t2 => eraseStamp t1 = eraseStamp t2)
          (timestampOf record fallback) (timestampOf record fallback).
Proof.
  unfold timestampOf.
  destruct (Js.firstTruthy _).
  - now apply related_ret.
  - eapply related_bind; [apply related_readClock|].
    intros a1 a2 _. now apply related_ret.
Qed.

Lemma related_eventOfRecord (record : json) (fallback : option json) :
  related sameButClock (eventOfRecord record fallback)
          (eventOfRecord record fallback).
Proof.
  assert (G : related sameButClock
                (ts <- timestampOf record fallback ;;
                 ret (Some (mkJobEvent (stepIdOf record fallback)
                                      (messageOf record) (finishedOf record) ts
                                      (getEventType (stepIdOf record fallback)))))
                (ts <- timestampOf record fallback ;;
                 ret (Some (mkJobEvent (stepIdOf record fallback)
                                      (messageOf record) (finishedOf record) ts
                                      (getEventType (stepIdOf record fallback)))))).
  { eapply related_bind; [apply related_timestampOf|].
    intros t1 t2 E. apply related_ret.
    unfold sameButClock, eraseClock. simpl. now rewrite E. }
  destruct record; try exact G.
  apply related_throw.
Qed.

Lemma related_parseEventPayload (payload fallback : option json) :
  related sameButClock (parseEventPayload payload fallback)
          (parseEventPayload payload fallback).
Proof.
  unfold parseEventPayload.
  destruct payload as [p|]; [|now apply related_ret].
  destruct p; try apply related_eventOfRecord; try now apply related_ret.
  destruct (negb _); [now apply related_ret|].
  destruct (JSON_parse _); [apply related_eventOfRecord|].
  eapply related_bind; [apply related_readClock|].
  intros a1 a2 _. now apply related_ret.
Qed.

Lemma related_deliver (a b : option JobEvent) :
  sameButClock a b -> related eq (deliver a) (deliver b).
Proof.
  unfold sameButClock, deliver. intros E.
  destruct a, b; simpl in E; try discriminate.
  - apply related_onEvent. congruence.
  - now apply related_ret.
Qed.

Lemma related_emitSseEntry (entry : SseEntry) :
  related eq (emitSseEntry entry) (emitSseEntry entry).
Proof.
  unfold emitSseEntry.
  eapply related_bind with (RA := eq).
  - destruct (if idTruthy _ then _ else _);
      [apply related_setLastSeqId | now apply related_ret].
  - intros _ _ _. eapply related_bind; [apply related_parseEventPayload|].
    intros a b E. now apply related_deliver.
Qed.

Lemma related_emitItem (entry : json) :
  related eq (emitItem entry) (emitItem entry).
Proof.
  assert (G : forall e : json,
             related eq
               (match Js.firstTruthy [Js.prop e "SeqID"; Js.prop e "seqId"] with
                | Some seqId => setLastSeqId seqId
                | None => ret tt
                end ;;;
                parsed <- parseEventPayload (Some (Js.nullish (Js.prop e "data") e))
                                            (Some e) ;;
                deliver parsed)
               (match Js.firstTruthy [Js.prop e "SeqID"; Js.prop e "seqId"] with
                | Some seqId => setLastSeqId seqId
                | None => ret tt
                end ;;;
                parsed <- parseEventPayload (Some (Js.nullish (Js.prop e "data") e))
                                            (Some e) ;;
                deliver parsed)).
  { intros e. eapply related_bind with (RA := eq).
    - destruct (Js.firstTruthy _);
        [apply related_setLastSeqId | now apply related_ret].
    - intros _ _ _. eapply related_bind; [apply related_parseEventPayload|].
      intros a b E. now apply related_deliver. }
  destruct entry; try apply G. apply related_throw.
Qed.

Lemma related_forOf {A} (body : A -> M unit) (l : list A) :
  (forall x, related eq (body x) (body x)) ->
  related eq (forOf body l) (forOf body l).
Proof.
  intros Hb. induction l as [|x l IH]; simpl.
  - now apply related_ret.
  - eapply related_bind; [apply Hb|]. intros _ _ _. exact IH.
Qed.

Lemma related_itemsOf (raw : json) : related eq (itemsOf raw) (itemsOf raw).
Proof.
  unfold itemsOf. destruct (Js.iterate _);
    [now apply related_ret | apply related_throw].
Qed.

Lemma related_emitItems (raw : json) :
  related eq (items <- itemsOf raw ;; forOf emitItem items)
             (items <- itemsOf raw ;; forOf emitItem items).
Proof.
  eapply related_bind; [apply related_itemsOf|].
  intros l ? <-. apply related_forOf, related_emitItem.
Qed.

(** The decoder is the same computation from any two states, up to the
    readings of the clock. *)
Lemma related_emitFromResponse (raw : json) :
  related eq (emitFromResponse raw) (emitFromResponse raw).
Proof.
  destruct raw; try apply (related_emitItems _).
  - now apply related_ret.
  - unfold emitFromResponse.
    destruct (negb _); [now apply related_ret|].
    destruct (looksLikeSse _).
    + apply related_forOf, related_emitSseEntry.
    + eapply related_bind; [apply related_parseEventPayload|].
      intros a b E. now apply related_deliver.
Qed.

(** From any state, a decoder computation only moves the cursor, reads the
    clock and delivers events. *)
Lemma effect_of_related {A} (R : A -> A -> Prop) (c : M A) (s : Sub) :
  related R c c -> exists o e, c s = (o, applyEffect e s).
Proof.
  intros Hc. destruct (Hc s s) as (o1 & _ & e1 & _ & R1 & _).
  now exists o1, e1.
Qed.

End EffectFacts.

(* ------------------------------------------------------------------ *)
(** ** The decoder on JSON arrays, and decoding twice *)

Section TraceFacts.

Lemma delivered_app (t1 t2 : list Obs) :
  delivered (t1 ++ t2) = delivered t1 ++ delivered t2.
Proof.
  induction t1 as [|o t1 IH]; [reflexivity|].
  destruct o; simpl; now rewrite IH.
Qed.

Lemma delivered_events (evs : list JobEvent) :
  delivered (map OnEvent evs) = evs.
Proof.
  induction evs as [|e evs IH]; simpl; [reflexivity | now rewrite IH].
Qed.

Lemma skipn_length_app {A} (l l' : list A) :
  skipn (List.length l) (l ++ l') = l'.
Proof.
  induction l as [|x l IH]; [reflexivity | exact IH].
Qed.

Lemma added_applyEffect (e : Effect) (s : Sub) :
  added s (applyEffect e s) = map OnEvent (eff_events e).
Proof.
  unfold added, applyEffect. simpl. apply skipn_length_app.
Qed.

End TraceFacts.

Section ArrayFacts.
Context `{Host}.

Lemma onEvent_effect (ev : JobEvent) (s : Sub) :
  onEvent ev s = (Return tt, applyEffect (mkEffect None 0 [ev]) s).
Proof.
  unfold onEvent, emit, applyEffect. simpl. now rewrite Nat.add_0_r.
Qed.

Lemma setLastSeqId_effect (v : json) (s : Sub) :
  setLastSeqId v s = (Return tt, applyEffect (mkEffect (Some v) 0 []) s).
Proof.
  unfold setLastSeqId, applyEffect. simpl. now rewrite Nat.add_0_r, app_nil_r.
Qed.

Lemma readClock_effect (s : Sub) :
  readClock s = (Return (Date_now (clockReads s)), applyEffect (advance 1) s).
Proof.
  unfold readClock, applyEffect. simpl. now rewrite Nat.add_1_r, app_nil_r.
Qed.

Lemma ret_effect {A} (a : A) (s : Sub) :
  ret a s = (Return a, applyEffect noEffect s).
Proof. unfold ret. now rewrite applyEffect_noEffect. Qed.

Lemma eventOfRecord_delivers (record : json) (fallback : option json) (s : Sub) :
  record <> JNull ->
  exists ev k,
    eventOfRecord record fallback s = (Return (Some ev), applyEffect (advance k) s).
Proof.
  intros NN.
  assert (G : exists ev k,
             (ts <- timestampOf record fallback ;;
              ret (Some (mkJobEvent (stepIdOf record fallback)
                                   (messageOf record) (finishedOf record) ts
                                   (getEventType (stepIdOf record fallback))))) s
             = (Return (Some ev), applyEffect (advance k) s)).
  { unfold bind, timestampOf.
    destruct (Js.firstTruthy _) as [v|].
    - eexists _, 0. unfold ret. change (advance 0) with noEffect.
      now rewrite applyEffect_noEffect.
    - eexists _, 1. unfold bind. rewrite readClock_effect. reflexivity. }
  destruct record; try exact G. contradiction.
Qed.

Lemma parseEventPayload_text_delivers (d : string) (fallback : option json)
      (s : Sub) :
  deliverableText d = true ->
  exists ev k,
    parseEventPayload (Some (JStr d)) fallback s
    = (Return (Some ev), applyEffect (advance k) s).
Proof.
  unfold deliverableText, parseEventPayload. intros E.
  apply andb_true_iff in E as [E1 E2]. rewrite E1. cbn [negb].
  destruct (JSON_parse (Str.trim d)) as [v|].
  - apply eventOfRecord_delivers. destruct v; try discriminate; congruence.
  - eexists _, 1. unfold bind. rewrite readClock_effect. reflexivity.
Qed.

Lemma parseEventPayload_item_delivers (entry : json) (s : Sub) :
  deliverableItem entry = true ->
  exists ev k,
    parseEventPayload (Some (payloadOf entry)) (Some entry) s
    = (Return (Some ev), applyEffect (advance k) s).
Proof.
  unfold deliverableItem. destruct entry as [| | | | |ms]; try discriminate.
  destruct (payloadOf (JObj ms)) as [| | |d| |] eqn:P; intros E.
  - exfalso. unfold payloadOf, Js.nullish in P.
    destruct (Js.prop (JObj ms) "data") as [[]|]; discriminate.
  - apply (eventOfRecord_delivers (JBool b)). discriminate.
  - apply (eventOfRecord_delivers (JNum n)). discriminate.
  - now apply parseEventPayload_text_delivers.
  - apply (eventOfRecord_delivers (JArr items)). discriminate.
  - apply (eventOfRecord_delivers (JObj members)). discriminate.
Qed.

Lemma emitItem_delivers (entry : json) (s : Sub) :
  deliverableItem entry = true ->
  exists ev e,
    emitItem entry s = (Return tt, applyEffect e s) /\
    eff_events e = [ev] /\ decodesItem entry ev.
Proof.
  intros D.
  assert (O : exists ms, entry = JObj ms).
  { destruct entry; try discriminate. now eexists. }
  destruct O as [ms ->].
  cbn [emitItem]. unfold bind at 1.
  set (c := Js.firstTruthy _).
  assert (C : exists e0, (match c with
                          | Some seqId => setLastSeqId seqId
                          | None => ret tt
                          end) s = (Return tt, applyEffect e0 s)
                         /\ eff_events e0 = []).
  { destruct c as [v|].
    - exists (mkEffect (Some v) 0 []). now rewrite setLastSeqId_effect.
    - exists noEffect. now rewrite ret_effect. }
  destruct C as (e0 & -> & E0).
  unfold bind.
  destruct (parseEventPayload_item_delivers (JObj ms) (applyEffect e0 s) D)
    as (ev & k & P).
  fold (payloadOf (JObj ms)). rewrite P.
  exists ev, (seqEffect (seqEffect e0 (advance k)) (mkEffect None 0 [ev])).
  split; [|split].
  - cbn [deliver].
    now rewrite onEvent_effect, (applyEffect_seq e0 (advance k)), applyEffect_seq.
  - simpl. now rewrite E0.
  - now exists (applyEffect e0 s), (applyEffect (advance k) (applyEffect e0 s)).
Qed.

Lemma forOf_emitItem_delivers (items : list json) (s : Sub) :
  forallb deliverableItem items = true ->
  exists e,
    forOf emitItem items s = (Return tt, applyEffect e s) /\
    Forall2 decodesItem items (eff_events e).
Proof.
  revert s. induction items as [|x items IH]; intros s D.
  - exists noEffect. simpl. unfold ret. rewrite applyEffect_noEffect.
    split; [reflexivity | constructor].
  - simpl in D. apply andb_true_iff in D as [Dx D].
    destruct (emitItem_delivers x s Dx) as (ev & e1 & R1 & E1 & Dec).
    destruct (IH (applyEffect e1 s) D) as (e2 & R2 & F).
    exists (seqEffect e1 e2). cbn [forOf]. unfold bind. rewrite R1, R2.
    rewrite applyEffect_seq. split; [reflexivity|].
    simpl. rewrite E1. now constructor.
Qed.

End ArrayFacts.

(** C1, as stated, fails: an item whose [data] member is an empty text is
    one element of the array, yet the decoder delivers no event for it. *)
Lemma array_item_with_blank_data_yields_no_event :
  let items := [JObj [("SeqID", JStr "7"); ("data", JStr "")]] in
  List.length items = 1 /\
  delivered (trace (snd (emitFromResponse (H := Ref.host) (JArr items)
                                          subscribeToJobEvents))) = [].
Proof. split; reflexivity. Qed.

(** C1 (amended). For every JSON array whose elements are objects, none
    carrying a [data] text that is blank or the JSON text of [null], the
    decoder returns normally and delivers through [onEvent] exactly one event
    per element, in the order of the elements: the k-th event delivered is
    what [parseEventPayload] makes of the k-th element. *)
Theorem array_elements_decoded_one_by_one_in_order `{Host} :
  forall (items : list json) (s : Sub),
    forallb deliverableItem items = true ->
    exists evs s',
      emitFromResponse (JArr items) s = (Return tt, s') /\
      trace s' = trace s ++ map OnEvent evs /\
      Forall2 decodesItem items evs.
Proof.
  intros items s D.
  destruct (forOf_emitItem_delivers items s D) as (e & R & F).
  exists (eff_events e), (applyEffect e s).
  cbn [emitFromResponse]. unfold bind, itemsOf. simpl. unfold ret.
  rewrite R. auto.
Qed.

Lemma array_elements_decoded_witness :
  let items :=
    [ JObj [("step_id", JStr "phase:research"); ("message", JStr "started")];
      JObj [("SeqID", JStr "8");
            ("data", JStr (Ref.q "{'step_id':'chat:token:1','message':'Hi'}"))] ] in
  forallb (deliverableItem (H := Ref.host)) items = true /\
  exists evs s',
    emitFromResponse (H := Ref.host) (JArr items) subscribeToJobEvents
    = (Return tt, s') /\
    trace s' = trace subscribeToJobEvents ++ map OnEvent evs /\
    Forall2 (decodesItem (H := Ref.host)) items evs.
Proof.
  split; [reflexivity|].
  apply (array_elements_decoded_one_by_one_in_order (H := Ref.host)).
  reflexivity.
Defined.

(** C4, as stated, fails: the plain text [hello] decoded twice in a row
    gives two events that differ, because each takes its timestamp from the
    wall clock at the time it is decoded. *)
Lemma decoding_twice_differs_in_fallback_timestamp :
  let s0 := subscribeToJobEvents in
  let s1 := snd (emitFromResponse (H := Ref.host) (JStr "hello") s0) in
  let s2 := snd (emitFromResponse (H := Ref.host) (JStr "hello") s1) in
  delivered (added s0 s1)
  = [rawTextEvent (H := Ref.host) "hello" 1700000000000] /\
  delivered (added s1 s2)
  = [rawTextEvent (H := Ref.host) "hello" 1700000001000] /\
  delivered (added s0 s1) <> delivered (added s1 s2).
Proof.
  split; [reflexivity|]. split; [reflexivity|].
  vm_compute. discriminate.
Qed.

(** C4 (amended). Decoding the same body from any two states of the
    subscription (any cursor, any trace so far, any time) ends the same way
    and delivers event sequences that are equal once the client-assigned
    fallback timestamps are blanked: the events agree in step id, message,
    finished flag, kind and payload-supplied timestamp. *)
Theorem decoding_twice_equal_up_to_fallback_timestamps `{Host} :
  forall (raw : json) (s1 s2 : Sub),
    map eraseClock (delivered (added s1 (snd (emitFromResponse raw s1))))
    = map eraseClock (delivered (added s2 (snd (emitFromResponse raw s2))))
    /\ sameOutcome eq (fst (emitFromResponse raw s1))
                      (fst (emitFromResponse raw s2)).
Proof.
  intros raw s1 s2.
  destruct (related_emitFromResponse raw s1 s2)
    as (o1 & o2 & e1 & e2 & R1 & R2 & _ & E & O).
  rewrite R1, R2. cbn [fst snd].
  rewrite !added_applyEffect, !delivered_events. auto.
Qed.
(* ------------------------------------------------------------------ *)
(** ** The decoder on Server-Sent-Events text *)

Section LineFacts.

(** The first line of a text is where the text starts. *)
Lemma splitLines_head (t : string) :
  exists l rest r, Str.splitLines t = l :: rest /\ t = (l ++ r)%string.
Proof.
  induction t as [|c t IH].
  - exists "", [], "". split; reflexivity.
  - cbn [Str.splitLines]. destruct (Ascii.eqb c Str.LF).
    + exists "", (Str.splitLines t), (String c t). split; reflexivity.
    + destruct t as [|d t].
      * exists (String c ""), [], "". split; reflexivity.
      * destruct (Ascii.eqb c Str.CR && Ascii.eqb d Str.LF).
        -- exists "", (Str.splitLines t), (String c (String d t)).
           split; reflexivity.
        -- destruct IH as (l & rest & r & E & Q). rewrite E.
           exists (String c l), rest, r. split; [reflexivity|].
           cbn [append]. now rewrite <- Q.
Qed.

(** A line that is not the first one follows a line feed. *)
Lemma splitLines_later (t : string) :
  forall pre l post,
    Str.splitLines t = pre ++ l :: post -> pre <> [] ->
    exists a r, t = (a ++ String Str.LF (l ++ r))%string.
Proof.
  assert (Next : forall u pre l post,
             (forall pre' l' post',
                 Str.splitLines u = pre' ++ l' :: post' -> pre' <> [] ->
                 exists a r, u = (a ++ String Str.LF (l' ++ r))%string) ->
             Str.splitLines u = pre ++ l :: post ->
             exists a r, String Str.LF u = (a ++ String Str.LF (l ++ r))%string).
  { intros u pre l post IH E. destruct pre as [|p pre].
    - destruct (splitLines_head u) as (l0 & rest & r & E0 & Q).
      rewrite E0 in E. cbn [app] in E. injection E as -> _.
      exists "", r. now rewrite Q.
    - destruct (IH (p :: pre) l post E ltac:(discriminate)) as (a & r & Q).
      exists (String Str.LF a), r. cbn [append]. now rewrite <- Q. }
  remember (String.length t) as n eqn:Len.
  assert (Le : String.length t <= n) by lia. clear Len.
  revert t Le. induction n as [|n IHn]; intros t Le pre l post E NE.
  { destruct t; [|cbn [String.length] in Le; lia].
    destruct pre as [|p [|q pre]]; [contradiction | discriminate..]. }
  assert (IH : forall u, String.length u < String.length t \/ String.length u <= n ->
             forall pre' l' post',
               Str.splitLines u = pre' ++ l' :: post' -> pre' <> [] ->
               exists a r, u = (a ++ String Str.LF (l' ++ r))%string).
  { intros u Lu. apply IHn. lia. }
  clear IHn.
  destruct pre as [|p pre]; [contradiction|]. clear NE.
  destruct t as [|c t]; [destruct pre; discriminate|].
  cbn [String.length] in Le.
  cbn [Str.splitLines] in E. destruct (Ascii.eqb c Str.LF) eqn:Ec.
  - apply Ascii.eqb_eq in Ec. subst c. cbn [app] in E. injection E as _ E.
    apply (Next t pre l post); [|exact E].
    intros pre' l' post'. apply IH. right. lia.
  - destruct t as [|d t]; [destruct pre; discriminate|].
    cbn [String.length] in Le.
    destruct (Ascii.eqb c Str.CR && Ascii.eqb d Str.LF) eqn:Ecd.
    + apply andb_true_iff in Ecd as [_ Ed]. apply Ascii.eqb_eq in Ed. subst d.
      cbn [app] in E. injection E as _ E.
      destruct (Next t pre l post) as (a & r & Q); [|exact E|].
      * intros pre' l' post'. apply IH. right. lia.
      * exists (String c a), r. cbn [append]. now rewrite <- Q.
    + destruct (splitLines_head (String d t)) as (l0 & rest & r0 & E0 & _).
      rewrite E0 in E. cbn [Str.cons_head app] in E. injection E as _ E.
      destruct (IH (String d t)) with (pre' := l0 :: pre) (l' := l) (post' := post)
        as (a & r & Q).
      * right. cbn [String.length]. lia.
      * rewrite E0, E. reflexivity.
      * discriminate.
      * exists (String c a), r. cbn [append]. now rewrite <- Q.
Qed.

Lemma prefix_app (p l r : string) :
  String.prefix p l = true -> String.prefix p (l ++ r) = true.
Proof.
  revert l. induction p as [|c p IH]; intros l E.
  - destruct (l ++ r)%string; reflexivity.
  - destruct l as [|d l]; [discriminate|].
    cbn [append String.prefix] in *.
    destruct (ascii_dec c d); [now apply IH | discriminate].
Qed.

Lemma includes_prefix (n s : string) :
  String.prefix n s = true -> Str.includes n s = true.
Proof. intros E. destruct s; cbn [Str.includes]; now rewrite E. Qed.

Lemma includes_app (n a b : string) :
  String.prefix n b = true -> Str.includes n (a ++ b) = true.
Proof.
  intros E. induction a as [|c a IH].
  - now apply includes_prefix.
  - cbn [append Str.includes]. rewrite IH. apply orb_true_r.
Qed.

(** A comment line is neither an [id:] line nor a [data:] line, and an
    [id:] line is no [data:] line. *)
Lemma comment_line (l : string) :
  Str.startsWith ":" l = true -> isIdLine l = false /\ isDataLine l = false.
Proof.
  unfold isIdLine, isDataLine, Str.startsWith.
  destruct l as [|c l]; [discriminate|]. cbn [String.prefix].
  destruct (ascii_dec ":" c) as [<-|]; [|discriminate].
  intros _. split; reflexivity.
Qed.

Lemma id_line (l : string) : isIdLine l = true -> isDataLine l = false.
Proof.
  unfold isIdLine, isDataLine, Str.startsWith.
  destruct l as [|c l]; [discriminate|]. cbn [String.prefix].
  destruct (ascii_dec "i" c) as [<-|]; [|discriminate].
  intros _. reflexivity.
Qed.

End LineFacts.

Section FrameFacts.

Lemma frameId_app (f g : list string) (l : string) :
  frameId (f ++ [l])
  = if isIdLine l then Some (Str.trim (Str.slice 3 l)) else frameId f.
Proof. unfold frameId. now rewrite fold_left_app. Qed.

Lemma frameDataLines_app (f : list string) (l : string) :
  frameDataLines (f ++ [l])
  = frameDataLines f
    ++ (if isDataLine l then [Str.trimStart (Str.slice 5 l)] else []).
Proof.
  unfold frameDataLines. rewrite filter_app, map_app. cbn [filter].
  now destruct (isDataLine l).
Qed.

Lemma hasData_lines (f : list string) :
  (0 <? List.length (frameDataLines f))%nat = hasData f.
Proof.
  unfold frameDataLines, hasData. induction f as [|l f IH]; [reflexivity|].
  cbn [filter existsb]. destruct (isDataLine l); [reflexivity | exact IH].
Qed.

Lemma no_data_lines (f : list string) :
  hasData f = false -> frameDataLines f = [].
Proof.
  intros E. rewrite <- hasData_lines in E.
  destruct (frameDataLines f); [reflexivity | discriminate].
Qed.

(** One line that is not empty extends the frame being read. *)
Lemma sseLine_frame (cur : list string) (evs : list SseEntry) (l : string) :
  (l =? "") = false ->
  sseLine (mkSseAcc evs (frameId cur) (frameDataLines cur)) l
  = mkSseAcc evs (frameId (cur ++ [l])) (frameDataLines (cur ++ [l])).
Proof.
  intros NE. unfold sseLine. rewrite NE, (frameId_app cur cur), frameDataLines_app.
  cbn [events currentId dataLines].
  fold (isIdLine l). fold (isDataLine l).
  destruct (Str.startsWith ":" l) eqn:C.
  - destruct (comment_line l C) as [-> ->]. now rewrite app_nil_r.
  - destruct (isIdLine l) eqn:I.
    + rewrite (id_line l I). now rewrite app_nil_r.
    + destruct (isDataLine l); [reflexivity | now rewrite app_nil_r].
Qed.

(** An empty line, or the end of the text, closes the frame being read. *)
Lemma pushEvent_frame (cur : list string) (evs : list SseEntry) :
  pushEvent (mkSseAcc evs (frameId cur) (frameDataLines cur))
  = mkSseAcc (evs ++ entryOf cur) None [].
Proof.
  unfold pushEvent, entryOf. cbn [events currentId dataLines].
  rewrite hasData_lines.
  destruct (idTruthy (frameId cur) || hasData cur);
    [reflexivity | now rewrite app_nil_r].
Qed.

Lemma sse_lines_accumulate (ls : list string) :
  forall (cur : list string) (evs : list SseEntry),
    pushEvent (fold_left sseLine ls
                         (mkSseAcc evs (frameId cur) (frameDataLines cur)))
    = mkSseAcc
        (evs ++ match blocks ls with
                | b :: bs => entryOf (cur ++ b) ++ flat_map entryOf bs
                | [] => entryOf cur
                end)
        None [].
Proof.
  induction ls as [|l ls IH]; intros cur evs.
  - cbn [fold_left blocks flat_map]. rewrite !app_nil_r.
    apply pushEvent_frame.
  - cbn [fold_left blocks]. destruct (l =? "") eqn:E.
    + apply String.eqb_eq in E. subst l.
      change (sseLine ?a "") with (pushEvent a).
      rewrite pushEvent_frame.
      change (mkSseAcc (evs ++ entryOf cur) None [])
        with (mkSseAcc (evs ++ entryOf cur) (frameId []) (frameDataLines [])).
      rewrite IH. rewrite app_nil_r, <- app_assoc. cbn [flat_map app].
      destruct (blocks ls) as [|b bs]; reflexivity.
    + rewrite (sseLine_frame cur evs l E), IH.
      destruct (blocks ls) as [|b bs].
      * cbn [flat_map]. now rewrite app_nil_r.
      * now rewrite <- app_assoc.
Qed.

Lemma entries_of_frames (bs : list (list string)) :
  flat_map entryOf (filter hasLines bs) = flat_map entryOf bs.
Proof.
  induction bs as [|b bs IH]; [reflexivity|].
  cbn [filter flat_map]. destruct b as [|l b]; cbn [hasLines].
  - exact IH.
  - cbn [flat_map]. now rewrite IH.
Qed.

(** The entries [parseSseText] reads off a text are those of its frames,
    in order. *)
Lemma parseSseText_frames (t : string) :
  parseSseText t = flat_map entryOf (framesOfLines (Str.splitLines t)).
Proof.
  unfold parseSseText, framesOfLines. rewrite entries_of_frames.
  change (mkSseAcc [] None []) with (mkSseAcc [] (frameId []) (frameDataLines [])).
  rewrite sse_lines_accumulate. cbn [events app].
  destruct (blocks (Str.splitLines t)); reflexivity.
Qed.

(** Every line of a block is one of the lines. *)
Lemma blocks_lines (ls : list string) :
  forall (b : list string) (l : string),
    In b (blocks ls) -> In l b -> In l ls.
Proof.
  induction ls as [|x ls IH]; intros b l Hb Hl.
  - cbn [blocks] in Hb. destruct Hb as [<- | []]. contradiction.
  - cbn [blocks] in Hb. destruct (x =? "").
    + destruct Hb as [<- | Hb]; [contradiction|].
      right. now apply (IH b).
    + destruct (blocks ls) as [|b0 bs] eqn:E.
      * destruct Hb as [<- | []]. destruct Hl as [<- | []]. now left.
      * destruct Hb as [<- | Hb].
        -- destruct Hl as [<- | Hl]; [now left|].
           right. apply (IH b0); [now left | exact Hl].
        -- right. apply (IH b); [now right | exact Hl].
Qed.

(** A text one of whose lines is a [data:] line passes the decoder's test
    for Server-Sent Events. *)
Lemma data_line_looks_like_sse (t ld : string) :
  In ld (Str.splitLines t) -> isDataLine ld = true -> looksLikeSse t = true.
Proof.
  intros I D. apply in_split in I as (pre & post & E).
  unfold looksLikeSse, isDataLine, Str.startsWith in *.
  destruct pre as [|p pre].
  - destruct (splitLines_head t) as (l0 & rest0 & r0 & S0 & T).
    rewrite E in S0. cbn [app] in S0. injection S0 as <- _.
    rewrite T, (prefix_app "data:" _ r0 D). now rewrite orb_true_r.
  - destruct (splitLines_later t (p :: pre) ld post E ltac:(discriminate))
      as (a & r1 & T).
    rewrite T, (includes_app (Str.NL ++ "data:") a); [apply orb_true_r|].
    change (Str.NL ++ "data:")%string with (String Str.LF "data:").
    cbn [String.prefix].
    destruct (ascii_dec Str.LF Str.LF); [|contradiction].
    apply prefix_app. exact D.
Qed.

(** A body one of whose frames holds a [data:] line is read as
    Server-Sent Events. *)
Lemma frames_look_like_sse (text : string) :
  existsb hasData (frames text) = true ->
  looksLikeSse (Str.trim text) = true.
Proof.
  intros D. apply existsb_exists in D as (f & If & D).
  unfold hasData in D. apply existsb_exists in D as (ld & Il & D).
  unfold frames, framesOfLines in If. apply filter_In in If as [If _].
  apply (data_line_looks_like_sse _ ld); [|exact D].
  now apply (blocks_lines _ f).
Qed.

Lemma blank_text_has_no_frame (text : string) :
  Str.nonEmpty (Str.trim text) = false -> frames text = [].
Proof.
  unfold Str.nonEmpty, frames. intros E. apply negb_false_iff in E.
  apply String.eqb_eq in E. rewrite E. reflexivity.
Qed.

End FrameFacts.

Section SseFacts.
Context `{Host}.

Lemma forOf_app {A} (body : A -> M unit) (a b : list A) (s : Sub) :
  forOf body (a ++ b) s
  = match forOf body a s with
    | (Return _, s') => forOf body b s'
    | (Throw x, s') => (Throw x, s')
    end.
Proof.
  revert s. induction a as [|x a IH]; intros s; [reflexivity|].
  cbn [app forOf]. unfold bind.
  destruct (body x s) as [[u | y] s1]; [apply IH | reflexivity].
Qed.

(** The payload parser rejects a blank text. *)
Lemma parseEventPayload_blank (d : string) (fallback : option json) (s : Sub) :
  Str.nonEmpty (Str.trim d) = false ->
  parseEventPayload (Some (JStr d)) fallback s = (Return None, s).
Proof. intros E. unfold parseEventPayload. now rewrite E. Qed.

Lemma idTruthy_frameSeq (f : list string) :
  (if idTruthy (frameId f) then frameId f else None) = frameSeq f.
Proof.
  unfold frameSeq, idTruthy. destruct (frameId f) as [i|]; [|reflexivity].
  now destruct (Str.nonEmpty i).
Qed.

Lemma seqEffect_noEffect (e : Effect) : seqEffect e noEffect = e.
Proof.
  destruct e. unfold seqEffect. simpl. now rewrite Nat.add_0_r, app_nil_r.
Qed.

(** The cursor effect of the id of a frame. *)
Lemma frame_cursor_effect (f : list string) (s : Sub) :
  match frameSeq f with
  | Some i => setLastSeqId (JStr i)
  | None => ret tt
  end s
  = (Return tt,
     applyEffect (mkEffect (option_map JStr (frameSeq f)) 0 []) s).
Proof.
  destruct (frameSeq f) as [i|]; cbn [option_map].
  - apply setLastSeqId_effect.
  - apply ret_effect.
Qed.

(** What the loop body does with the entry of one frame. *)
Lemma emitSseEntry_entry (f : list string) (s : Sub) :
  decodableFrame f = true ->
  exists e,
    emitSseEntry (mkSseEntry (frameId f) (frameData f)) s
    = (Return tt, applyEffect e s) /\
    eff_cursor e = option_map JStr (frameSeq f) /\
    Forall2 decodesFrame (filter carriesData [f]) (eff_events e).
Proof.
  unfold decodableFrame. intros D.
  unfold emitSseEntry. cbn [sse_id sse_data]. rewrite idTruthy_frameSeq.
  unfold bind at 1. rewrite frame_cursor_effect.
  set (s1 := applyEffect _ s). cbn [filter].
  destruct (carriesData f) eqn:Cd.
  - cbn [negb orb] in D.
    destruct (parseEventPayload_text_delivers
                (frameData f)
                (option_map (fun i => JObj [("SeqID", JStr i)]) (frameSeq f))
                s1 D)
      as (ev & k & P).
    unfold bind. rewrite P. cbn [deliver]. rewrite onEvent_effect.
    unfold s1. rewrite !applyEffect_seq.
    eexists. split; [reflexivity|]. split; [reflexivity|].
    cbn [seqEffect eff_events app]. constructor; [|constructor].
    eexists _, _. exact P.
  - unfold bind. rewrite (parseEventPayload_blank _ _ _ Cd). cbn [deliver].
    rewrite ret_effect. unfold s1. rewrite applyEffect_seq.
    eexists. split; [reflexivity|]. split; [reflexivity|]. constructor.
Qed.

Lemma forOf_entryOf (f : list string) (s : Sub) :
  decodableFrame f = true ->
  exists e,
    forOf emitSseEntry (entryOf f) s = (Return tt, applyEffect e s) /\
    eff_cursor e = option_map JStr (frameSeq f) /\
    Forall2 decodesFrame (filter carriesData [f]) (eff_events e).
Proof.
  intros D. unfold entryOf.
  destruct (idTruthy (frameId f) || hasData f) eqn:E.
  - destruct (emitSseEntry_entry f s D) as (e & R & C & F).
    exists e. cbn [forOf]. unfold bind. rewrite R.
    rewrite ret_effect, applyEffect_seq, seqEffect_noEffect. auto.
  - apply orb_false_iff in E as [Ei Ed].
    exists noEffect. cbn [forOf]. rewrite ret_effect.
    split; [reflexivity|]. split.
    + rewrite <- idTruthy_frameSeq, Ei. reflexivity.
    + cbn [filter]. unfold carriesData, frameData.
      rewrite (no_data_lines f Ed). constructor.
Qed.

Lemma filter_cons_app {A} (p : A -> bool) (x : A) (l : list A) :
  filter p (x :: l) = filter p [x] ++ filter p l.
Proof. simpl. destruct (p x); reflexivity. Qed.

(** The loop over the entries of frames none of which carries the JSON
    text of [null]: it returns, delivers the events of the frames whose
    data is not blank, and leaves the cursor at the last id that is not
    blank. *)
Lemma forOf_emitSseEntry_frames (fs : list (list string)) (s : Sub) :
  forallb decodableFrame fs = true ->
  exists e,
    forOf emitSseEntry (flat_map entryOf fs) s = (Return tt, applyEffect e s) /\
    eff_cursor e = option_map JStr (lastFrameSeq fs) /\
    Forall2 decodesFrame (filter carriesData fs) (eff_events e).
Proof.
  revert s. induction fs as [|f fs IH]; intros s W.
  - exists noEffect. cbn [flat_map forOf]. rewrite ret_effect.
    repeat split. constructor.
  - cbn [forallb] in W. apply andb_true_iff in W as [Wf W].
    destruct (forOf_entryOf f s Wf) as (e1 & R1 & C1 & F1).
    destruct (IH (applyEffect e1 s) W) as (e2 & R2 & C2 & F2).
    exists (seqEffect e1 e2).
    cbn [flat_map]. rewrite forOf_app, R1, R2, applyEffect_seq.
    split; [reflexivity|]. split.
    + unfold seqEffect. cbn [eff_cursor lastFrameSeq]. rewrite C2, C1.
      now destruct (lastFrameSeq fs).
    + rewrite (filter_cons_app carriesData f fs).
      unfold seqEffect. cbn [eff_events]. now apply Forall2_app.
Qed.

(** The decoder on a text it takes for Server-Sent Events. *)
Lemma emitFromResponse_sse (text : string) :
  Str.nonEmpty (Str.trim text) = true ->
  looksLikeSse (Str.trim text) = true ->
  emitFromResponse (JStr text)
  = forOf emitSseEntry (flat_map entryOf (frames text)).
Proof.
  intros NE L. cbn [emitFromResponse]. rewrite NE, L. cbn [negb].
  now rewrite parseSseText_frames.
Qed.

Lemma read_as_sse (text : string) :
  existsb hasData (frames text) = true \/ readAsSse text = true ->
  Str.nonEmpty (Str.trim text) = false \/ looksLikeSse (Str.trim text) = true.
Proof.
  intros [D | R].
  - right. now apply frames_look_like_sse.
  - unfold readAsSse in R. apply orb_true_iff in R as [R | R]; [left | now right].
    now apply negb_true_iff in R.
Qed.

Lemma emitFromResponse_frames (text : string) (s : Sub) :
  existsb hasData (frames text) = true \/ readAsSse text = true ->
  forallb decodableFrame (frames text) = true ->
  exists e,
    emitFromResponse (JStr text) s = (Return tt, applyEffect e s) /\
    eff_cursor e = option_map JStr (lastFrameSeq (frames text)) /\
    Forall2 decodesFrame (filter carriesData (frames text)) (eff_events e).
Proof.
  intros L W. apply read_as_sse in L.
  destruct (Str.nonEmpty (Str.trim text)) eqn:NE.
  - destruct L as [L | L]; [discriminate|].
    rewrite (emitFromResponse_sse text NE L).
    now apply forOf_emitSseEntry_frames.
  - exists noEffect. cbn [emitFromResponse]. rewrite NE. cbn [negb].
    rewrite ret_effect, (blank_text_has_no_frame text NE).
    repeat split. constructor.
Qed.

End SseFacts.
Section FrameCursor.

Lemma lastFrameSeq_app (fs gs : list (list string)) :
  lastFrameSeq (fs ++ gs)
  = match lastFrameSeq gs with
    | Some i => Some i
    | None => lastFrameSeq fs
    end.
Proof.
  induction fs as [|f fs IH]; cbn [app lastFrameSeq].
  - now destruct (lastFrameSeq gs).
  - rewrite IH. now destruct (lastFrameSeq gs).
Qed.

Lemma filter_all {A} (p : A -> bool) (l : list A) :
  forallb p l = true -> filter p l = l.
Proof.
  induction l as [|x l IH]; intros E; [reflexivity|].
  cbn [forallb] in E. apply andb_true_iff in E as [Ex E].
  cbn [filter]. rewrite Ex. now rewrite (IH E).
Qed.

End FrameCursor.

(** C2, as stated, fails. A body of two frames, each ending in a [data:]
    line, gives one event, because the first frame's data is empty and
    [parseEventPayload] rejects it. A frame whose data is the JSON text of
    [null] makes the decoder throw, so that it gives no event at all. And
    when the last frame has no [id:] line, the cursor is left at the id of
    an earlier frame. *)
Lemma sse_frame_with_empty_data_yields_no_event :
  let decode := fun lines : list string =>
                  emitFromResponse (H := Ref.host) (JStr (Str.joinLines lines))
                                   subscribeToJobEvents in
  let blank := [ "id: 1"; "data:"; "";
                 "id: 2"; Ref.q "data: {'step_id':'phase:a'}" ] in
  let null := [ "id: 1"; "data: null" ] in
  let noId := [ "id: 1"; "data: a"; ""; "data: b" ] in
  (frames (Str.joinLines blank)
   = [ ["id: 1"; "data:"];
       ["id: 2"; Ref.q "data: {'step_id':'phase:a'}"] ] /\
   forallb hasData (frames (Str.joinLines blank)) = true /\
   List.length (delivered (trace (snd (decode blank)))) = 1 /\
   lastSeqId (snd (decode blank)) = Some (JStr "2")) /\
  (frames (Str.joinLines null) = [["id: 1"; "data: null"]] /\
   fst (decode null)
   = Throw (TypeError "Cannot read properties of null (reading 'step_id')") /\
   delivered (trace (snd (decode null))) = []) /\
  (frames (Str.joinLines noId) = [["id: 1"; "data: a"]; ["data: b"]] /\
   fst (decode noId) = Return tt /\
   List.length (delivered (trace (snd (decode noId)))) = 2 /\
   lastSeqId (snd (decode noId)) = Some (JStr "1")).
Proof. repeat split; reflexivity. Qed.

(** C2 (amended). For every text body, whatever its line ends (LF or CRLF)
    and whatever the order and number of the [id:], [data:], comment and
    other lines of its frames (the runs of lines between blank lines, of
    the trimmed body): when some frame holds a [data:] line, or the body
    passes the decoder's test for Server-Sent Events anyway, and no frame
    has data (its [data:] values joined by line feeds) that is the JSON
    text of [null], the decoder returns normally and delivers through
    [onEvent] exactly one event for each frame whose data is not blank, in
    the order of the frames, each being the decoding of its frame's data:
    N events for N such frames, and for N frames when every frame is one.
    It leaves the cursor at the trimmed id of the last frame that has an id
    that is not blank (where it was, when no frame has one); so at the id
    of the last frame, when that has one. *)
Theorem sse_frames_decoded_and_cursor_at_last_id `{Host} :
  forall (text : string) (s : Sub),
    existsb hasData (frames text) = true \/ readAsSse text = true ->
    forallb decodableFrame (frames text) = true ->
    exists evs s',
      emitFromResponse (JStr text) s = (Return tt, s') /\
      trace s' = trace s ++ map OnEvent evs /\
      Forall2 decodesFrame (filter carriesData (frames text)) evs /\
      List.length evs = List.length (filter carriesData (frames text)) /\
      (forallb carriesData (frames text) = true ->
       Forall2 decodesFrame (frames text) evs /\
       List.length evs = List.length (frames text)) /\
      lastSeqId s' = match lastFrameSeq (frames text) with
                     | Some i => Some (JStr i)
                     | None => lastSeqId s
                     end /\
      (forall earlier f i,
          frames text = earlier ++ [f] -> frameSeq f = Some i ->
          lastSeqId s' = Some (JStr i)).
Proof.
  intros text s L Dk.
  destruct (emitFromResponse_frames text s L Dk) as (e & R & C & F).
  assert (Q : lastSeqId (applyEffect e s)
              = match lastFrameSeq (frames text) with
                | Some i => Some (JStr i)
                | None => lastSeqId s
                end).
  { unfold applyEffect. cbn [lastSeqId]. rewrite C.
    now destruct (lastFrameSeq (frames text)). }
  exists (eff_events e), (applyEffect e s).
  split; [exact R|]. split; [reflexivity|]. split; [exact F|].
  split; [symmetry; exact (Forall2_length F)|].
  split; [|split; [exact Q|]].
  - intros Dc. rewrite (filter_all _ _ Dc) in F.
    split; [exact F | symmetry; exact (Forall2_length F)].
  - intros earlier f i E Fi. rewrite Q, E, lastFrameSeq_app.
    cbn [lastFrameSeq]. now rewrite Fi.
Qed.

Lemma sse_frames_decoded_witness :
  let text :=
    String.concat CRLF
      [ "  "; ": stream opened"; "";
        "event: token"; "id: 41";
        Ref.q "data: {'step_id':'chat:token:1','message':'Hel'}";
        ""; "";
        "data: plain"; "data:text";
        "";
        "id: 7"; "";
        "data:"; "";
        "data: last"; "id:42 "; "retry: 10"; "  " ] in
  (existsb hasData (frames text) = true /\
   forallb (decodableFrame (H := Ref.host)) (frames text) = true) /\
  List.length (frames text) = 6 /\
  exists evs s',
    emitFromResponse (H := Ref.host) (JStr text) subscribeToJobEvents
    = (Return tt, s') /\
    trace s' = trace subscribeToJobEvents ++ map OnEvent evs /\
    Forall2 (decodesFrame (H := Ref.host)) (filter carriesData (frames text)) evs /\
    List.length evs = 3 /\
    lastSeqId s' = Some (JStr "42").
Proof.
  split; [split; reflexivity|]. split; [reflexivity|].
  destruct (sse_frames_decoded_and_cursor_at_last_id
              (H := Ref.host)
              (String.concat CRLF
                 [ "  "; ": stream opened"; "";
                   "event: token"; "id: 41";
                   Ref.q "data: {'step_id':'chat:token:1','message':'Hel'}";
                   ""; "";
                   "data: plain"; "data:text";
                   "";
                   "id: 7"; "";
                   "data:"; "";
                   "data: last"; "id:42 "; "retry: 10"; "  " ])
              subscribeToJobEvents (or_introl eq_refl) eq_refl)
    as (evs & s' & R & T & F & N & _ & C & _).
  exists evs, s'. repeat split; assumption.
Defined.

(** C10, as stated, fails. For an [id:] line whose value is blank, the
    parser makes no entry of a frame that holds only such a line, and the
    loop body would not take the empty id for a cursor either, so the
    cursor stays where it was. A body that neither starts with [id:] or
    [data:] nor holds a [data:] line after a line feed is not taken for
    Server-Sent Events: its id-only frame leaves the cursor unset, and the
    whole body is delivered as one event. And a frame whose data is the
    JSON text of [null] makes the decoder throw before it reaches the
    id-only frame after it. *)
Lemma blank_id_only_frame_leaves_the_cursor :
  let decode := fun lines : list string =>
                  emitFromResponse (H := Ref.host) (JStr (Str.joinLines lines))
                                   subscribeToJobEvents in
  let blank := ["id: 5"; "data: x"; ""; "id:   "; ""; ": end"] in
  let comment := [": ping"; "id: 5"] in
  let null := ["data: null"; ""; "id: 5"] in
  (frames (Str.joinLines blank) = [["id: 5"; "data: x"]; ["id:   "]; [": end"]] /\
   frameId ["id:   "] = Some "" /\
   entryOf ["id:   "] = [] /\
   lastSeqId (snd (decode blank)) = Some (JStr "5") /\
   parseSseText "id:" = [] /\
   lastSeqId (snd (decode ["id:"])) = None /\
   lastSeqId (snd (emitSseEntry (H := Ref.host) (mkSseEntry (Some "") "")
                                subscribeToJobEvents)) = None) /\
  (frames (Str.joinLines comment) = [[": ping"; "id: 5"]] /\
   looksLikeSse (Str.trim (Str.joinLines comment)) = false /\
   lastSeqId (snd (decode comment)) = None /\
   List.length (delivered (trace (snd (decode comment)))) = 1) /\
  (frames (Str.joinLines null) = [["data: null"]; ["id: 5"]] /\
   fst (decode null)
   = Throw (TypeError "Cannot read properties of null (reading 'step_id')") /\
   lastSeqId (snd (decode null)) = None).
Proof. repeat split; reflexivity. Qed.

(** C10 (amended). In every body the decoder takes for Server-Sent Events
    (it does when some frame holds a [data:] line, or the trimmed body
    starts with [id:]), whatever its line ends and its other frames, a
    frame without [data:] line whose [id:] value is not blank is read by
    [parseSseText] as an entry with that id and empty data; the payload
    parser rejects the empty data, so processing the entry moves the cursor
    to the id and delivers nothing. When the frames before it do not make
    the decoder throw, the decoder delivers their events, then sets the
    cursor to the id without a callback, and goes on with the frames after
    it from that state; when the frame is the last one, the decoder
    returns there, with the cursor at the id. *)
Theorem id_only_frame_moves_cursor_without_event `{Host} :
  forall (text : string) (before after : list (list string))
         (f : list string) (i : string) (s : Sub),
    existsb hasData (frames text) = true
    \/ looksLikeSse (Str.trim text) = true ->
    frames text = before ++ f :: after ->
    hasData f = false ->
    frameId f = Some i ->
    Str.nonEmpty i = true ->
    forallb decodableFrame before = true ->
    entryOf f = [mkSseEntry (Some i) ""] /\
    (forall fallback s0,
        parseEventPayload (Some (JStr "")) fallback s0 = (Return None, s0)) /\
    (forall s0,
        emitSseEntry (mkSseEntry (Some i) "") s0
        = (Return tt, applyEffect (mkEffect (Some (JStr i)) 0 []) s0)) /\
    exists evs s1 s2,
      forOf emitSseEntry (flat_map entryOf before) s = (Return tt, s1) /\
      trace s1 = trace s ++ map OnEvent evs /\
      Forall2 decodesFrame (filter carriesData before) evs /\
      forOf emitSseEntry (entryOf f) s1 = (Return tt, s2) /\
      trace s2 = trace s1 /\
      lastSeqId s2 = Some (JStr i) /\
      emitFromResponse (JStr text) s
      = forOf emitSseEntry (flat_map entryOf after) s2 /\
      (after = [] -> emitFromResponse (JStr text) s = (Return tt, s2)) /\
      (forallb decodableFrame after = true ->
       exists evs' s',
         emitFromResponse (JStr text) s = (Return tt, s') /\
         trace s' = trace s ++ map OnEvent (evs ++ evs') /\
         Forall2 decodesFrame (filter carriesData after) evs' /\
         lastSeqId s' = Some (JStr match lastFrameSeq after with
                                   | Some j => j
                                   | None => i
                                   end)).
Proof.
  intros text before after f i s L0 Fr Nd Fi Ti Wb.
  assert (L : looksLikeSse (Str.trim text) = true).
  { destruct L0 as [D | L]; [now apply frames_look_like_sse | exact L]. }
  clear L0.
  assert (Ef : entryOf f = [mkSseEntry (Some i) ""]).
  { unfold entryOf, frameData. rewrite Fi, (no_data_lines f Nd).
    cbn [idTruthy]. rewrite Ti. reflexivity. }
  assert (Pb : forall fallback s0,
             parseEventPayload (Some (JStr "")) fallback s0 = (Return None, s0)).
  { intros fallback s0. now apply parseEventPayload_blank. }
  assert (Em : forall s0,
             emitSseEntry (mkSseEntry (Some i) "") s0
             = (Return tt, applyEffect (mkEffect (Some (JStr i)) 0 []) s0)).
  { intros s0. unfold emitSseEntry. cbn [sse_id sse_data idTruthy].
    rewrite Ti. cbn [option_map]. unfold bind.
    now rewrite setLastSeqId_effect, Pb. }
  split; [exact Ef|]. split; [exact Pb|]. split; [exact Em|].
  assert (NE : Str.nonEmpty (Str.trim text) = true).
  { destruct (Str.nonEmpty (Str.trim text)) eqn:NE; [reflexivity|].
    rewrite (blank_text_has_no_frame text NE) in Fr.
    destruct before; discriminate. }
  destruct (forOf_emitSseEntry_frames before s Wb) as (e1 & R1 & C1 & F1).
  set (s1 := applyEffect e1 s) in *.
  set (s2 := applyEffect (mkEffect (Some (JStr i)) 0 []) s1).
  assert (Rf : forOf emitSseEntry (entryOf f) s1 = (Return tt, s2)).
  { rewrite Ef. cbn [forOf]. unfold bind. now rewrite Em. }
  assert (Rest : emitFromResponse (JStr text) s
                 = forOf emitSseEntry (flat_map entryOf after) s2).
  { rewrite (emitFromResponse_sse text NE L), Fr, flat_map_app, forOf_app, R1.
    cbn [flat_map]. now rewrite forOf_app, Rf. }
  assert (T2 : trace s2 = trace s1).
  { unfold s2, applyEffect. cbn [trace eff_events map]. apply app_nil_r. }
  exists (eff_events e1), s1, s2.
  split; [exact R1|]. split; [reflexivity|]. split; [exact F1|].
  split; [exact Rf|]. split; [exact T2|]. split; [reflexivity|].
  split; [exact Rest|]. split.
  - intros ->. exact Rest.
  - intros Wa.
    destruct (forOf_emitSseEntry_frames after s2 Wa) as (e2 & R2 & C2 & F2).
    exists (eff_events e2), (applyEffect e2 s2).
    split; [now rewrite Rest|]. split; [|split; [exact F2|]].
    + unfold applyEffect at 1. cbn [trace]. rewrite T2.
      unfold s1, applyEffect. cbn [trace]. now rewrite map_app, app_assoc.
    + unfold applyEffect at 1. cbn [lastSeqId]. rewrite C2.
      now destruct (lastFrameSeq after).
Qed.

Lemma id_only_frame_witness :
  let text :=
    String.concat CRLF
      [ "id: 41"; Ref.q "data: {'step_id':'chat:token:1','message':'Hel'}";
        ""; ": keep-alive"; "id: 42 "; "" ] in
  let before :=
    [ ["id: 41"; Ref.q "data: {'step_id':'chat:token:1','message':'Hel'}"] ] in
  let f := [": keep-alive"; "id: 42"] in
  (existsb hasData (frames text) = true /\
   frames text = before ++ f :: [] /\
   hasData f = false /\
   frameId f = Some "42" /\
   Str.nonEmpty "42" = true /\
   forallb (decodableFrame (H := Ref.host)) before = true) /\
  entryOf f = [mkSseEntry (Some "42") ""] /\
  exists evs s1 s2,
    forOf (emitSseEntry (H := Ref.host)) (flat_map entryOf before)
          subscribeToJobEvents = (Return tt, s1) /\
    trace s1 = trace subscribeToJobEvents ++ map OnEvent evs /\
    Forall2 (decodesFrame (H := Ref.host)) (filter carriesData before) evs /\
    forOf (emitSseEntry (H := Ref.host)) (entryOf f) s1 = (Return tt, s2) /\
    trace s2 = trace s1 /\
    lastSeqId s2 = Some (JStr "42") /\
    emitFromResponse (H := Ref.host) (JStr text) subscribeToJobEvents
    = (Return tt, s2).
Proof.
  split; [repeat split; reflexivity|].
  destruct (id_only_frame_moves_cursor_without_event
              (H := Ref.host)
              (String.concat CRLF
                 [ "id: 41";
                   Ref.q "data: {'step_id':'chat:token:1','message':'Hel'}";
                   ""; ": keep-alive"; "id: 42 "; "" ])
              [ ["id: 41";
                 Ref.q "data: {'step_id':'chat:token:1','message':'Hel'}"] ]
              [] [": keep-alive"; "id: 42"] "42" subscribeToJobEvents
              (or_introl eq_refl) eq_refl eq_refl eq_refl eq_refl eq_refl)
    as (Ef & _ & _ & evs & s1 & s2 & R1 & T1 & F1 & Rf & T2 & C2 & _ & Last & _).
  split; [exact Ef|].
  exists evs, s1, s2. repeat split; auto.
Defined.

(* ------------------------------------------------------------------ *)
(** ** The subscription loop *)

Section LoopFacts.
Context `{Host}.

Lemma connects_app (t1 t2 : list Obs) :
  connects (t1 ++ t2) = connects t1 + connects t2.
Proof.
  induction t1 as [|o t1 IH]; [reflexivity|].
  destruct o; simpl; now rewrite IH.
Qed.

Lemma errors_app (t1 t2 : list Obs) : errors (t1 ++ t2) = errors t1 ++ errors t2.
Proof.
  induction t1 as [|o t1 IH]; [reflexivity|].
  destruct o; simpl; now rewrite IH.
Qed.

Lemma fetches_app (t1 t2 : list Obs) :
  fetches (t1 ++ t2) = fetches t1 + fetches t2.
Proof.
  induction t1 as [|o t1 IH]; [reflexivity|].
  destruct o; simpl; now rewrite IH.
Qed.

Lemma events_only (evs : list JobEvent) :
  connects (map OnEvent evs) = 0 /\ errors (map OnEvent evs) = []
  /\ fetches (map OnEvent evs) = 0.
Proof. induction evs as [|e evs IH]; simpl; auto. Qed.

Lemma markConnected_spec (s : Sub) :
  markConnected s = (Return tt, connectedState s) /\
  hasConnected (connectedState s) = true /\
  aborted (connectedState s) = aborted s /\
  running (connectedState s) = running s /\
  lastSeqId (connectedState s) = lastSeqId s /\
  trace (connectedState s)
  = trace s ++ (if hasConnected s then [] else [OnComplete]).
Proof.
  unfold connectedState, markConnected.
  destruct (hasConnected s) eqn:E; cbn.
  - rewrite E, app_nil_r. auto 6.
  - auto 6.
Qed.

(** The loop body changes the subscription by at most one first-connect
    notification, followed by the effect of the decoder. *)
Lemma pollBody_shape (r : Reply) (s : Sub) :
  exists o e,
    pollBody r s = (o, applyEffect e s) \/
    pollBody r s = (o, applyEffect e (connectedState s)).
Proof.
  destruct (markConnected_spec s) as (MC & _).
  destruct r as [x | status body]; cbn [pollBody].
  - exists (Throw x), noEffect. left. unfold throw.
    now rewrite applyEffect_noEffect.
  - destruct (status =? 204)%Z.
    + exists (Return tt), noEffect. right.
      now rewrite MC, applyEffect_noEffect.
    + destruct (negb (ok status) && negb (status =? 101)%Z).
      * destruct body as [text | x]; eexists _, noEffect; left;
          unfold bind, readText, ret, throw;
          rewrite applyEffect_noEffect; reflexivity.
      * destruct body as [text | x]; unfold bind, readText, ret, throw;
          rewrite MC; cbv beta iota.
        -- destruct (negb (Str.nonEmpty (Str.trim text))).
           ++ exists (Return tt), noEffect. right.
              now rewrite applyEffect_noEffect.
           ++ assert (R : related eq
                            (tryCatch (v <- parseJson text ;; emitFromResponse v)
                                      (emitFromResponse (JStr text)))
                            (tryCatch (v <- parseJson text ;; emitFromResponse v)
                                      (emitFromResponse (JStr text)))).
              { apply related_tryCatch; [|apply related_emitFromResponse].
                eapply related_bind with (RA := eq).
                - unfold parseJson. destruct (JSON_parse text);
                    [now apply related_ret | apply related_throw].
                - intros v ? <-. apply related_emitFromResponse. }
              destruct (effect_of_related eq _ (connectedState s) R)
                as (o & e & Q).
              exists o, e. right. exact Q.
        -- exists (Throw x), noEffect. right.
           now rewrite applyEffect_noEffect.
Qed.

Lemma applyEffect_fields (e : Effect) (s : Sub) :
  hasConnected (applyEffect e s) = hasConnected s /\
  aborted (applyEffect e s) = aborted s /\
  running (applyEffect e s) = running s /\
  connects (trace (applyEffect e s)) = connects (trace s) /\
  errors (trace (applyEffect e s)) = errors (trace s) /\
  fetches (trace (applyEffect e s)) = fetches (trace s).
Proof.
  destruct (events_only (eff_events e)) as (C & E & F).
  unfold applyEffect. cbn.
  rewrite connects_app, errors_app, fetches_app, C, E, F.
  now rewrite !Nat.add_0_r, app_nil_r.
Qed.

(** What the loop body leaves unchanged, and what it may add. *)
Lemma pollBody_fields (r : Reply) (s : Sub) :
  let s' := snd (pollBody r s) in
  aborted s' = aborted s /\
  running s' = running s /\
  errors (trace s') = errors (trace s) /\
  fetches (trace s') = fetches (trace s) /\
  connects (trace s') + (if hasConnected s then 1 else 0)
  = connects (trace s) + (if hasConnected s' then 1 else 0).
Proof.
  cbn zeta.
  destruct (pollBody_shape r s) as (o & e & [Q | Q]); rewrite Q; cbn [snd];
    destruct (applyEffect_fields e s) as (A1 & A2 & A3 & A4 & A5 & A6);
    destruct (applyEffect_fields e (connectedState s))
      as (B1 & B2 & B3 & B4 & B5 & B6);
    destruct (markConnected_spec s) as (_ & M1 & M2 & M3 & _ & M5).
  - rewrite A1, A2, A3, A4, A5, A6. auto.
  - rewrite B1, B2, B3, B4, B5, B6, M1, M2, M3, M5.
    rewrite connects_app, errors_app, fetches_app.
    destruct (hasConnected s); cbn; repeat split; auto using app_nil_r; lia.
Qed.

Lemma pollHead_fields (s : Sub) :
  let s' := snd (pollHead s) in
  hasConnected s' = hasConnected s /\
  errors (trace s') = errors (trace s) /\
  connects (trace s') = connects (trace s).
Proof.
  unfold pollHead. destruct (aborted s); cbn.
  - auto.
  - rewrite errors_app, connects_app. cbn. now rewrite app_nil_r, Nat.add_0_r.
Qed.

Lemma pollCatch_fields (x : JsError) (s : Sub) :
  let s' := snd (pollCatch x s) in
  running s' = false /\
  hasConnected s' = hasConnected s /\
  fetches (trace s') = fetches (trace s) /\
  connects (trace s') = connects (trace s).
Proof.
  unfold pollCatch. destruct (negb _); cbn.
  - rewrite fetches_app, connects_app. cbn. now rewrite !Nat.add_0_r.
  - auto.
Qed.

Lemma step_connectInvariant (s : Sub) (i : Input) :
  connectInvariant s -> connectInvariant (step s i).
Proof.
  unfold connectInvariant, step. intros I.
  destruct (running s).
  - destruct i as [r |].
    + pose proof (pollBody_fields r s) as (_ & _ & _ & _ & C). cbn zeta in C.
      destruct (pollBody r s) as [[u | x] s1]; cbn [snd] in *.
      * destruct (pollHead_fields s1) as (P1 & _ & P3). cbn zeta in *.
        rewrite P1, P3.
        destruct (hasConnected s), (hasConnected s1); lia.
      * destruct (pollCatch_fields x s1) as (_ & P1 & _ & P3). cbn zeta in *.
        rewrite P1, P3.
        destruct (hasConnected s), (hasConnected s1); lia.
    + destruct (pollCatch_fields AbortError (abortSignal s)) as (_ & P1 & _ & P3).
      cbn zeta in *. rewrite P1, P3. exact I.
  - destruct i; [exact I | exact I].
Qed.

Lemma run_connectInvariant (script : list Input) (s : Sub) :
  connectInvariant s -> connectInvariant (run s script).
Proof.
  revert s. induction script as [|i script IH]; intros s I; [exact I|].
  apply IH, step_connectInvariant, I.
Qed.

(** Once the loop has ended, nothing is requested or called back. *)
Lemma step_stopped (s : Sub) (i : Input) :
  running s = false ->
  running (step s i) = false /\ trace (step s i) = trace s.
Proof.
  unfold step. intros R. rewrite R. destruct i; cbn; auto.
Qed.

Lemma run_stopped (script : list Input) (s : Sub) :
  running s = false ->
  running (run s script) = false /\ trace (run s script) = trace s.
Proof.
  revert s. induction script as [|i script IH]; intros s R; [auto|].
  destruct (step_stopped s i R) as [R' T].
  destruct (IH (step s i) R') as [R'' T'].
  cbn [run fold_left]. unfold run in *. now rewrite T', T.
Qed.

(** While the loop runs, the fatal-error callback has not been called. *)
Lemma step_no_error_while_running (s : Sub) (i : Input) :
  (running s = true -> errors (trace s) = []) ->
  running (step s i) = true -> errors (trace (step s i)) = [].
Proof.
  unfold step. intros I.
  destruct (running s) eqn:R.
  - specialize (I eq_refl). destruct i as [r |].
    + pose proof (pollBody_fields r s) as (_ & _ & E & _). cbn zeta in E.
      destruct (pollBody r s) as [[u | x] s1]; cbn [snd] in *.
      * destruct (pollHead_fields s1) as (_ & P2 & _). cbn zeta in *.
        intros _. now rewrite P2, E.
      * destruct (pollCatch_fields x s1) as (P & _). cbn zeta in P.
        rewrite P. discriminate.
    + destruct (pollCatch_fields AbortError (abortSignal s)) as (P & _).
      cbn zeta in P. rewrite P. discriminate.
  - destruct i; cbn; rewrite R; discriminate.
Qed.

Lemma run_no_error_while_running (script : list Input) (s : Sub) :
  (running s = true -> errors (trace s) = []) ->
  running (run s script) = true -> errors (trace (run s script)) = [].
Proof.
  revert s. induction script as [|i script IH]; intros s I; [exact I|].
  apply IH, step_no_error_while_running, I.
Qed.

(** The loop body on a status that is neither a success, nor 101. *)
Lemma pollBody_bad_status (status : Z) (text : string) (s : Sub) :
  ok status = false -> status <> 101%Z ->
  pollBody (Response status (BodyText text)) s
  = (Throw (PlainError ("Events request failed: " ++ Str.ofZ status
                        ++ " - " ++ text)), s).
Proof.
  intros O N. cbn [pollBody].
  assert (E1 : (status =? 204)%Z = false).
  { apply Z.eqb_neq. intros ->. discriminate. }
  assert (E2 : (status =? 101)%Z = false) by now apply Z.eqb_neq.
  rewrite E1, O, E2. reflexivity.
Qed.

End LoopFacts.

(** C6. Over the whole life of a subscription, whatever is received and
    whenever it is cancelled, the first-connect callback is invoked at most
    once. In particular, when a 204 is followed by a 200 whose body is a JSON
    array of two event records, the callback fires once, on the 204, and the
    two events are delivered in array order before the next request. *)
Theorem first_connect_fires_at_most_once `{Host} :
  (forall script : list Input,
      connects (trace (run subscribeToJobEvents script)) <= 1) /\
  (forall (noContent : BodyRead) (text : string) (a b : json),
      Str.nonEmpty (Str.trim text) = true ->
      JSON_parse text = Some (JArr [a; b]) ->
      deliverableItem a = true ->
      deliverableItem b = true ->
      exists ea eb cursor,
        trace (run subscribeToJobEvents
                   [ Arrives (Response 204 noContent);
                     Arrives (Response 200 (BodyText text)) ])
        = [ Fetch None; OnComplete; Fetch None;
            OnEvent ea; OnEvent eb; Fetch cursor ] /\
        decodesItem a ea /\ decodesItem b eb).
Proof.
  split.
  - intros script.
    assert (I : connectInvariant (run subscribeToJobEvents script)).
    { apply run_connectInvariant. reflexivity. }
    unfold connectInvariant in I. rewrite I.
    destruct (hasConnected _); lia.
  - intros noContent text a b NB P Da Db.
    set (s1 := mkSub None true false true 0 [Fetch None; OnComplete; Fetch None]).
    assert (D : forallb deliverableItem [a; b] = true).
    { cbn [forallb]. now rewrite Da, Db. }
    destruct (forOf_emitItem_delivers [a; b] s1 D) as (e & R & F).
    inversion F as [|? ea ? l' Dea F' E1 E2]; subst.
    inversion F' as [|? eb ? l'' Deb F'' E1' E2']; subst.
    inversion F''; subst.
    exists ea, eb, (lastSeqId (applyEffect e s1)).
    split; [|auto].
    cbn [run fold_left]. unfold step at 2. cbn.
    unfold step. cbn [running]. cbn [pollBody]. cbn.
    unfold bind, readText, ret. rewrite NB. cbn [negb].
    unfold tryCatch, bind, parseJson. rewrite P. unfold ret.
    cbn [emitFromResponse]. unfold bind, itemsOf. cbn [Js.isArray Js.iterate].
    unfold ret. fold s1. rewrite R.
    unfold pollHead, applyEffect. cbn.
    rewrite <- E2. reflexivity.
Qed.

Lemma first_connect_witness :
  let text := Ref.q "[{'step_id':'phase:a','message':'m1'},{'step_id':'phase:a','finished':true,'SeqID':'12'}]" in
  let a := JObj [("step_id", JStr "phase:a"); ("message", JStr "m1")] in
  let b := JObj [("step_id", JStr "phase:a"); ("finished", JBool true);
                 ("SeqID", JStr "12")] in
  (Str.nonEmpty (Str.trim text) = true /\
   JSON_parse (Host := Ref.host) text = Some (JArr [a; b]) /\
   deliverableItem (H := Ref.host) a = true /\
   deliverableItem (H := Ref.host) b = true) /\
  exists ea eb cursor,
    trace (run (H := Ref.host) subscribeToJobEvents
               [ Arrives (Response 204 (BodyText ""));
                 Arrives (Response 200 (BodyText text)) ])
    = [ Fetch None; OnComplete; Fetch None;
        OnEvent ea; OnEvent eb; Fetch cursor ] /\
    decodesItem (H := Ref.host) a ea /\ decodesItem (H := Ref.host) b eb.
Proof.
  split; [repeat split; reflexivity|].
  apply (proj2 (first_connect_fires_at_most_once (H := Ref.host)));
    reflexivity.
Defined.

(** C7. When a poll is answered with a status that is neither 2xx nor 101
    (so not 204 either) and the body text is read, the loop builds the error
    [Events request failed: <status> - <body>], hands it to the fatal-error
    callback, and ends: whatever happens afterwards, that is the only call of
    the callback and no further request is issued. *)
Theorem bad_status_is_fatal_once_and_stops_polling `{Host} :
  forall (before after : list Input) (status : Z) (text : string),
    running (run subscribeToJobEvents before) = true ->
    ok status = false ->
    status <> 101%Z ->
    let s := run subscribeToJobEvents before in
    let s' := run s (Arrives (Response status (BodyText text)) :: after) in
    let failure :=
      PlainError ("Events request failed: " ++ Str.ofZ status ++ " - " ++ text) in
    trace s' = trace s ++ [OnError failure] /\
    errors (trace s') = [failure] /\
    fetches (trace s') = fetches (trace s) /\
    running s' = false.
Proof.
  intros before after status text R O N. cbn zeta.
  set (s := run subscribeToJobEvents before) in *.
  assert (E0 : errors (trace s) = []).
  { apply run_no_error_while_running; [reflexivity | exact R]. }
  assert (S1 : step s (Arrives (Response status (BodyText text)))
               = mkSub (lastSeqId s) (hasConnected s) (aborted s) false
                       (clockReads s)
                       (trace s ++ [OnError (PlainError
                          ("Events request failed: " ++ Str.ofZ status
                           ++ " - " ++ text))])).
  { unfold step. rewrite R, (pollBody_bad_status status text s O N).
    reflexivity. }
  cbn [run fold_left]. rewrite S1.
  match goal with |- context [fold_left step after ?x] =>
    destruct (run_stopped after x eq_refl) as [R' T'] end.
  unfold run in *. rewrite T', R'. cbn [trace].
  rewrite errors_app, fetches_app, E0. cbn.
  now rewrite Nat.add_0_r.
Qed.

Lemma bad_status_witness :
  let before := [Arrives (Response 204 (BodyText ""))] in
  let after := [Arrives (Response 200 (BodyText "late")); Cancel] in
  let s := run (H := Ref.host) subscribeToJobEvents before in
  let s' := run (H := Ref.host) s
                (Arrives (Response 500 (BodyText "boom")) :: after) in
  (running s = true /\ ok 500 = false /\ 500%Z <> 101%Z) /\
  trace s' = trace s ++ [OnError (PlainError "Events request failed: 500 - boom")] /\
  errors (trace s') = [PlainError "Events request failed: 500 - boom"] /\
  fetches (trace s') = fetches (trace s) /\
  running s' = false.
Proof.
  split; [split; [reflexivity | split; [reflexivity | discriminate]]|].
  apply (bad_status_is_fatal_once_and_stops_polling
           (H := Ref.host)
           [Arrives (Response 204 (BodyText ""))]
           [Arrives (Response 200 (BodyText "late")); Cancel]
           500 "boom" eq_refl eq_refl).
  discriminate.
Defined.

(** C3: the decoder can throw. A blank text yields no event, and a
    non-blank text that [JSON.parse] rejects yields one event with step id
    [unknown], the trimmed text as message and [finished] false; but a text
    that [JSON.parse] reads as [null] makes [parseEventPayload] read a
    property of [null]. With the SSE body [data: null] the [TypeError]
    escapes [emitFromResponse], and in the loop it escapes the [catch] block
    that was retrying the body as text, so the fatal-error callback fires
    and polling stops. Stated for every host whose [JSON.parse] reads the
    text [null] as [null] and rejects the text [data: null]. *)
Theorem null_payload_makes_the_decoder_throw `{Host} :
  forall (s : Sub) (fallback : option json),
    JSON_parse "null" = Some JNull ->
    JSON_parse "data: null" = None ->
    let failure := TypeError "Cannot read properties of null (reading 'step_id')" in
    (forall blank : string,
        Str.nonEmpty (Str.trim blank) = false ->
        parseEventPayload (Some (JStr blank)) fallback s = (Return None, s)) /\
    (forall raw : string,
        Str.nonEmpty (Str.trim raw) = true ->
        JSON_parse (Str.trim raw) = None ->
        exists (ev : JobEvent) (s' : Sub),
          parseEventPayload (Some (JStr raw)) fallback s = (Return (Some ev), s') /\
          trace s' = trace s /\
          step_id ev = JStr "unknown" /\
          message ev = JStr (Str.trim raw) /\
          finished ev = JBool false) /\
    parseEventPayload (Some (JStr "null")) fallback s = (Throw failure, s) /\
    emitFromResponse (JStr "data: null") s = (Throw failure, s) /\
    let s' := run subscribeToJobEvents
                  [Arrives (Response 200 (BodyText "data: null"))] in
    trace s' = [Fetch None; OnComplete; OnError failure] /\
    running s' = false.
Proof.
  intros s fallback PN PD. cbv zeta.
  assert (N : parseEventPayload (Some (JStr "null")) fallback s
              = (Throw (nullPropertyError "step_id"), s)).
  { unfold parseEventPayload. change (Str.trim "null") with "null".
    cbn [Str.nonEmpty negb]. now rewrite PN. }
  assert (E : forall s0,
             emitFromResponse (JStr "data: null") s0
             = (Throw (nullPropertyError "step_id"), s0)).
  { intros s0. unfold emitFromResponse.
    change (Str.trim "data: null") with "data: null".
    change (looksLikeSse "data: null") with true.
    change (parseSseText "data: null") with [mkSseEntry None "null"].
    cbn [Str.nonEmpty negb forOf]. unfold emitSseEntry.
    cbn [idTruthy sse_id sse_data option_map]. unfold bind, ret.
    unfold parseEventPayload. change (Str.trim "null") with "null".
    cbn [Str.nonEmpty negb]. now rewrite PN. }
  split; [|split; [|split; [|split]]].
  - intros blank B. unfold parseEventPayload. now rewrite B.
  - intros raw B P. unfold parseEventPayload. rewrite B, P. cbn [negb].
    unfold bind. rewrite readClock_effect.
    eexists _, _. split; [reflexivity|].
    split; [|repeat split].
    unfold applyEffect, advance. cbn. apply app_nil_r.
  - exact N.
  - apply E.
  - unfold run. cbn [fold_left]. unfold step, subscribeToJobEvents.
    cbn [running pollBody]. change (200 =? 204)%Z with false.
    change (negb (ok 200) && negb (200 =? 101)%Z) with false.
    cbv beta iota. unfold bind at 1.
    unfold markConnected at 1. cbn [hasConnected].
    unfold bind at 1. unfold setConnected at 1. cbn -[emitFromResponse].
    change (Str.trim "data: null") with "data: null".
    cbn -[emitFromResponse].
    unfold tryCatch, bind, parseJson. rewrite PD. unfold throw.
    cbv beta iota. rewrite E. cbn. split; reflexivity.
Qed.

Lemma null_payload_witness :
  let s := subscribeToJobEvents in
  let fallback := @None json in
  (JSON_parse (Host := Ref.host) "null" = Some JNull /\
   JSON_parse (Host := Ref.host) "data: null" = None) /\
  let failure := TypeError "Cannot read properties of null (reading 'step_id')" in
  (forall blank : string,
      Str.nonEmpty (Str.trim blank) = false ->
      parseEventPayload (H := Ref.host) (Some (JStr blank)) fallback s
      = (Return None, s)) /\
  (forall raw : string,
      Str.nonEmpty (Str.trim raw) = true ->
      JSON_parse (Host := Ref.host) (Str.trim raw) = None ->
      exists (ev : JobEvent) (s' : Sub),
        parseEventPayload (H := Ref.host) (Some (JStr raw)) fallback s
        = (Return (Some ev), s') /\
        trace s' = trace s /\
        step_id ev = JStr "unknown" /\
        message ev = JStr (Str.trim raw) /\
        finished ev = JBool false) /\
  parseEventPayload (H := Ref.host) (Some (JStr "null")) fallback s
  = (Throw failure, s) /\
  emitFromResponse (H := Ref.host) (JStr "data: null") s = (Throw failure, s) /\
  let s' := run (H := Ref.host) subscribeToJobEvents
                [Arrives (Response 200 (BodyText "data: null"))] in
  trace s' = [Fetch None; OnComplete; OnError failure] /\
  running s' = false.
Proof.
  split; [split; reflexivity|].
  apply (null_payload_makes_the_decoder_throw
           (H := Ref.host) subscribeToJobEvents None);
    reflexivity.
Defined.

(* ------------------------------------------------------------------ *)
(** ** Cancellation and the run controller *)

Section CancelFacts.
Context `{Host}.

Lemma step_cancel (s : Sub) :
  running (step s Cancel) = false /\ trace (step s Cancel) = trace s.
Proof.
  unfold step. destruct (running s) eqn:R; cbn; auto.
Qed.

Lemma run_cancelled (s : Sub) (script : list Input) :
  running (run (step s Cancel) script) = false /\
  trace (run (step s Cancel) script) = trace s.
Proof.
  destruct (step_cancel s) as [R T].
  destruct (run_stopped script (step s Cancel) R) as [R' T'].
  now rewrite T', T.
Qed.

(** A rejection named [AbortError] ends the loop without any callback. *)
Lemma step_fetch_aborted (s : Sub) (x : JsError) :
  err_name x = "AbortError" ->
  trace (step s (Arrives (FetchRejected x))) = trace s /\
  (running s = true -> running (step s (Arrives (FetchRejected x))) = false).
Proof.
  intros N. unfold step. destruct (running s);
    [|split; [reflexivity | discriminate]].
  cbn [pollBody]. unfold throw, pollCatch. rewrite N. cbn. auto.
Qed.

Lemma step_body_aborted (s : Sub) (status : Z) (x : JsError) :
  err_name x = "AbortError" ->
  errors (trace (step s (Arrives (Response status (BodyRejected x)))))
  = errors (trace s).
Proof.
  intros N. unfold step. destruct (running s); [|reflexivity].
  pose proof (pollBody_fields (Response status (BodyRejected x)) s)
    as (_ & _ & E & _). cbn zeta in E.
  destruct (pollBody (Response status (BodyRejected x)) s) as [[u | y] s1] eqn:Q;
    cbn [snd] in *.
  - destruct (pollHead_fields s1) as (_ & P & _). cbn zeta in P. now rewrite P.
  - assert (Y : y = x).
    { destruct (markConnected_spec s) as (MC & _).
      cbn [pollBody] in Q.
      destruct (status =? 204)%Z; [rewrite MC in Q; discriminate|].
      destruct (negb (ok status) && negb (status =? 101)%Z);
        unfold bind, readText, throw in Q; [|rewrite MC in Q]; congruence. }
    subst y. unfold pollCatch. rewrite N. cbn. exact E.
Qed.

End CancelFacts.

Section HookFacts.
Context `{Host}.

Lemma heldFrom_cons (k : nat) (a : option nat) (x : Sub) (l : list Sub) :
  Hook.heldFrom k a (x :: l)
  = (negb (running x)
     || match a with Some i => (k =? i)%nat | None => false end)
    && Hook.heldFrom (S k) a l.
Proof. reflexivity. Qed.

Lemma heldFrom_none (k : nat) (l : list Sub) :
  Hook.heldFrom k None l = true -> Hook.allStopped l = true.
Proof.
  revert k. induction l as [|x l IH]; intros k E; [reflexivity|].
  rewrite heldFrom_cons in E. apply andb_true_iff in E as [E1 E2].
  rewrite orb_false_r in E1. cbn [Hook.allStopped forallb]. rewrite E1.
  exact (IH (S k) E2).
Qed.

Lemma heldFrom_earlier (k i : nat) (l : list Sub) :
  i < k -> Hook.heldFrom k (Some i) l = true -> Hook.allStopped l = true.
Proof.
  revert k. induction l as [|x l IH]; intros k L E; [reflexivity|].
  rewrite heldFrom_cons in E. apply andb_true_iff in E as [E1 E2].
  assert (N : (k =? i)%nat = false) by (apply Nat.eqb_neq; lia).
  rewrite N, orb_false_r in E1. cbn [Hook.allStopped forallb]. rewrite E1.
  apply (IH (S k)); [lia | exact E2].
Qed.

Lemma heldFrom_cancelled (k j : nat) (l : list Sub) :
  Hook.heldFrom k (Some (k + j)) l = true ->
  Hook.allStopped (Hook.updateAt j (fun s => step s Cancel) l) = true.
Proof.
  revert k j. induction l as [|x l IH]; intros k j E;
    [destruct j; reflexivity|].
  rewrite heldFrom_cons in E. apply andb_true_iff in E as [E1 E2].
  destruct j as [|j]; cbn [Hook.updateAt Hook.allStopped forallb].
  - destruct (step_cancel x) as [R _]. rewrite R. cbn [negb andb].
    apply (heldFrom_earlier (S k) (k + 0)); [lia | exact E2].
  - assert (N : (k =? k + S j)%nat = false) by (apply Nat.eqb_neq; lia).
    rewrite N, orb_false_r in E1. rewrite E1. cbn [andb].
    apply (IH (S k) j). now replace (S k + j) with (k + S j) by lia.
Qed.

Lemma updateAt_cancel_traces (j : nat) (l : list Sub) :
  map trace (Hook.updateAt j (fun s => step s Cancel) l) = map trace l.
Proof.
  revert j. induction l as [|x l IH]; intros j; [destruct j; reflexivity|].
  destruct j as [|j]; cbn [Hook.updateAt map].
  - destruct (step_cancel x) as [_ T]. now rewrite T.
  - now rewrite IH.
Qed.

Lemma owned_split (h : Hook.State) :
  Hook.owned h = true ->
  forallb (fun t => match Hook.pollRef h with
                    | Some t' => (t =? t')%nat
                    | None => false
                    end) (Hook.timers h) = true /\
  Hook.heldFrom 0 (Hook.abortRef h) (Hook.streams h) = true.
Proof. unfold Hook.owned. intros E. now apply andb_true_iff in E. Qed.

Lemma held_timer_cleared (r : option nat) (ts : list nat) :
  forallb (fun t => match r with
                    | Some t' => (t =? t')%nat
                    | None => false
                    end) ts = true ->
  match r with
  | Some t' => filter (fun t => negb (t =? t')%nat) ts
  | None => ts
  end = [].
Proof.
  induction ts as [|t ts IH]; intros E.
  - now destruct r.
  - cbn [forallb] in E. apply andb_true_iff in E as [E1 E2].
    destruct r as [t'|]; [|discriminate].
    cbn [filter]. rewrite E1. cbn [negb]. exact (IH E2).
Qed.

(** What [cleanup] does. *)
Lemma cleanup_spec (h : Hook.State) :
  let h' := Hook.cleanup h in
  Hook.status h' = Hook.status h /\
  Hook.error h' = Hook.error h /\
  Hook.messages h' = Hook.messages h /\
  Hook.abortRef h' = None /\
  Hook.pollRef h' = None /\
  Hook.connectedRef h' = false /\
  map trace (Hook.streams h') = map trace (Hook.streams h) /\
  (Hook.owned h = true ->
   Hook.timers h' = [] /\ Hook.allStopped (Hook.streams h') = true).
Proof.
  cbn zeta. unfold Hook.cleanup.
  destruct h as [ms st jid err tok ecs evs aid ar pr cr ts ss nid].
  destruct ar as [i|], pr as [t|]; cbn;
    rewrite ?updateAt_cancel_traces;
    do 7 (split; [reflexivity|]);
    intros O; apply owned_split in O as [O1 O2]; cbn in O1, O2; split.
  - exact (held_timer_cleared (Some t) ts O1).
  - exact (heldFrom_cancelled 0 i ss O2).
  - exact (held_timer_cleared None ts O1).
  - exact (heldFrom_cancelled 0 i ss O2).
  - exact (held_timer_cleared (Some t) ts O1).
  - exact (heldFrom_none 0 ss O2).
  - exact (held_timer_cleared None ts O1).
  - exact (heldFrom_none 0 ss O2).
Qed.

Lemma updateAt_same {A} (i : nat) (x : A) (l : list A) :
  nth_error l i = Some x -> Hook.updateAt i (fun _ => x) l = l.
Proof.
  revert i. induction l as [|y l IH]; intros i E; [destruct i; reflexivity|].
  destruct i as [|i]; cbn in *.
  - congruence.
  - now rewrite (IH i E).
Qed.

Lemma allStopped_nth (l : list Sub) (i : nat) (s : Sub) :
  Hook.allStopped l = true -> nth_error l i = Some s -> running s = false.
Proof.
  revert i. induction l as [|y l IH]; intros i A E.
  - destruct i; discriminate.
  - cbn [Hook.allStopped forallb] in A. apply andb_true_iff in A as [A1 A2].
    destruct i as [|i]; cbn in E.
    + injection E as <-. now apply negb_true_iff in A1.
    + exact (IH i A2 E).
Qed.

(** When every subscription has stopped, nothing that arrives for any of
    them changes the state of the controller: no callback runs. *)
Lemma streamInput_stopped (isChatTokenEvent : JobEvent -> bool)
      (getChatTokenText : JobEvent -> string)
      (i : nat) (r : Reply) (h : Hook.State) :
  Hook.allStopped (Hook.streams h) = true ->
  Hook.streamInput isChatTokenEvent getChatTokenText i r h = h.
Proof.
  intros A. unfold Hook.streamInput.
  destruct (nth_error (Hook.streams h) i) as [s|] eqn:E; [|reflexivity].
  pose proof (allStopped_nth _ _ _ A E) as R.
  assert (S1 : step s (Arrives r) = s) by (unfold step; now rewrite R).
  rewrite S1. unfold added. rewrite skipn_all. cbn [fold_left].
  unfold Hook.setStreams. rewrite (updateAt_same i s _ E).
  now destruct h.
Qed.

End HookFacts.


(* ------------------------------------------------------------------ *)
(** ** Every state of a run keeps its resources in hand *)

Section RunFacts.
Context `{Host}.
Variable isChatTokenEvent : JobEvent -> bool.
Variable getChatTokenText : JobEvent -> string.

Lemma sameResources_refl (h : Hook.State) : Hook.sameResources h h.
Proof. unfold Hook.sameResources. auto. Qed.

Lemma sameResources_trans (h1 h2 h3 : Hook.State) :
  Hook.sameResources h1 h2 -> Hook.sameResources h2 h3 ->
  Hook.sameResources h1 h3.
Proof.
  unfold Hook.sameResources.
  intros (A1 & A2 & A3 & A4 & A5) (B1 & B2 & B3 & B4 & B5).
  rewrite B1, B2, B3, B4, B5. auto.
Qed.

Lemma owned_sameResources (h h' : Hook.State) :
  Hook.sameResources h h' -> Hook.owned h' = Hook.owned h.
Proof.
  unfold Hook.sameResources, Hook.owned.
  intros (A1 & A2 & _ & A4 & A5). now rewrite A1, A2, A4, A5.
Qed.

Lemma finalizeAssistant_same (h : Hook.State) :
  Hook.sameResources h (Hook.finalizeAssistant h).
Proof.
  resources.
Qed.

Lemma appendAssistantChunk_same (chunk : string) (h : Hook.State) :
  Hook.sameResources h (Hook.appendAssistantChunk chunk h).
Proof.
  resources.
Qed.

Lemma onStreamError_same (x : JsError) (h : Hook.State) :
  Hook.sameResources h (Hook.onStreamError x h).
Proof.
  unfold Hook.onStreamError. resources.
Qed.

Lemma dispatch_same (h : Hook.State) (o : Obs) :
  Hook.sameResources
    h (Hook.dispatch isChatTokenEvent getChatTokenText h o).
Proof.
  destruct o as [c | e | | x]; cbn [Hook.dispatch].
  - apply sameResources_refl.
  - unfold Hook.onStreamEvent. cbv zeta.
    destruct (isChatTokenEvent e && negb (Js.truthy (finished e)));
      [|resources].
    destruct (Str.nonEmpty (getChatTokenText e)); resources.
  - unfold Hook.onStreamConnected. resources.
  - apply onStreamError_same.
Qed.

Lemma dispatch_all_same (os : list Obs) (h : Hook.State) :
  Hook.sameResources
    h (fold_left (Hook.dispatch isChatTokenEvent getChatTokenText) os h).
Proof.
  revert h. induction os as [|o os IH]; intros h; [apply sameResources_refl|].
  cbn [fold_left].
  eapply sameResources_trans; [apply dispatch_same | apply IH].
Qed.

Lemma heldFrom_allStopped (k : nat) (a : option nat) (l : list Sub) :
  Hook.allStopped l = true -> Hook.heldFrom k a l = true.
Proof.
  revert k. induction l as [|x l IH]; intros k A; [reflexivity|].
  cbn [Hook.allStopped forallb] in A. apply andb_true_iff in A as [A1 A2].
  rewrite heldFrom_cons, A1. cbn [orb andb]. exact (IH (S k) A2).
Qed.

Lemma heldFrom_opened (k : nat) (l : list Sub) (x : Sub) :
  Hook.allStopped l = true ->
  Hook.heldFrom k (Some (k + List.length l)) (l ++ [x]) = true.
Proof.
  revert k. induction l as [|y l IH]; intros k A.
  - cbn [app List.length]. rewrite heldFrom_cons, Nat.add_0_r, Nat.eqb_refl.
    now rewrite orb_true_r.
  - cbn [Hook.allStopped forallb] in A. apply andb_true_iff in A as [A1 A2].
    cbn [app List.length]. rewrite heldFrom_cons, A1. cbn [orb andb].
    replace (k + S (List.length l)) with (S k + List.length l) by lia.
    exact (IH (S k) A2).
Qed.

(** A step of a subscription never restarts a stopped loop. *)
Lemma step_keeps_stopped (s : Sub) (i : Input) :
  running s = false -> running (step s i) = false.
Proof. intros R. now destruct (step_stopped s i R). Qed.

Lemma heldFrom_stepped (k j : nat) (a : option nat) (l : list Sub) (i : Input) :
  Hook.heldFrom k a l = true ->
  Hook.heldFrom k a (Hook.updateAt j (fun s => step s i) l) = true.
Proof.
  revert k j. induction l as [|x l IH]; intros k j E;
    [destruct j; reflexivity|].
  rewrite heldFrom_cons in E. apply andb_true_iff in E as [E1 E2].
  destruct j as [|j]; cbn [Hook.updateAt]; rewrite heldFrom_cons.
  - rewrite E2, andb_true_r.
    apply orb_true_iff in E1 as [E1 | E1]; [|now rewrite E1, orb_true_r].
    apply negb_true_iff in E1. now rewrite (step_keeps_stopped x i E1).
  - now rewrite E1, (IH (S k) j E2).
Qed.

Lemma allStopped_stepped (j : nat) (l : list Sub) (i : Input) :
  Hook.allStopped l = true ->
  Hook.allStopped (Hook.updateAt j (fun s => step s i) l) = true.
Proof.
  revert j. induction l as [|x l IH]; intros j A; [destruct j; reflexivity|].
  cbn [Hook.allStopped forallb] in A. apply andb_true_iff in A as [A1 A2].
  destruct j as [|j]; cbn [Hook.updateAt Hook.allStopped forallb].
  - apply negb_true_iff in A1.
    now rewrite (step_keeps_stopped x i A1), A2.
  - rewrite A1. exact (IH j A2).
Qed.

Lemma updateAt_const_nth {A} (j : nat) (f : A -> A) (x : A) (l : list A) :
  nth_error l j = Some x ->
  Hook.updateAt j (fun _ => f x) l = Hook.updateAt j f l.
Proof.
  revert j. induction l as [|y l IH]; intros j E; [destruct j; discriminate|].
  destruct j as [|j]; cbn in *.
  - congruence.
  - now rewrite (IH j E).
Qed.

(** The resources after a reply has reached a subscription: only the state
    of that subscription's loop has changed. *)
Lemma streamInput_resources (i : nat) (r : Reply) (h : Hook.State) :
  let h' := Hook.streamInput isChatTokenEvent getChatTokenText i r h in
  Hook.abortRef h' = Hook.abortRef h /\
  Hook.pollRef h' = Hook.pollRef h /\
  Hook.connectedRef h' = Hook.connectedRef h /\
  Hook.timers h' = Hook.timers h /\
  Hook.streams h'
  = Hook.updateAt i (fun s => step s (Arrives r)) (Hook.streams h).
Proof.
  cbn zeta. unfold Hook.streamInput.
  destruct (nth_error (Hook.streams h) i) as [s|] eqn:E.
  - destruct (dispatch_all_same
                (added s (step s (Arrives r)))
                (Hook.setStreams
                   (Hook.updateAt i (fun _ => step s (Arrives r))) h))
      as (A1 & A2 & A3 & A4 & A5).
    rewrite A1, A2, A3, A4, A5. cbn.
    now rewrite (updateAt_const_nth i (fun s => step s (Arrives r)) s _ E).
  - repeat split; auto.
    clear - E. revert i E.
    induction (Hook.streams h) as [|y l IH]; intros i E;
      [destruct i; reflexivity|].
    destruct i as [|i]; cbn in *; [discriminate|]. now rewrite <- (IH i E).
Qed.

Lemma cleanup_invariant (h : Hook.State) :
  Hook.owned h = true ->
  Hook.owned (Hook.cleanup h) = true /\
  Hook.allStopped (Hook.streams (Hook.cleanup h)) = true /\
  Hook.pollRef (Hook.cleanup h) = None /\
  Hook.connectedRef (Hook.cleanup h) = false.
Proof.
  intros O.
  destruct (cleanup_spec h) as (_ & _ & _ & C4 & C5 & C6 & _ & C8).
  cbn zeta in *. destruct (C8 O) as [T A].
  repeat split; auto.
  unfold Hook.owned. rewrite C4, C5, T. cbn [forallb andb].
  now apply heldFrom_allStopped.
Qed.

(** A handler that is [cleanup] followed by updates of the React state. *)
Lemma after_cleanup (p : Hook.Pending) (h h' : Hook.State) :
  Hook.owned h = true ->
  Hook.sameResources (Hook.cleanup h) h' ->
  Hook.invariant (p, h').
Proof.
  intros O (S1 & S2 & S3 & S4 & S5).
  destruct (cleanup_invariant h O) as (O' & A & P & C).
  unfold Hook.invariant. cbn [fst snd].
  rewrite (owned_sameResources (Hook.cleanup h) h'), S2, S3, S5
    by (unfold Hook.sameResources; auto).
  auto.
Qed.

Lemma pollOnce_invariant (p : Hook.Pending) (job : Hook.JobRead)
      (h : Hook.State) :
  Hook.invariant (p, h) -> Hook.invariant (p, Hook.pollOnce job h).
Proof.
  intros (O & A & P). cbn [fst snd] in *.
  unfold Hook.pollOnce. cbv zeta.
  set (normalized := Str.toLowerCase (Hook.job_status job)).
  match goal with |- context [Hook.cleanup ?x] => set (h1 := x) end.
  assert (I1 : Hook.invariant (p, h1)).
  { subst h1.
    destruct (((normalized =? "running") || (normalized =? "executing"))
              && negb (Hook.connectedRef h)) eqn:Q; [|now repeat split].
    apply andb_true_iff in Q as [_ Q]. apply negb_true_iff in Q.
    specialize (A Q).
    unfold Hook.invariant, Hook.openSubscription, Hook.owned. cbn.
    apply andb_true_iff in O as [O1 O2]. unfold Hook.owned in *.
    rewrite O1. cbn [andb].
    repeat split; [|discriminate | exact P].
    exact (heldFrom_opened 0 (Hook.streams h) subscribeToJobEvents A). }
  destruct I1 as (O1 & A1 & P1). cbn [fst snd] in *.
  destruct (Hook.has Hook.terminalSuccess normalized).
  { apply (after_cleanup p h1); [exact O1|]. resources. }
  destruct (Hook.has Hook.terminalError normalized).
  { apply (after_cleanup p h1); [exact O1|]. resources. }
  destruct (negb (Hook.has Hook.nonTerminal normalized)).
  { apply (after_cleanup p h1); [exact O1|]. resources. }
  now repeat split.
Qed.

Lemma submitPrompt_invariant (prompt : string) (h h' : Hook.State) :
  Hook.owned h = true ->
  Hook.submitPrompt prompt h = Some h' ->
  Hook.invariant (Hook.AwaitingJob, h').
Proof.
  intros O E. unfold Hook.submitPrompt in E.
  destruct (negb (Str.nonEmpty (Str.trim prompt))); [discriminate|].
  injection E as <-.
  apply (after_cleanup Hook.AwaitingJob h); [exact O|].
  unfold Hook.fresh. resources.
Qed.

Lemma startPolling_invariant (h : Hook.State) :
  Hook.invariant (Hook.AwaitingFirstPoll, h) ->
  Hook.invariant (Hook.NoSubmit, Hook.startPolling h).
Proof.
  intros (O & A & P). cbn [fst snd] in *.
  specialize (P ltac:(discriminate)).
  apply owned_split in O as [O1 O2]. rewrite P in O1.
  pose proof (held_timer_cleared None _ O1) as T. cbn in T.
  unfold Hook.invariant, Hook.startPolling, Hook.owned. cbn.
  rewrite T. cbn. rewrite Nat.eqb_refl. cbn [andb].
  repeat split; [exact O2 | exact A | contradiction].
Qed.

(** The invariant holds along every run. *)
Lemma transition_invariant (c c' : Hook.Pending * Hook.State) :
  Hook.transition isChatTokenEvent getChatTokenText c c' ->
  Hook.invariant c -> Hook.invariant c'.
Proof.
  intros T I.
  destruct T as [h h' prompt E | h created | h msg | h job | h msg
                 | p h job | p h msg | p h i r | p h].
  - destruct I as (O & _). now apply (submitPrompt_invariant prompt h).
  - destruct I as (O & A & P). cbn [fst snd] in *.
    unfold Hook.invariant. cbn [fst snd].
    repeat split; auto. intros _. apply P. discriminate.
  - destruct I as (O & _). apply (after_cleanup _ h); [exact O|].
    unfold Hook.onSubmitError. resources.
  - apply startPolling_invariant, pollOnce_invariant, I.
  - destruct I as (O & _). apply (after_cleanup _ h); [exact O|].
    unfold Hook.onSubmitError. resources.
  - now apply pollOnce_invariant.
  - destruct I as (O & _).
    apply (after_cleanup
             p (Hook.setStatus Hook.Error (Hook.setError (Some msg) h)));
      [exact O|].
    unfold Hook.onPollError. resources.
  - destruct I as (O & A & P). cbn [fst snd] in *.
    destruct (streamInput_resources i r h) as (R1 & R2 & R3 & R4 & R5).
    cbn zeta in *. apply owned_split in O as [O1 O2].
    unfold Hook.invariant, Hook.owned. cbn [fst snd].
    rewrite R1, R2, R3, R4, R5, O1. cbn [andb].
    repeat split.
    + now apply heldFrom_stepped.
    + intros C. now apply allStopped_stepped, A.
    + exact P.
  - destruct I as (O & _). apply (after_cleanup _ h); [exact O|].
    unfold Hook.reset. resources.
Qed.

Lemma reachable_invariant (c : Hook.Pending * Hook.State) :
  Hook.reachable isChatTokenEvent getChatTokenText c -> Hook.invariant c.
Proof.
  induction 1 as [|c c' R IH T].
  - repeat split; auto.
  - exact (transition_invariant c c' T IH).
Qed.

End RunFacts.
(** C5. The kind of an event is computed from its step id alone, by the
    first rule of the table whose prefix the step id has, compared letter for
    letter: the five step ids of the specification get the kinds it names, a
    step id that differs from a prefix only in case is unknown, and whenever
    several rules match, the first one decides. *)
Theorem event_kind_by_first_matching_prefix :
  Events.getEventType "chat:token:5" = chatToken /\
  Events.getEventType "chat:tokens:5" = chatToken /\
  Events.getEventType "phase:research" = phase /\
  Events.getEventType "agent:search:web:task-2" = task /\
  Events.getEventType "bogus" = unknown /\
  Events.getEventType "Phase:research" = unknown /\
  (forall (before after : list (Events.Pattern * EventType))
          (pat : Events.Pattern) (k : EventType) (stepId : string),
      Events.rules = before ++ (pat, k) :: after ->
      forallb (fun r => negb (Events.matches (fst r) stepId)) before = true ->
      Events.matches pat stepId = true ->
      Events.getEventType stepId = k) /\
  (forall stepId : string,
      forallb (fun r => negb (Events.matches (fst r) stepId)) Events.rules = true ->
      Events.getEventType stepId = unknown).
Proof.
  repeat (split; [reflexivity|]).
  assert (G : forall rs before pat k after stepId,
             rs = before ++ (pat, k) :: after ->
             forallb (fun r => negb (Events.matches (fst r) stepId)) before = true ->
             Events.matches pat stepId = true ->
             Events.firstMatch rs stepId = k).
  { intros rs before. revert rs.
    induction before as [|[p0 k0] before IH]; intros rs pat k after stepId -> N M.
    - cbn [app Events.firstMatch]. now rewrite M.
    - cbn [forallb fst] in N. apply andb_true_iff in N as [N1 N2].
      apply negb_true_iff in N1.
      cbn [app Events.firstMatch]. rewrite N1.
      now apply (IH _ pat k after stepId eq_refl). }
  split.
  - intros before after pat k stepId E N M.
    unfold Events.getEventType. now apply (G _ before pat k after).
  - intros stepId. unfold Events.getEventType.
    induction Events.rules as [|[p0 k0] rs IH]; intros N; [reflexivity|].
    cbn [forallb fst] in N. apply andb_true_iff in N as [N1 N2].
    apply negb_true_iff in N1. cbn [Events.firstMatch]. rewrite N1.
    exact (IH N2).
Qed.

Lemma event_kind_witness :
  let stepId := "agent:search:web:task-2" in
  let before := [ (Events.Prefix "workflow:", workflow);
                  (Events.Prefix "phase:", phase) ] in
  let after := [ (Events.Prefix "agent:", agent);
                 (Events.Prefix "chat:token", chatToken);
                 (Events.Prefix "chat:tokens", chatToken);
                 (Events.Prefix "chat:request", chatLifecycle);
                 (Events.Prefix "chat:response", chatLifecycle);
                 (Events.Prefix "chat:complete", chatLifecycle) ] in
  (Events.rules = before ++ (Events.PrefixWith "agent:" ":task-", task) :: after /\
   forallb (fun r => negb (Events.matches (fst r) stepId)) before = true /\
   Events.matches (Events.PrefixWith "agent:" ":task-") stepId = true /\
   Events.matches (Events.Prefix "agent:") stepId = true) /\
  Events.getEventType stepId = task.
Proof.
  split; [repeat split|].
  apply (proj1 (proj2 (proj2 (proj2 (proj2 (proj2 (proj2
           event_kind_by_first_matching_prefix))))))
           [ (Events.Prefix "workflow:", workflow);
             (Events.Prefix "phase:", phase) ]
           [ (Events.Prefix "agent:", agent);
             (Events.Prefix "chat:token", chatToken);
             (Events.Prefix "chat:tokens", chatToken);
             (Events.Prefix "chat:request", chatLifecycle);
             (Events.Prefix "chat:response", chatLifecycle);
             (Events.Prefix "chat:complete", chatLifecycle) ]
           (Events.PrefixWith "agent:" ":task-") task);
    reflexivity.
Defined.

Section ResetFacts.
Context `{Host}.
Variable isChatTokenEvent : JobEvent -> bool.
Variable getChatTokenText : JobEvent -> string.

Lemma reset_spec (h : Hook.State) :
  Hook.status (Hook.reset h) = Hook.Idle /\
  Hook.error (Hook.reset h) = None /\
  Hook.abortRef (Hook.reset h) = None /\
  Hook.pollRef (Hook.reset h) = None /\
  Hook.connectedRef (Hook.reset h) = false /\
  Hook.timers (Hook.reset h) = Hook.timers (Hook.cleanup h) /\
  Hook.streams (Hook.reset h) = Hook.streams (Hook.cleanup h) /\
  map trace (Hook.streams (Hook.reset h)) = map trace (Hook.streams h).
Proof.
  destruct (cleanup_spec h) as (_ & _ & _ & C4 & C5 & C6 & C7 & _).
  cbn zeta in *. unfold Hook.reset. cbn. auto 10.
Qed.

(** A status read that finds the job running while the controller is not
    connected opens a subscription. *)
Lemma pollOnce_opens (job : Hook.JobRead) (h : Hook.State) :
  Str.toLowerCase (Hook.job_status job) = "running"
  \/ Str.toLowerCase (Hook.job_status job) = "executing" ->
  Hook.connectedRef h = false ->
  Hook.pollOnce job h
  = Hook.openSubscription
      (Hook.setEventsConnectionStatus
         Hook.ConnQuerying
         (Hook.setStatus Hook.Streaming (Hook.setConnectedRef true h))).
Proof.
  intros [E | E] C; unfold Hook.pollOnce; rewrite E, C; reflexivity.
Qed.

Lemma opened_spec (h : Hook.State) :
  let h' := Hook.openSubscription
              (Hook.setEventsConnectionStatus
                 Hook.ConnQuerying
                 (Hook.setStatus Hook.Streaming (Hook.setConnectedRef true h))) in
  Hook.status h' = Hook.Streaming /\
  Hook.abortRef h' = Some (List.length (Hook.streams h)) /\
  Hook.streams h' = Hook.streams h ++ [subscribeToJobEvents].
Proof. repeat split; reflexivity. Qed.

Lemma allStopped_opened (l : list Sub) :
  Hook.allStopped (l ++ [subscribeToJobEvents]) = false.
Proof.
  unfold Hook.allStopped. rewrite forallb_app. cbn. apply andb_false_r.
Qed.

Lemma onStreamError_spec (x : JsError) (h : Hook.State) :
  Hook.status (Hook.onStreamError x h) = Hook.Error /\
  Hook.error (Hook.onStreamError x h) = Some (err_message x).
Proof.
  unfold Hook.onStreamError, Hook.finalizeAssistant.
  destruct h as [ms st jid err tok ecs evs aid ar pr cr ts ss nid].
  destruct aid; cbn; auto.
Qed.

(** A failed reply to a subscription that has just been opened reaches the
    fatal-error handler of the controller. *)
Lemma streamInput_opened_fails (body : string) (h : Hook.State) :
  let i := List.length (Hook.streams h) in
  let h' := Hook.setAbortRef
              (Some i)
              (Hook.setStreams (fun ss => ss ++ [subscribeToJobEvents]) h) in
  let h'' := Hook.streamInput isChatTokenEvent getChatTokenText i
                              (Response 500 (BodyText body)) h' in
  Hook.status h'' = Hook.Error /\
  Hook.error h'' = Some ("Events request failed: 500 - " ++ body)%string.
Proof.
  cbn zeta. unfold Hook.streamInput.
  replace (nth_error (Hook.streams (Hook.setAbortRef _ (Hook.setStreams _ h)))
                     (List.length (Hook.streams h)))
    with (Some subscribeToJobEvents).
  - cbn -[Hook.onStreamError Hook.updateAt]. apply onStreamError_spec.
  - cbn [Hook.streams Hook.setAbortRef Hook.setStreams].
    rewrite nth_error_app2, Nat.sub_diag by lia. reflexivity.
Qed.

Lemma onPollError_spec (message : string) (h : Hook.State) :
  Hook.status (Hook.onPollError message h) = Hook.Error /\
  Hook.error (Hook.onPollError message h) = Some message.
Proof.
  unfold Hook.onPollError, Hook.finalizeAssistant.
  destruct (cleanup_spec
              (Hook.setStatus Hook.Error (Hook.setError (Some message) h)))
    as (C1 & C2 & _).
  cbn zeta in *.
  destruct (Hook.assistantIdRef _); cbn; rewrite ?C1, ?C2; auto.
Qed.

End ResetFacts.

(** C8: [reset] stops the subscription and the timer the controller
    holds, but not a status read that is in flight, nor the timer of a
    submission that overlapped another.

    What holds. Calling the cancel function of a subscription, in any state
    and whatever arrives afterwards, invokes no callback at all and leaves
    the loop stopped; a transport rejection named [AbortError], of the
    request or of the body read, never reaches the fatal-error callback;
    [cleanup] leaves the status and the error field as they are; [reset]
    leaves the run idle with no error and no handle, and invokes no
    callback. In a state of a run in which one submission is pending at a
    time, the state [reset] leaves has no active timer and no running
    subscription, and no reply to a subscription changes it.

    What fails. The request of [readJob] carries no abort signal and its
    continuation in [pollOnce] checks nothing. So when a status read is in
    flight at [reset] and then finds the job running, the run goes from
    idle to streaming and a new subscription is opened, whose loop runs
    and whose callbacks reach the controller: a failed reply to it sets
    the run to error. When the read fails instead, its rejection handler
    sets the run to error with the message of the failure. (A status read
    may resolve or fail in any state: [late] and [failed] are the states
    reached when one does after [reset].) And when two submissions
    overlap, the second timer overwrites the handle of the first, so that
    [reset] leaves the first timer active. *)
Theorem reset_does_not_stop_a_status_read_in_flight `{Host} :
  forall (isChatTokenEvent : JobEvent -> bool)
         (getChatTokenText : JobEvent -> string)
         (c : Hook.Pending * Hook.State)
         (s : Sub) (script : list Input) (abortion : JsError) (status : Z)
         (job : Hook.JobRead) (message body : string),
    Hook.reachable isChatTokenEvent getChatTokenText c ->
    err_name abortion = "AbortError" ->
    Str.toLowerCase (Hook.job_status job) = "running"
    \/ Str.toLowerCase (Hook.job_status job) = "executing" ->
    let h := snd c in
    let late := Hook.pollOnce job (Hook.reset h) in
    let failed := Hook.onPollError message (Hook.reset h) in
    (trace (run (step s Cancel) script) = trace s /\
     running (run (step s Cancel) script) = false) /\
    (trace (step s (Arrives (FetchRejected abortion))) = trace s /\
     errors (trace (step s (Arrives (Response status (BodyRejected abortion)))))
     = errors (trace s)) /\
    (Hook.status (Hook.cleanup h) = Hook.status h /\
     Hook.error (Hook.cleanup h) = Hook.error h) /\
    (Hook.status (Hook.reset h) = Hook.Idle /\
     Hook.error (Hook.reset h) = None /\
     Hook.abortRef (Hook.reset h) = None /\
     Hook.pollRef (Hook.reset h) = None /\
     Hook.timers (Hook.reset h) = [] /\
     Hook.allStopped (Hook.streams (Hook.reset h)) = true /\
     map trace (Hook.streams (Hook.reset h)) = map trace (Hook.streams h) /\
     forall (i : nat) (r : Reply),
       Hook.streamInput isChatTokenEvent getChatTokenText i r (Hook.reset h)
       = Hook.reset h) /\
    (Hook.reachable isChatTokenEvent getChatTokenText (fst c, late) /\
     Hook.status late = Hook.Streaming /\
     Hook.abortRef late = Some (List.length (Hook.streams h)) /\
     Hook.streams late
     = Hook.streams (Hook.reset h) ++ [subscribeToJobEvents] /\
     Hook.allStopped (Hook.streams late) = false /\
     let h' := Hook.streamInput isChatTokenEvent getChatTokenText
                                (List.length (Hook.streams h))
                                (Response 500 (BodyText body)) late in
     Hook.status h' = Hook.Error /\
     Hook.error h' = Some ("Events request failed: 500 - " ++ body)%string) /\
    (Hook.reachable isChatTokenEvent getChatTokenText (fst c, failed) /\
     Hook.status failed = Hook.Error /\
     Hook.error failed = Some message) /\
    (Hook.timers overlapping = [4; 5] /\
     Hook.pollRef overlapping = Some 5 /\
     Hook.status (Hook.reset overlapping) = Hook.Idle /\
     Hook.pollRef (Hook.reset overlapping) = None /\
     Hook.timers (Hook.reset overlapping) = [4]).
Proof.
  intros isTok tokText c s script abortion status job message body Rc N J.
  cbv zeta.
  destruct (reachable_invariant isTok tokText c Rc) as (O & _).
  destruct (run_cancelled s script) as [R T].
  destruct (step_fetch_aborted s abortion N) as [F _].
  pose proof (step_body_aborted s status abortion N) as B.
  destruct (cleanup_spec (snd c)) as (C1 & C2 & _ & C4 & C5 & _ & C7 & C8).
  cbn zeta in *. destruct (C8 O) as [C9 C10].
  destruct (reset_spec (snd c)) as (R1 & R2 & R3 & R4 & R5 & R6 & R7 & R8).
  assert (Rr : Hook.reachable isTok tokText (fst c, Hook.reset (snd c))).
  { eapply Hook.AfterStep; [exact Rc|]. destruct c as [p h]. apply Hook.Resets. }
  assert (Len : List.length (Hook.streams (Hook.reset (snd c)))
                = List.length (Hook.streams (snd c))).
  { rewrite <- (length_map trace), R8. apply length_map. }
  split; [split; assumption|].
  split; [split; assumption|].
  split; [split; assumption|].
  split.
  { split; [exact R1|]. split; [exact R2|]. split; [exact R3|].
    split; [exact R4|]. split; [now rewrite R6|].
    split; [now rewrite R7|]. split; [exact R8|].
    intros i r. apply streamInput_stopped. now rewrite R7. }
  split.
  { split.
    - eapply Hook.AfterStep; [exact Rr|]. apply Hook.TickRead.
    - rewrite (pollOnce_opens job _ J R5).
      destruct (opened_spec (Hook.reset (snd c))) as (P1 & P2 & P3).
      split; [exact P1|].
      split; [now rewrite P2, Len|].
      split; [exact P3|].
      split; [rewrite P3; apply allStopped_opened|].
      rewrite <- Len.
      exact (streamInput_opened_fails
               isTok tokText body
               (Hook.setEventsConnectionStatus
                  Hook.ConnQuerying
                  (Hook.setStatus Hook.Streaming
                                  (Hook.setConnectedRef true
                                                        (Hook.reset (snd c)))))). }
  split.
  { split.
    - eapply Hook.AfterStep; [exact Rr|]. apply Hook.TickFails.
    - apply onPollError_spec. }
  repeat split; reflexivity.
Qed.

Lemma reset_in_flight_witness :
  let isTok := fun e : JobEvent =>
                 match type e with chatToken => true | _ => false end in
  let tokText := fun e : JobEvent =>
                   match message e with JStr t => t | _ => "" end in
  let h := midStream (H := Ref.host) in
  let late := Hook.pollOnce (H := Ref.host) (Hook.mkJobRead "Running" None)
                            (Hook.reset (H := Ref.host) h) in
  (Hook.reachable (H := Ref.host) isTok tokText (Hook.NoSubmit, h) /\
   err_name AbortError = "AbortError" /\
   Str.toLowerCase "Running" = "running") /\
  Hook.status (Hook.reset (H := Ref.host) h) = Hook.Idle /\
  Hook.timers (Hook.reset (H := Ref.host) h) = [] /\
  Hook.allStopped (Hook.streams (Hook.reset (H := Ref.host) h)) = true /\
  Hook.reachable (H := Ref.host) isTok tokText (Hook.NoSubmit, late) /\
  Hook.status late = Hook.Streaming /\
  Hook.abortRef late = Some 1 /\
  Hook.allStopped (Hook.streams late) = false /\
  (let h' := Hook.streamInput (H := Ref.host) isTok tokText 1
                              (Response 500 (BodyText "boom")) late in
   Hook.status h' = Hook.Error /\
   Hook.error h' = Some "Events request failed: 500 - boom") /\
  Hook.timers (Hook.reset (H := Ref.host) (overlapping (H := Ref.host))) = [4].
Proof.
  cbv zeta.
  assert (Rc : Hook.reachable
                 (H := Ref.host)
                 (fun e : JobEvent =>
                    match type e with chatToken => true | _ => false end)
                 (fun e : JobEvent =>
                    match message e with JStr t => t | _ => "" end)
                 (Hook.NoSubmit, midStream (H := Ref.host))).
  { eapply Hook.AfterStep;
      [eapply Hook.AfterStep;
       [eapply Hook.AfterStep;
        [apply Hook.AtStart
        |eapply Hook.Submits with (prompt := "hello"); reflexivity]
       |apply Hook.JobCreated with (createdJobId := "job-1")]
      |exact (Hook.FirstPollRead _ _ _ (Hook.mkJobRead "running" None))]. }
  split; [split; [exact Rc | split; reflexivity]|].
  destruct (reset_does_not_stop_a_status_read_in_flight
              (H := Ref.host) _ _ (Hook.NoSubmit, midStream (H := Ref.host))
              subscribeToJobEvents [Arrives (Response 200 (BodyText "late"))]
              AbortError 200 (Hook.mkJobRead "Running" None) "read failed"
              "boom" Rc eq_refl (or_introl eq_refl))
    as (_ & _ & _ & (I1 & _ & _ & _ & I5 & I6 & _)
        & (L1 & L2 & L3 & _ & L5 & L6) & _ & (_ & _ & _ & _ & V5)).
  repeat split; try assumption; apply L6.
Defined.

(** C9: the handler of the subscription's fatal error does not tear
    anything down. It marks the run as failed, records the message and
    finalizes the placeholder, but whatever the state, the poll timer and the
    handles stay as they were, while the sibling handler of a failed status
    poll releases them. Whatever reaches a subscription, and whichever
    callbacks it makes the subscription invoke, the handles and the timers
    of the controller are afterwards what they were before. In mid-stream,
    after the events request is answered with a 500, the run is in error and
    the poll timer is still active. *)
Theorem stream_error_handler_keeps_the_poll_timer `{Host} :
  (forall (streamError : JsError) (h : Hook.State),
      let h' := Hook.onStreamError streamError h in
      Hook.status h' = Hook.Error /\
      Hook.error h' = Some (err_message streamError) /\
      Hook.messages h' = Hook.messages (Hook.finalizeAssistant h) /\
      Hook.pollRef h' = Hook.pollRef h /\
      Hook.timers h' = Hook.timers h /\
      Hook.abortRef h' = Hook.abortRef h) /\
  (forall (message : string) (h : Hook.State),
      Hook.pollRef (Hook.onPollError message h) = None /\
      Hook.abortRef (Hook.onPollError message h) = None) /\
  (forall (isChatTokenEvent : JobEvent -> bool)
          (getChatTokenText : JobEvent -> string)
          (i : nat) (r : Reply) (h : Hook.State),
      let h' := Hook.streamInput isChatTokenEvent getChatTokenText i r h in
      Hook.pollRef h' = Hook.pollRef h /\
      Hook.timers h' = Hook.timers h /\
      Hook.abortRef h' = Hook.abortRef h /\
      Hook.connectedRef h' = Hook.connectedRef h) /\
  (forall (isChatTokenEvent : JobEvent -> bool)
          (getChatTokenText : JobEvent -> string),
      let h' := Hook.streamInput isChatTokenEvent getChatTokenText 0
                                 (Response 500 (BodyText "boom")) midStream in
      Hook.status h' = Hook.Error /\
      Hook.error h' = Some "Events request failed: 500 - boom" /\
      Hook.pollRef midStream = Some 2 /\
      Hook.pollRef h' = Some 2 /\
      Hook.timers h' = [2]).
Proof.
  split; [|split; [|split]].
  - intros streamError h. cbn zeta. unfold Hook.onStreamError.
    unfold Hook.finalizeAssistant.
    destruct h as [ms st jid err tok ecs evs aid ar pr cr ts ss nid].
    destruct aid; cbn; auto 10.
  - intros message h.
    unfold Hook.onPollError, Hook.finalizeAssistant.
    destruct (cleanup_spec
                (Hook.setStatus Hook.Error (Hook.setError (Some message) h)))
      as (_ & _ & _ & C4 & C5 & _).
    cbn zeta in *.
    destruct (Hook.assistantIdRef _); cbn; auto.
  - intros isTok tokText i r h.
    destruct (streamInput_resources isTok tokText i r h)
      as (R1 & R2 & R3 & R4 & _).
    cbn zeta in *. auto.
  - intros isTok tokText. cbn zeta. repeat split; reflexivity.
Qed.

(* ------------------------------------------------------------------ *)
(** ** Further properties of [parseSseText] *)

Section SseLineFacts.

Lemma splitLines_line_crlf (a b : string) :
  noBreak a = true ->
  Str.splitLines (a ++ String Str.CR (String Str.LF b)) = a :: Str.splitLines b.
Proof.
  induction a as [|c a IH]; intros E.
  - reflexivity.
  - apply noBreak_cons in E as (E1 & E2 & E3).
    specialize (IH E3).
    cbn [append Str.splitLines]. rewrite E1.
    destruct a as [|d a'].
    + cbn [append] in *. rewrite E2. cbn [andb]. rewrite IH. reflexivity.
    + cbn [append] in *. rewrite E2. cbn [andb]. rewrite IH. reflexivity.
Qed.

(** Lines joined by line feeds, or by carriage return and line feed, are
    split into the same lines again. *)
Lemma splitLines_joined (ls : list string) :
  ls <> [] -> forallb noBreak ls = true ->
  Str.splitLines (String.concat Str.NL ls) = ls /\
  Str.splitLines (String.concat CRLF ls) = ls.
Proof.
  induction ls as [|x ls IH]; intros NE B; [contradiction|].
  cbn [forallb] in B. apply andb_true_iff in B as [Bx B].
  destruct ls as [|y ls].
  - cbn [String.concat]. now rewrite (splitLines_single x Bx).
  - destruct IH as [I1 I2]; [discriminate | exact B |].
    change (String.concat Str.NL (x :: y :: ls))
      with (x ++ String Str.LF (String.concat Str.NL (y :: ls)))%string.
    change (String.concat CRLF (x :: y :: ls))
      with (x ++ String Str.CR
              (String Str.LF (String.concat CRLF (y :: ls))))%string.
    rewrite (splitLines_line _ _ Bx), (splitLines_line_crlf _ _ Bx).
    now rewrite I1, I2.
Qed.

(** A line that is neither empty nor a field is skipped. *)
Lemma sseLine_skipped (a : SseAcc) (line : string) :
  line <> "" -> fieldLine line = false -> sseLine a line = a.
Proof.
  unfold fieldLine, sseLine. intros NE F.
  apply orb_false_iff in F as [F1 F2].
  destruct (line =? "") eqn:E; [now apply String.eqb_eq in E|].
  rewrite F1, F2. now destruct (Str.startsWith ":" line).
Qed.

Lemma fold_sseLine_data (ds : list string) (a : SseAcc) :
  fold_left sseLine (map (append "data:") ds) a
  = mkSseAcc (events a) (currentId a)
             (dataLines a ++ map Str.trimStart ds).
Proof.
  revert a. induction ds as [|d ds IH]; intros a.
  - cbn. rewrite app_nil_r. now destruct a.
  - cbn [map fold_left]. rewrite IH.
    replace (sseLine a ("data:" ++ d))
      with (mkSseAcc (events a) (currentId a)
                     (dataLines a ++ [Str.trimStart d])).
    + cbn. now rewrite <- app_assoc.
    + unfold sseLine.
      change ("data:" ++ d =? "")%string with false.
      change (Str.startsWith ":" ("data:" ++ d)) with false.
      change (Str.startsWith "id:" ("data:" ++ d)) with false.
      now rewrite (startsWith_app "data:" d).
Qed.

Lemma noBreak_field (p : string) (ds : list string) :
  noBreak p = true -> forallb noBreak ds = true ->
  forallb noBreak (map (append p) ds) = true.
Proof.
  intros P. induction ds as [|d ds IH]; intros B; [reflexivity|].
  cbn [forallb map] in *. apply andb_true_iff in B as [Bd B].
  now rewrite (noBreak_app p d P Bd), (IH B).
Qed.

End SseLineFacts.

(** X1. [parseSseText] reads a text whose lines end in carriage return and
    line feed exactly as the same lines ending in a line feed. *)
Theorem sse_line_endings_do_not_matter :
  forall ls : list string,
    forallb noBreak ls = true ->
    parseSseText (String.concat CRLF ls)
    = parseSseText (String.concat Str.NL ls).
Proof.
  intros ls B. destruct ls as [|x ls]; [reflexivity|].
  unfold parseSseText.
  destruct (splitLines_joined (x :: ls)) as [E1 E2];
    [discriminate | exact B |].
  now rewrite E1, E2.
Qed.

Lemma sse_line_endings_witness :
  let ls := ["id: 7"; "data: {}"; ""; ": ping"; "data: tail"] in
  forallb noBreak ls = true /\
  parseSseText (String.concat CRLF ls)
  = [mkSseEntry (Some "7") "{}"; mkSseEntry None "tail"] /\
  parseSseText (String.concat CRLF ls)
  = parseSseText (String.concat Str.NL ls).
Proof.
  split; [reflexivity|]. split; [reflexivity|].
  apply sse_line_endings_do_not_matter. reflexivity.
Defined.

(** X2. A line that is not empty and starts neither with [id:] nor with
    [data:] (a comment, an [event:] or [retry:] field, anything else) can be
    inserted anywhere in an SSE text, or removed from it, without changing
    what [parseSseText] returns. *)
Theorem sse_other_lines_are_ignored :
  forall (before after : list string) (line : string),
    forallb noBreak (before ++ line :: after) = true ->
    line <> "" ->
    fieldLine line = false ->
    parseSseText (String.concat Str.NL (before ++ line :: after))
    = parseSseText (String.concat Str.NL (before ++ after)).
Proof.
  intros before after line B NE F.
  assert (B' : forallb noBreak (before ++ after) = true).
  { rewrite forallb_app in *. cbn [forallb] in B.
    apply andb_true_iff in B as [B1 B2]. apply andb_true_iff in B2 as [_ B2].
    now rewrite B1, B2. }
  unfold parseSseText.
  destruct (splitLines_joined (before ++ line :: after)) as [E _];
    [destruct before; discriminate | exact B |].
  rewrite E, fold_left_app. cbn [fold_left].
  rewrite (sseLine_skipped _ line NE F).
  destruct (before ++ after) as [|x r] eqn:Q.
  - apply app_eq_nil in Q as [-> ->]. reflexivity.
  - rewrite <- Q in *.
    destruct (splitLines_joined (before ++ after)) as [E' _];
      [rewrite Q; discriminate | exact B' |].
    now rewrite E', fold_left_app.
Qed.

Lemma sse_other_lines_witness :
  let before := ["id: 7"] in
  let after := ["data: {}"] in
  (forallb noBreak (before ++ "event: tick" :: after) = true /\
   "event: tick" <> "" /\
   fieldLine "event: tick" = false) /\
  parseSseText (String.concat Str.NL (before ++ "event: tick" :: after))
  = parseSseText (String.concat Str.NL (before ++ after)).
Proof.
  split; [split; [reflexivity | split; [discriminate | reflexivity]]|].
  apply sse_other_lines_are_ignored; [reflexivity | discriminate | reflexivity].
Defined.

(** X3. The [data:] lines of one frame are joined by line feeds into the
    data of a single entry, each without the white space that follows the
    colon; the entry carries the trimmed id of the frame's [id:] line, or no
    id when the frame has none. *)
Theorem sse_data_lines_are_joined :
  forall (idLine : option string) (ds : list string),
    match idLine with Some i => noBreak i | None => true end = true ->
    forallb noBreak ds = true ->
    ds <> [] ->
    parseSseText
      (String.concat Str.NL
         (match idLine with Some i => [("id:" ++ i)%string] | None => [] end
          ++ map (append "data:") ds))
    = [mkSseEntry (option_map Str.trim idLine)
                  (Str.joinLines (map Str.trimStart ds))].
Proof.
  intros idLine ds Bi Bd NE.
  assert (L : (0 <? List.length (map Str.trimStart ds))%nat = true).
  { destruct ds; [contradiction | reflexivity]. }
  unfold parseSseText.
  destruct idLine as [i|].
  - destruct (splitLines_joined
                ([("id:" ++ i)%string] ++ map (append "data:") ds))
      as [E _]; [discriminate | |].
    { cbn [app forallb]. rewrite (noBreak_app "id:" i eq_refl Bi).
      now rewrite (noBreak_field "data:" ds eq_refl Bd). }
    rewrite E. cbn [app fold_left].
    replace (sseLine (mkSseAcc [] None []) ("id:" ++ i))
      with (mkSseAcc [] (Some (Str.trim i)) []).
    + rewrite fold_sseLine_data. unfold pushEvent.
      cbn [events currentId dataLines app option_map]. rewrite L.
      now rewrite orb_true_r.
    + unfold sseLine.
      change ("id:" ++ i =? "")%string with false.
      change (Str.startsWith ":" ("id:" ++ i)) with false.
      now rewrite (startsWith_app "id:" i).
  - destruct (splitLines_joined (map (append "data:") ds)) as [E _].
    { destruct ds; [contradiction | discriminate]. }
    { exact (noBreak_field "data:" ds eq_refl Bd). }
    cbn [app]. rewrite E, fold_sseLine_data. unfold pushEvent.
    cbn [events currentId dataLines app option_map idTruthy]. now rewrite L.
Qed.

Lemma sse_data_lines_witness :
  let ds := [" first"; "second "; "   third"] in
  (match Some " 12 " with Some i => noBreak i | None => true end = true /\
   forallb noBreak ds = true /\
   ds <> []) /\
  parseSseText
    (String.concat Str.NL
       (match Some " 12 " with Some i => [("id:" ++ i)%string] | None => [] end
        ++ map (append "data:") ds))
  = [mkSseEntry (option_map Str.trim (Some " 12 "))
                (Str.joinLines (map Str.trimStart ds))].
Proof.
  split; [split; [reflexivity | split; [reflexivity | discriminate]]|].
  apply (sse_data_lines_are_joined (Some " 12 "));
    [reflexivity | reflexivity | discriminate].
Defined.

(** X4. A text none of whose lines starts with [id:] or [data:] (the empty
    text, blank lines, comments, prose) gives no entry at all. *)
Theorem sse_text_without_fields_has_no_entries :
  forall text : string,
    forallb (fun line => negb (fieldLine line)) (Str.splitLines text) = true ->
    parseSseText text = [].
Proof.
  intros text F. unfold parseSseText.
  assert (G : forall ls,
             forallb (fun line => negb (fieldLine line)) ls = true ->
             fold_left sseLine ls (mkSseAcc [] None []) = mkSseAcc [] None []).
  { induction ls as [|l ls IH]; intros Q; [reflexivity|].
    cbn [forallb] in Q. apply andb_true_iff in Q as [Ql Q].
    apply negb_true_iff in Ql. cbn [fold_left].
    destruct (String.eqb_spec l "") as [-> | NE].
    - change (sseLine (mkSseAcc [] None []) "") with (mkSseAcc [] None []).
      exact (IH Q).
    - rewrite (sseLine_skipped _ l NE Ql). exact (IH Q). }
  now rewrite (G _ F).
Qed.

Lemma sse_text_without_fields_witness :
  let text := (": keep-alive" ++ Str.NL ++ Str.NL ++ "retry: 3000"
               ++ Str.NL ++ "hello")%string in
  forallb (fun line => negb (fieldLine line)) (Str.splitLines text) = true /\
  parseSseText text = [].
Proof.
  split; [reflexivity|].
  apply sse_text_without_fields_has_no_entries. reflexivity.
Defined.

(* ------------------------------------------------------------------ *)
(** ** Further properties of the long-poll loop *)

Section CursorFacts.
Context `{Host}.

Lemma firstTruthy_truthy (vs : list (option json)) (v : json) :
  Js.firstTruthy vs = Some v -> Js.truthy v = true.
Proof.
  induction vs as [|[x|] vs IH]; cbn [Js.firstTruthy]; [discriminate | | exact IH].
  destruct (Js.truthy x) eqn:T; [|exact IH].
  now intros [= <-].
Qed.

Lemma keeps_ret {A} (a : A) : keeps (ret a).
Proof. now intros s I. Qed.

Lemma keeps_throw {A} (x : JsError) : keeps (@throw A x).
Proof. now intros s I. Qed.

Lemma keeps_bind {A B} (c : M A) (k : A -> M B) :
  keeps c -> (forall a, keeps (k a)) -> keeps (bind c k).
Proof.
  intros Kc Kk s I. unfold bind. specialize (Kc s I).
  destruct (c s) as [[a | x] s1]; cbn [snd] in *; [|exact Kc].
  exact (Kk a s1 Kc).
Qed.

Lemma keeps_tryCatch {A} (c handler : M A) :
  keeps c -> keeps handler -> keeps (tryCatch c handler).
Proof.
  intros Kc Kh s I. unfold tryCatch. specialize (Kc s I).
  destruct (c s) as [[a | x] s1]; cbn [snd] in *; [exact Kc|].
  exact (Kh s1 Kc).
Qed.

Lemma keeps_forOf {A} (body : A -> M unit) (l : list A) :
  (forall x, keeps (body x)) -> keeps (forOf body l).
Proof.
  intros Kb. induction l as [|x l IH]; cbn [forOf]; [apply keeps_ret|].
  apply keeps_bind; [apply Kb | intros _; exact IH].
Qed.

(** Appending a callback, or a request that carries the cursor. *)
Lemma keeps_emit (o : Obs) :
  (forall c, o <> Fetch c) -> keeps (emit o).
Proof.
  intros NF s I. unfold cursorInvariant, cursorOk, emit in *. cbn.
  apply andb_true_iff in I as [I1 I2].
  rewrite I1, forallb_app, I2. cbn.
  destruct o as [c | | |]; [now destruct (NF c) | reflexivity ..].
Qed.

Lemma keeps_readClock : keeps readClock.
Proof. now intros s I. Qed.

Lemma keeps_setLastSeqId (v : json) :
  Js.truthy v = true -> keeps (setLastSeqId v).
Proof.
  intros T s I. unfold cursorInvariant, cursorOk, setLastSeqId in *. cbn.
  apply andb_true_iff in I as [_ I2]. now rewrite T, I2.
Qed.

Lemma keeps_deliver (parsed : option JobEvent) : keeps (deliver parsed).
Proof.
  destruct parsed as [e|]; cbn [deliver]; [|apply keeps_ret].
  apply keeps_emit. discriminate.
Qed.

Lemma keeps_eventOfRecord (record : json) (fallback : option json) :
  keeps (eventOfRecord record fallback).
Proof.
  assert (G : keeps (ts <- timestampOf record fallback ;;
                     ret (Some (mkJobEvent (stepIdOf record fallback)
                                          (messageOf record) (finishedOf record)
                                          ts
                                          (getEventType
                                             (stepIdOf record fallback)))))).
  { apply keeps_bind; [|intros ts; apply keeps_ret].
    unfold timestampOf. destruct (Js.firstTruthy _); [apply keeps_ret|].
    apply keeps_bind; [apply keeps_readClock | intros now; apply keeps_ret]. }
  destruct record; try exact G. apply keeps_throw.
Qed.

Lemma keeps_parseEventPayload (payload fallback : option json) :
  keeps (parseEventPayload payload fallback).
Proof.
  unfold parseEventPayload.
  destruct payload as [[| | |d| |]|];
    try apply keeps_ret; try apply keeps_eventOfRecord.
  destruct (negb _); [apply keeps_ret|].
  destruct (JSON_parse _); [apply keeps_eventOfRecord|].
  apply keeps_bind; [apply keeps_readClock | intros now; apply keeps_ret].
Qed.

Lemma keeps_emitSseEntry (entry : SseEntry) : keeps (emitSseEntry entry).
Proof.
  unfold emitSseEntry. cbv zeta.
  apply keeps_bind.
  - destruct (idTruthy (sse_id entry)) eqn:T; [|apply keeps_ret].
    destruct (sse_id entry) as [i|]; [|apply keeps_ret].
    apply keeps_setLastSeqId. exact T.
  - intros _. apply keeps_bind; [apply keeps_parseEventPayload|].
    intros ev. apply keeps_deliver.
Qed.

Lemma keeps_emitItem (entry : json) : keeps (emitItem entry).
Proof.
  assert (G : forall e,
             keeps (match Js.firstTruthy [Js.prop e "SeqID"; Js.prop e "seqId"] with
                    | Some seqId => setLastSeqId seqId
                    | None => ret tt
                    end ;;;
                    parsed <- parseEventPayload
                                (Some (Js.nullish (Js.prop e "data") e)) (Some e) ;;
                    deliver parsed)).
  { intros e. apply keeps_bind.
    - destruct (Js.firstTruthy _) as [v|] eqn:F; [|apply keeps_ret].
      apply keeps_setLastSeqId. exact (firstTruthy_truthy _ _ F).
    - intros _. apply keeps_bind; [apply keeps_parseEventPayload|].
      intros ev. apply keeps_deliver. }
  destruct entry; try apply G. apply keeps_throw.
Qed.

Lemma keeps_emitFromResponse (raw : json) : keeps (emitFromResponse raw).
Proof.
  assert (G : forall v, keeps (items <- itemsOf v ;; forOf emitItem items)).
  { intros v. apply keeps_bind.
    - unfold itemsOf. cbv zeta. destruct (Js.iterate _);
        [apply keeps_ret | apply keeps_throw].
    - intros items. apply keeps_forOf, keeps_emitItem. }
  destruct raw as [| | |text| |]; try apply G; [apply keeps_ret|].
  cbn [emitFromResponse]. cbv zeta.
  destruct (negb _); [apply keeps_ret|].
  destruct (looksLikeSse _).
  - apply keeps_forOf, keeps_emitSseEntry.
  - apply keeps_bind; [apply keeps_parseEventPayload|].
    intros ev. apply keeps_deliver.
Qed.

Lemma keeps_markConnected : keeps markConnected.
Proof.
  intros s I. unfold markConnected.
  destruct (hasConnected s); [exact I|].
  revert s I. apply keeps_bind; [now intros s I|].
  intros _. apply keeps_emit. discriminate.
Qed.

Lemma keeps_readText {body : BodyRead} : keeps (readText body).
Proof. destruct body; [apply keeps_ret | apply keeps_throw]. Qed.

Lemma keeps_pollBody (r : Reply) : keeps (pollBody r).
Proof.
  destruct r as [x | status body]; cbn [pollBody]; [apply keeps_throw|].
  destruct (status =? 204)%Z; [apply keeps_markConnected|].
  destruct (negb (ok status) && negb (status =? 101)%Z).
  - apply keeps_bind; [apply keeps_readText | intros t; apply keeps_throw].
  - apply keeps_bind; [apply keeps_markConnected | intros _].
    apply keeps_bind; [apply keeps_readText | intros text].
    destruct (negb _); [apply keeps_ret|].
    apply keeps_tryCatch; [|apply keeps_emitFromResponse].
    apply keeps_bind; [|intros v; apply keeps_emitFromResponse].
    unfold parseJson. destruct (JSON_parse text);
      [apply keeps_ret | apply keeps_throw].
Qed.

Lemma keeps_pollHead : keeps pollHead.
Proof.
  intros s I. unfold pollHead. destruct (aborted s); [exact I|].
  unfold cursorInvariant, cursorOk, emit in *. cbn.
  apply andb_true_iff in I as [I1 I2].
  rewrite I1, forallb_app, I2. cbn. now rewrite I1.
Qed.

Lemma keeps_pollCatch (x : JsError) : keeps (pollCatch x).
Proof.
  intros s I. unfold pollCatch. cbv zeta.
  destruct (negb _); [|exact I].
  apply (keeps_emit (OnError x)); [discriminate | exact I].
Qed.

Lemma step_cursorInvariant (s : Sub) (i : Input) :
  cursorInvariant s = true -> cursorInvariant (step s i) = true.
Proof.
  intros I. unfold step. destruct (running s).
  - destruct i as [r|].
    + pose proof (keeps_pollBody r s I) as K.
      destruct (pollBody r s) as [[u | x] s1]; cbn [snd] in K.
      * exact (keeps_pollHead s1 K).
      * exact (keeps_pollCatch x s1 K).
    + apply keeps_pollCatch. exact I.
  - destruct i; exact I.
Qed.

End CursorFacts.

(** X5. The cursor of a subscription is never set to a falsy value: over
    any sequence of replies and cancellations it is unset or truthy (so not
    the empty text, [null], [0] or [false]), and every request the loop has
    issued carried either no cursor or a truthy one. *)
Theorem cursor_is_unset_or_truthy `{Host} :
  forall script : list Input,
    let s := run subscribeToJobEvents script in
    cursorOk s = true /\ forallb requestOk (trace s) = true.
Proof.
  intros script. cbv zeta.
  apply andb_true_iff. fold (cursorInvariant (run subscribeToJobEvents script)).
  unfold run.
  assert (G : forall s, cursorInvariant s = true ->
                        cursorInvariant (fold_left step script s) = true).
  { induction script as [|i script IH]; intros s I; [exact I|].
    apply IH, step_cursorInvariant, I. }
  apply G. reflexivity.
Qed.

Section StepFacts.
Context `{Host}.

(** The loop body either throws before anything has changed, or goes
    through [markConnected] and then changes the state as the decoder
    does. *)
Lemma pollBody_cases (r : Reply) (s : Sub) :
  exists o,
    pollBody r s = (o, s) \/
    exists e, pollBody r s = (o, applyEffect e (connectedState s)).
Proof.
  destruct (markConnected_spec s) as (MC & _).
  destruct r as [x | status body]; cbn [pollBody].
  - exists (Throw x). now left.
  - destruct (status =? 204)%Z.
    + exists (Return tt). right. exists noEffect.
      now rewrite MC, applyEffect_noEffect.
    + destruct (negb (ok status) && negb (status =? 101)%Z).
      * destruct body as [text | x]; eexists; left; reflexivity.
      * destruct body as [text | x]; unfold bind, readText, ret, throw;
          rewrite MC; cbv beta iota.
        -- destruct (negb (Str.nonEmpty (Str.trim text))).
           ++ exists (Return tt). right. exists noEffect.
              now rewrite applyEffect_noEffect.
           ++ assert (R : related eq
                            (tryCatch (v <- parseJson text ;; emitFromResponse v)
                                      (emitFromResponse (JStr text)))
                            (tryCatch (v <- parseJson text ;; emitFromResponse v)
                                      (emitFromResponse (JStr text)))).
              { apply related_tryCatch; [|apply related_emitFromResponse].
                eapply related_bind with (RA := eq).
                - unfold parseJson. destruct (JSON_parse text);
                    [now apply related_ret | apply related_throw].
                - intros v ? <-. apply related_emitFromResponse. }
              destruct (effect_of_related eq _ (connectedState s) R)
                as (o & e & Q).
              exists o. right. exists e. exact Q.
        -- exists (Throw x). right. exists noEffect.
           now rewrite applyEffect_noEffect.
Qed.

(** What the loop body adds to the trace: the first-connect notification
    when this reply is the first one to connect, then events; and events
    only once connected. *)
Lemma pollBody_added (r : Reply) (s : Sub) :
  let s1 := snd (pollBody r s) in
  exists evs,
    trace s1
    = trace s
      ++ (if hasConnected s1 && negb (hasConnected s) then [OnComplete] else [])
      ++ map OnEvent evs /\
    (hasConnected s1 = false -> evs = []).
Proof.
  cbn zeta.
  destruct (markConnected_spec s) as (_ & M1 & _ & _ & _ & M5).
  destruct (pollBody_cases r s) as (o & [Q | (e & Q)]); rewrite Q; cbn [snd].
  - exists []. cbn [map]. destruct (hasConnected s); cbn; now rewrite app_nil_r.
  - exists (eff_events e).
    destruct (applyEffect_fields e (connectedState s)) as (A1 & _).
    rewrite A1, M1. cbn [andb]. split; [|discriminate].
    unfold applyEffect. cbn [trace]. rewrite M5, <- app_assoc.
    now destruct (hasConnected s).
Qed.

Lemma pollBody_connected (r : Reply) (s : Sub) :
  hasConnected s = true -> hasConnected (snd (pollBody r s)) = true.
Proof.
  intros C.
  destruct (pollBody_shape r s) as (o & e & [Q | Q]); rewrite Q; cbn [snd].
  - destruct (applyEffect_fields e s) as (A1 & _). now rewrite A1.
  - destruct (applyEffect_fields e (connectedState s)) as (A1 & _).
    destruct (markConnected_spec s) as (_ & M1 & _). now rewrite A1.
Qed.

(** One reply reaching a loop that runs: what the trace gains, and how the
    step ends: with the next request, carrying the cursor; with the fatal
    error; or silently, on an [AbortError]. *)
Lemma step_shape (r : Reply) (s : Sub) :
  running s = true -> aborted s = false ->
  let s' := step s (Arrives r) in
  exists evs tail,
    trace s'
    = trace s
      ++ (if hasConnected s' && negb (hasConnected s) then [OnComplete] else [])
      ++ map OnEvent evs ++ tail /\
    (hasConnected s' = false -> evs = []) /\
    (hasConnected s = true -> hasConnected s' = true) /\
    aborted s' = false /\
    ((tail = [Fetch (lastSeqId s')] /\ running s' = true) \/
     ((exists x, tail = [OnError x] /\ err_name x <> "AbortError")
      /\ running s' = false) \/
     (tail = [] /\ running s' = false)).
Proof.
  intros R A. cbn zeta. unfold step. rewrite R.
  destruct (pollBody_added r s) as (evs & T & E).
  pose proof (pollBody_connected r s) as C.
  pose proof (pollBody_fields r s) as (PA & PR & _). cbn zeta in *.
  destruct (pollBody r s) as [[u | x] s1]; cbn [snd] in *.
  - unfold pollHead. rewrite PA, A. cbn [snd emit trace hasConnected aborted
                                         running lastSeqId].
    exists evs, [Fetch (lastSeqId s1)].
    rewrite T, <- !app_assoc. rewrite PA, PR, A, R. auto 8.
  - unfold pollCatch. cbv zeta.
    destruct (negb (err_name x =? "AbortError")) eqn:N; cbn.
    + exists evs, [OnError x]. rewrite T, <- !app_assoc.
      rewrite PA, A. split; [reflexivity|]. split; [exact E|].
      split; [exact C|]. split; [reflexivity|]. right. left.
      split; [|reflexivity]. exists x. split; [reflexivity|].
      apply negb_true_iff in N. now apply String.eqb_neq in N.
    + exists evs, []. rewrite app_nil_r, T.
      rewrite PA, A. auto 8.
Qed.

Lemma connectFirst_app (t u : list Obs) :
  connectFirst t = true ->
  (0 < connects t \/ connectFirst u = true) ->
  connectFirst (t ++ u) = true.
Proof.
  induction t as [|o t IH]; cbn [app connectFirst connects]; intros F D.
  - destruct D as [D | D]; [inversion D | exact D].
  - destruct o; auto; discriminate.
Qed.

Lemma connectFirst_events_after (t pre post : list Obs) (e : JobEvent) :
  connectFirst t = true -> t = pre ++ OnEvent e :: post -> In OnComplete pre.
Proof.
  revert pre. induction t as [|o t IH]; intros pre F E.
  - destruct pre; discriminate.
  - destruct pre as [|p pre]; cbn [app] in E; injection E as -> ->.
    + discriminate.
    + destruct p as [c | ev | | x]; cbn [connectFirst] in F.
      * right. now apply IH.
      * discriminate.
      * now left.
      * right. now apply IH.
Qed.

Lemma connectFirst_no_events (tail : list Obs) :
  delivered tail = [] -> connectFirst tail = true.
Proof.
  induction tail as [|o tail IH]; [reflexivity|].
  destruct o; cbn; auto; discriminate.
Qed.

End StepFacts.

(** The state of a subscription that its invariants are about: a request is
    outstanding exactly while the loop runs, the first-connect callback
    precedes every event, and an error, if any, came last. *)
Section RunInvariants.
Context `{Host}.

Lemma step_not_running (s : Sub) (i : Input) :
  running s = false -> trace (step s i) = trace s /\ running (step s i) = false.
Proof. intros R. destruct (step_stopped s i R). auto. Qed.

Lemma run_request_outstanding (script : list Input) (s : Sub) :
  (running s = true ->
   aborted s = false /\ exists t, trace s = t ++ [Fetch (lastSeqId s)]) ->
  let s' := run s script in
  fetches (trace s') <= fetches (trace s) + replies script /\
  (running s' = true ->
   aborted s' = false /\
   fetches (trace s') = fetches (trace s) + List.length script /\
   exists t, trace s' = t ++ [Fetch (lastSeqId s')]).
Proof.
  cbn zeta. revert s. induction script as [|i script IH]; intros s J.
  - cbn [run fold_left replies filter List.length]. split; [lia|].
    intros R. destruct (J R) as (A & t & T). rewrite Nat.add_0_r. eauto.
  - change (run s (i :: script)) with (run (step s i) script).
    destruct (running s) eqn:R.
    + destruct (J eq_refl) as (A & t & T).
      destruct i as [r|].
      * destruct (step_shape r s R A)
          as (evs & tail & T' & _ & _ & A' & [[-> R'] | [[X R'] | [-> R']]]).
        -- assert (F : fetches (trace (step s (Arrives r)))
                       = S (fetches (trace s))).
           { rewrite T', !fetches_app.
             destruct (events_only evs) as (_ & _ & ->).
             destruct (_ && _); cbn; lia. }
           destruct (IH (step s (Arrives r))) as [I1 I2].
           { intros _. split; [exact A'|].
             eexists. rewrite T' at 1. rewrite !app_assoc. reflexivity. }
           unfold replies in *. cbn [filter List.length]. split; [lia|].
           intros Q. destruct (I2 Q) as (B1 & B2 & B3).
           split; [exact B1|]. split; [lia | exact B3].
        -- destruct X as (x & -> & _).
           destruct (run_stopped script _ R') as [Q1 Q2].
           rewrite Q1, Q2. split; [|discriminate].
           rewrite T', !fetches_app.
           destruct (events_only evs) as (_ & _ & ->).
           destruct (_ && _); cbn; lia.
        -- destruct (run_stopped script _ R') as [Q1 Q2].
           rewrite Q1, Q2. split; [|discriminate].
           rewrite T', !fetches_app.
           destruct (events_only evs) as (_ & _ & ->).
           destruct (_ && _); cbn; lia.
      * destruct (step_cancel s) as [R' T'].
        destruct (run_stopped script _ R') as [Q1 Q2].
        rewrite Q1, Q2, T'. split; [lia | discriminate].
    + destruct (step_not_running s i R) as [T' R'].
      destruct (run_stopped script _ R') as [Q1 Q2].
      rewrite Q1, Q2, T'. split; [lia | discriminate].
Qed.

Lemma run_error_last (script : list Input) (s : Sub) :
  (running s = true -> aborted s = false /\ errors (trace s) = []) ->
  (running s = false ->
   errors (trace s) = [] \/
   exists t x, trace s = t ++ [OnError x] /\ errors t = []
               /\ err_name x <> "AbortError") ->
  let s' := run s script in
  errors (trace s') = [] \/
  (running s' = false /\
   exists t x, trace s' = t ++ [OnError x] /\ errors t = []
               /\ err_name x <> "AbortError").
Proof.
  cbn zeta. revert s. induction script as [|i script IH]; intros s J1 J2.
  - cbn [run fold_left]. destruct (running s) eqn:R.
    + left. now apply J1.
    + destruct (J2 eq_refl) as [E | E]; [now left | right; auto].
  - change (run s (i :: script)) with (run (step s i) script).
    destruct (running s) eqn:R.
    + destruct (J1 eq_refl) as (A & E).
      destruct i as [r|].
      * destruct (step_shape r s R A)
          as (evs & tail & T' & _ & _ & A' & [[-> R'] | [[X R'] | [-> R']]]).
        -- apply IH; [|rewrite R'; discriminate].
           intros _. split; [exact A'|].
           rewrite T', !errors_app, E.
           destruct (events_only evs) as (_ & -> & _).
           now destruct (_ && _).
        -- destruct X as (x & -> & N).
           apply IH; [rewrite R'; discriminate|].
           intros _. right.
           exists (trace s
                   ++ (if hasConnected (step s (Arrives r))
                          && negb (hasConnected s)
                       then [OnComplete] else [])
                   ++ map OnEvent evs), x.
           split; [rewrite T'; now rewrite <- !app_assoc|].
           split; [|exact N].
           rewrite !errors_app, E.
           destruct (events_only evs) as (_ & -> & _).
           now destruct (_ && _).
        -- apply IH; [rewrite R'; discriminate|].
           intros _. left. rewrite T', !errors_app, E.
           destruct (events_only evs) as (_ & -> & _).
           now destruct (_ && _).
      * destruct (step_cancel s) as [R' T'].
        apply IH; [rewrite R'; discriminate|].
        intros _. left. now rewrite T'.
    + destruct (step_not_running s i R) as [T' R'].
      apply IH; [rewrite R'; discriminate|].
      intros _. rewrite T'. now apply J2.
Qed.

Lemma run_connectFirst (script : list Input) (s : Sub) :
  (running s = true -> aborted s = false) ->
  connectFirst (trace s) = true ->
  (hasConnected s = true -> 0 < connects (trace s)) ->
  connectFirst (trace (run s script)) = true.
Proof.
  revert s. induction script as [|i script IH]; intros s J F C; [exact F|].
  change (run s (i :: script)) with (run (step s i) script).
  destruct (running s) eqn:R.
  - specialize (J eq_refl). destruct i as [r|].
    + destruct (step_shape r s R J)
        as (evs & tail & T' & E & K & A' & D).
      assert (NT : delivered tail = []).
      { destruct D as [[-> _] | [[(x & -> & _) _] | [-> _]]]; reflexivity. }
      apply IH.
      * intros _. exact A'.
      * rewrite T'. apply connectFirst_app; [exact F|].
        destruct (hasConnected s) eqn:HS.
        -- left. now apply C.
        -- right. cbn [negb]. rewrite andb_true_r.
           destruct (hasConnected (step s (Arrives r))) eqn:HS'.
           ++ reflexivity.
           ++ rewrite (E eq_refl). cbn [map app].
              now apply connectFirst_no_events.
      * intros HS'. rewrite T', !connects_app.
        destruct (hasConnected s) eqn:HS.
        -- specialize (C eq_refl). lia.
        -- rewrite HS'. cbn. lia.
    + destruct (step_cancel s) as [R' T'].
      destruct (run_stopped script _ R') as [_ Q2]. now rewrite Q2, T'.
  - destruct (step_not_running s i R) as [T' R'].
    destruct (run_stopped script _ R') as [_ Q2]. now rewrite Q2, T'.
Qed.

End RunInvariants.

(** X6. The loop keeps exactly one request in flight. Over any sequence of
    replies and cancellations, at most one request is issued per reply
    received, after the first; and while the loop still runs, every reply
    was followed by exactly one new request, the last thing the loop did was
    to issue a request, and that request carries the cursor as it is now. *)
Theorem one_request_per_reply `{Host} :
  forall script : list Input,
    let s := run subscribeToJobEvents script in
    fetches (trace s) <= 1 + replies script /\
    (running s = true ->
     fetches (trace s) = 1 + List.length script /\
     exists t, trace s = t ++ [Fetch (lastSeqId s)]).
Proof.
  intros script. cbn zeta.
  destruct (run_request_outstanding script subscribeToJobEvents) as [I1 I2].
  { intros _. split; [reflexivity|]. now exists []. }
  split; [exact I1|].
  intros R. destruct (I2 R) as (_ & F & T). auto.
Qed.

(** X7. The fatal-error callback ends a subscription: over any sequence of
    replies and cancellations it is invoked at most once, never with an
    [AbortError], and when it is invoked it is the last thing the
    subscription ever does: the loop has stopped, and no request and no
    callback follows. *)
Theorem fatal_error_is_the_last_callback `{Host} :
  forall script : list Input,
    let s := run subscribeToJobEvents script in
    List.length (errors (trace s)) <= 1 /\
    (forall x, In x (errors (trace s)) ->
               running s = false /\
               err_name x <> "AbortError" /\
               exists t, trace s = t ++ [OnError x]).
Proof.
  intros script. cbn zeta.
  destruct (run_error_last script subscribeToJobEvents) as [E | (R & t & x & T & E & N)].
  { intros _. split; reflexivity. }
  { discriminate. }
  - rewrite E. split; [cbn; lia | intros x []].
  - rewrite T, errors_app, E. cbn. split; [lia|].
    intros y [<- | []]. split; [exact R|]. split; [exact N|]. now exists t.
Qed.

(** X8. No event is delivered before the subscription has reported its
    first connection: in the trace of any run, every [onEvent] call comes
    after the [onComplete] call. *)
Theorem first_connect_precedes_every_event `{Host} :
  forall (script : list Input) (pre post : list Obs) (e : JobEvent),
    trace (run subscribeToJobEvents script) = pre ++ OnEvent e :: post ->
    In OnComplete pre.
Proof.
  intros script pre post e T.
  apply (connectFirst_events_after
           (trace (run subscribeToJobEvents script)) pre post e); [|exact T].
  apply run_connectFirst; [reflexivity | reflexivity | discriminate].
Qed.

Lemma first_connect_precedes_witness :
  let script := [Arrives (Response 200 (BodyText "hello"))] in
  let e := mkJobEvent (JStr "unknown") (JStr "hello") (JBool false)
                      (DateAt 1700000000000) unknown in
  trace (run (H := Ref.host) subscribeToJobEvents script)
  = [Fetch None; OnComplete] ++ OnEvent e :: [Fetch None] /\
  In OnComplete [Fetch None; OnComplete].
Proof.
  split; [reflexivity|].
  apply (first_connect_precedes_every_event
           (H := Ref.host)
           [Arrives (Response 200 (BodyText "hello"))]
           [Fetch None; OnComplete] [Fetch None]
           (mkJobEvent (JStr "unknown") (JStr "hello") (JBool false)
                       (DateAt 1700000000000) unknown)).
  reflexivity.
Defined.

(* ------------------------------------------------------------------ *)
(** ** The Jobs API calls and the status poll *)

Section ApiFacts.
Context `{Host}.

Lemma nullish_not_null (a : option json) (b : json) :
  b <> JNull -> Js.nullish a b <> JNull.
Proof.
  intros N. unfold Js.nullish. destruct a as [[]|]; try exact N; discriminate.
Qed.

Lemma released_after_cleanup (h h' : Hook.State) :
  Hook.owned h = true ->
  Hook.sameResources (Hook.cleanup h) h' ->
  released h'.
Proof.
  intros O (S1 & S2 & _ & S4 & S5).
  destruct (cleanup_spec h) as (_ & _ & _ & C4 & C5 & _ & _ & C8).
  cbn zeta in *. destruct (C8 O) as [T A].
  unfold released. now rewrite S1, S2, S4, S5.
Qed.

Lemma has_terminalSuccess (n : string) :
  Hook.has Hook.terminalSuccess n = true ->
  n = "success" \/ n = "complete" \/ n = "succeeded".
Proof.
  unfold Hook.has, Hook.terminalSuccess. cbn [existsb].
  rewrite !orb_true_iff, !String.eqb_eq. intuition discriminate.
Qed.

Lemma has_terminalError (n : string) :
  Hook.has Hook.terminalError n = true -> n = "error" \/ n = "failed".
Proof.
  unfold Hook.has, Hook.terminalError. cbn [existsb].
  rewrite !orb_true_iff, !String.eqb_eq. intuition discriminate.
Qed.

Lemma pollOnce_success (job : Hook.JobRead) (h : Hook.State) :
  Hook.has Hook.terminalSuccess (Str.toLowerCase (Hook.job_status job)) = true ->
  Hook.pollOnce job h
  = Hook.setStatus Hook.Success (Hook.finalizeAssistant (Hook.cleanup h)).
Proof.
  intros E. unfold Hook.pollOnce. cbv zeta.
  destruct (has_terminalSuccess _ E) as [-> | [-> | ->]]; reflexivity.
Qed.

Lemma pollOnce_failed (job : Hook.JobRead) (h : Hook.State) :
  Hook.has Hook.terminalError (Str.toLowerCase (Hook.job_status job)) = true ->
  Hook.pollOnce job h
  = Hook.setError
      (Some (match Hook.errorMessage job with
             | Some m =>
                 if Str.nonEmpty m then m
                 else ("Chat job " ++ Str.toLowerCase (Hook.job_status job))%string
             | None => ("Chat job " ++ Str.toLowerCase (Hook.job_status job))%string
             end))
      (Hook.setStatus Hook.Error (Hook.finalizeAssistant (Hook.cleanup h))).
Proof.
  intros E. unfold Hook.pollOnce. cbv zeta.
  destruct (has_terminalError _ E) as [-> | ->]; reflexivity.
Qed.


End ApiFacts.

(** X9. [readJob] resolves only for a reply whose status is a success and
    whose body was read, and the status it resolves with is never [null]:
    with an empty body, or a JSON object whose [status] member is missing
    or [null], the status reads as the text [unknown]; otherwise it is the
    [status] member as it is. *)
Theorem readJob_status_is_never_null `{Host} :
  forall (r : Reply) (job : Api.JobRead),
    Api.readJob r = Return job ->
    exists status text,
      r = Response status (BodyText text) /\
      ok status = true /\
      Api.status job <> JNull /\
      (text = "" ->
       Api.status job = JStr "unknown" /\ Api.errorMessage job = None) /\
      (forall ms,
          text <> "" ->
          JSON_parse text = Some (JObj ms) ->
          Api.status job
          = match Js.assoc "status" ms with
            | None | Some JNull => JStr "unknown"
            | Some v => v
            end).
Proof.
  intros r job. unfold Api.readJob.
  destruct r as [x | status [text | x]]; try discriminate.
  destruct (ok status) eqn:O; cbn [negb]; [|discriminate].
  destruct (if Str.nonEmpty text then JSON_parse text else Some (JObj []))
    as [data|] eqn:P; [|discriminate].
  intros Q.
  assert (J : job = Api.mkJobRead
                      (Js.nullish (Js.prop data "status") (JStr "unknown"))
                      (Api.orElse (Js.prop data "error-message")
                         (Api.orElse (Js.prop data "error_message")
                                     (Js.prop data "errorMessage")))
                      (Api.orElse (Js.prop data "finished-at")
                         (Api.orElse (Js.prop data "finished_at")
                                     (Js.prop data "finishedAt")))).
  { destruct data; try discriminate; congruence. }
  subst job. cbn [Api.status Api.errorMessage].
  exists status, text. split; [reflexivity|]. split; [exact O|].
  split; [apply nullish_not_null; discriminate|]. split.
  - intros ->. cbn in P. injection P as <-. split; reflexivity.
  - intros ms NE P'.
    assert (T : Str.nonEmpty text = true).
    { unfold Str.nonEmpty. apply negb_true_iff. now apply String.eqb_neq. }
    rewrite T, P' in P. injection P as <-. cbn [Js.prop].
    now destruct (Js.assoc "status" ms) as [[]|].
Qed.

Lemma readJob_status_witness :
  let r := Response 200 (BodyText (Ref.q "{'status':null,'error-message':'x'}")) in
  let job := Api.mkJobRead (JStr "unknown") (Some (JStr "x")) None in
  Api.readJob (H := Ref.host) r = Return job /\
  exists status text,
    r = Response status (BodyText text) /\
    ok status = true /\
    Api.status job <> JNull /\
    (text = "" ->
     Api.status job = JStr "unknown" /\ Api.errorMessage job = None) /\
    (forall ms,
        text <> "" ->
        JSON_parse (Host := Ref.host) text = Some (JObj ms) ->
        Api.status job
        = match Js.assoc "status" ms with
          | None | Some JNull => JStr "unknown"
          | Some v => v
          end).
Proof.
  split; [reflexivity|].
  apply (readJob_status_is_never_null (H := Ref.host)). reflexivity.
Defined.

(** X10. [createJob] never resolves with a falsy job id. It resolves only
    for a reply whose status is a success, with the first truthy of the
    members [id], [job-id] and [job_id] of the response; when the response
    is an object none of whose three members is truthy, it rejects with the
    message that the job id is missing. *)
Theorem createJob_id_is_truthy `{Host} :
  (forall (r : Reply) (jobId : json),
      Api.createJob r = Return jobId ->
      Js.truthy jobId = true /\
      exists status text result,
        r = Response status (BodyText text) /\ ok status = true /\
        JSON_parse text = Some result /\
        Js.firstTruthy [ Js.prop result "id"; Js.prop result "job-id";
                         Js.prop result "job_id" ] = Some jobId) /\
  (forall (status : Z) (text : string) (ms : list (string * json)),
      ok status = true ->
      JSON_parse text = Some (JObj ms) ->
      Js.firstTruthy [ Js.assoc "id" ms; Js.assoc "job-id" ms;
                       Js.assoc "job_id" ms ] = None ->
      Api.createJob (Response status (BodyText text))
      = Throw (PlainError "Job creation response missing job ID")).
Proof.
  split.
  - intros r jobId. unfold Api.createJob.
    destruct r as [x | status [text | x]]; try discriminate.
    destruct (ok status) eqn:O; cbn [negb]; [|discriminate].
    destruct (JSON_parse text) as [result|] eqn:P; [|discriminate].
    assert (G : match Js.firstTruthy [ Js.prop result "id";
                                       Js.prop result "job-id";
                                       Js.prop result "job_id" ] with
                | Some v => Return v
                | None => Throw (PlainError "Job creation response missing job ID")
                end = Return jobId ->
                Js.truthy jobId = true /\
                exists status0 text0 result0,
                  Response status (BodyText text)
                  = Response status0 (BodyText text0) /\
                  ok status0 = true /\
                  JSON_parse text0 = Some result0 /\
                  Js.firstTruthy [ Js.prop result0 "id"; Js.prop result0 "job-id";
                                   Js.prop result0 "job_id" ] = Some jobId).
    { destruct (Js.firstTruthy _) as [v|] eqn:F; [|discriminate].
      intros [= <-]. split; [exact (firstTruthy_truthy _ _ F)|].
      now exists status, text, result. }
    destruct result; try exact G. discriminate.
  - intros status text ms O P F. unfold Api.createJob.
    rewrite O, P. cbn [negb Js.prop]. now rewrite F.
Qed.

Lemma createJob_id_witness :
  let r := Response 201 (BodyText (Ref.q "{'id':'','job-id':'j-1','job_id':'j-2'}")) in
  Api.createJob (H := Ref.host) r = Return (JStr "j-1") /\
  Js.truthy (JStr "j-1") = true.
Proof.
  split; [reflexivity|].
  exact (proj1 (proj1 (createJob_id_is_truthy (H := Ref.host))
                      (Response 201
                         (BodyText (Ref.q "{'id':'','job-id':'j-1','job_id':'j-2'}")))
                      (JStr "j-1") eq_refl)).
Defined.
Section TickFacts.
Context `{Host}.

Lemma has_success_not_error (n : string) :
  Hook.has Hook.terminalSuccess n = true ->
  Hook.has Hook.terminalError n = false.
Proof.
  intros E. destruct (has_terminalSuccess n E) as [-> | [-> | ->]]; reflexivity.
Qed.

(** The state after a handler that is [cleanup], the finalization of the
    placeholder and updates of the React state: the handles are dropped in
    any state, and nothing is left active when the controller held all
    there was. *)
Lemma ended_run (h : Hook.State) (st : Hook.ChatRunStatus) (e : option string) :
  let h' := Hook.setError e
              (Hook.setStatus st (Hook.finalizeAssistant (Hook.cleanup h))) in
  Hook.status h' = st /\ Hook.error h' = e /\
  Hook.abortRef h' = None /\ Hook.pollRef h' = None /\
  (Hook.owned h = true -> released h').
Proof.
  cbv zeta.
  destruct (cleanup_spec h) as (_ & _ & _ & C4 & C5 & _). cbv zeta in C4, C5.
  split; [|split; [|split; [|split]]].
  - unfold Hook.finalizeAssistant.
    destruct (Hook.assistantIdRef _); reflexivity.
  - unfold Hook.finalizeAssistant.
    destruct (Hook.assistantIdRef _); reflexivity.
  - unfold Hook.finalizeAssistant.
    destruct (Hook.assistantIdRef _); cbn; exact C4.
  - unfold Hook.finalizeAssistant.
    destruct (Hook.assistantIdRef _); cbn; exact C5.
  - intros O. apply (released_after_cleanup h); [exact O|]. resources.
Qed.

(** The same for the rejection handler of the timer's status read, which
    updates the state before it cleans up. *)
Lemma poll_error_ends_run (message : string) (h : Hook.State) :
  let h' := Hook.onPollError message h in
  Hook.status h' = Hook.Error /\ Hook.error h' = Some message /\
  Hook.abortRef h' = None /\ Hook.pollRef h' = None /\
  (Hook.owned h = true -> released h').
Proof.
  cbv zeta. destruct (onPollError_spec message h) as [S E].
  split; [exact S|]. split; [exact E|].
  unfold Hook.onPollError. cbv zeta.
  destruct (cleanup_spec
              (Hook.setStatus Hook.Error (Hook.setError (Some message) h)))
    as (_ & _ & _ & C4 & C5 & _). cbv zeta in C4, C5.
  split; [|split].
  - unfold Hook.finalizeAssistant.
    destruct (Hook.assistantIdRef _); cbn; exact C4.
  - unfold Hook.finalizeAssistant.
    destruct (Hook.assistantIdRef _); cbn; exact C5.
  - intros O.
    apply (released_after_cleanup
             (Hook.setStatus Hook.Error (Hook.setError (Some message) h)));
      [exact O | resources].
Qed.

End TickFacts.

(** X11. When the status read of the poll timer fails, in whatever way
    [readJob] rejects, the controller ends the run, in any state: the
    status is [error], the error field holds the message of the rejection,
    and the handles are dropped. In every state of every run in which one
    submission is pending at a time, nothing is left behind: no active
    timer, no running subscription. In particular a reply whose status is
    not a success gives the message [Job read failed: <status> - <body>],
    and a successful reply whose body is not empty and is rejected by
    [JSON.parse] gives the message of the engine's syntax error. *)
Theorem failed_status_read_ends_the_run `{Host} :
  forall (isChatTokenEvent : JobEvent -> bool)
         (getChatTokenText : JobEvent -> string)
         (h : Hook.State) (r : Reply) (x : JsError),
    Api.readJob r = Throw x ->
    (exists h',
        Chat.tick r h = Chat.Settled h' /\
        Hook.status h' = Hook.Error /\
        Hook.error h' = Some (err_message x) /\
        Hook.abortRef h' = None /\
        Hook.pollRef h' = None /\
        (forall p : Hook.Pending,
            Hook.reachable isChatTokenEvent getChatTokenText (p, h) ->
            released h')) /\
    (forall (status : Z) (text : string),
        r = Response status (BodyText text) ->
        (ok status = false ->
         err_message x
         = ("Job read failed: " ++ Str.ofZ status ++ " - " ++ text)%string) /\
        (ok status = true -> Str.nonEmpty text = true ->
         JSON_parse text = None ->
         err_message x = JSON_message text)).
Proof.
  intros isTok tokText h r x Q. split.
  - exists (Hook.onPollError (err_message x) h).
    destruct (poll_error_ends_run (err_message x) h) as (S & E & A & P & Rl).
    cbv zeta in *.
    split; [unfold Chat.tick; now rewrite Q|].
    split; [exact S|]. split; [exact E|]. split; [exact A|]. split; [exact P|].
    intros p Rc.
    destruct (reachable_invariant isTok tokText (p, h) Rc) as (O & _).
    exact (Rl O).
  - intros status text ->. unfold Api.readJob in Q. split.
    + intros B. rewrite B in Q. cbn [negb] in Q. now injection Q as <-.
    + intros B T P. rewrite B, T, P in Q. cbn [negb] in Q.
      now injection Q as <-.
Qed.

Lemma failed_status_read_witness :
  let isTok := fun e : JobEvent =>
                 match type e with chatToken => true | _ => false end in
  let tokText := fun e : JobEvent =>
                   match message e with JStr t => t | _ => "" end in
  let h := midStream (H := Ref.host) in
  let r := Response 200 (BodyText "  ") in
  Api.readJob (H := Ref.host) r
  = Throw (SyntaxError "Unexpected end of JSON input") /\
  Hook.timers h = [2] /\
  exists h',
    Chat.tick (H := Ref.host) r h = Chat.Settled h' /\
    Hook.status h' = Hook.Error /\
    Hook.error h' = Some "Unexpected end of JSON input" /\
    released h'.
Proof.
  cbv zeta.
  assert (Rc : Hook.reachable
                 (H := Ref.host)
                 (fun e : JobEvent =>
                    match type e with chatToken => true | _ => false end)
                 (fun e : JobEvent =>
                    match message e with JStr t => t | _ => "" end)
                 (Hook.NoSubmit, midStream (H := Ref.host))).
  { eapply Hook.AfterStep;
      [eapply Hook.AfterStep;
       [eapply Hook.AfterStep;
        [apply Hook.AtStart
        |eapply Hook.Submits with (prompt := "hello"); reflexivity]
       |apply Hook.JobCreated with (createdJobId := "job-1")]
      |exact (Hook.FirstPollRead _ _ _ (Hook.mkJobRead "running" None))]. }
  split; [reflexivity|]. split; [reflexivity|].
  destruct (failed_status_read_ends_the_run
              (H := Ref.host)
              (fun e : JobEvent =>
                 match type e with chatToken => true | _ => false end)
              (fun e : JobEvent =>
                 match message e with JStr t => t | _ => "" end)
              (midStream (H := Ref.host))
              (Response 200 (BodyText "  "))
              (SyntaxError "Unexpected end of JSON input") eq_refl)
    as ((h' & T & S & E & _ & _ & Rl) & _).
  exists h'. split; [exact T|]. split; [exact S|]. split; [exact E|].
  exact (Rl Hook.NoSubmit Rc).
Defined.



(** X13. The terminal statuses are recognised whatever their letter case,
    in any state. When the status [readJob] resolves with, in lower case,
    is [success], [complete] or [succeeded], the controller sets the status
    to [success], leaves the error field as it is and drops its handles.
    When it is [error] or [failed], the controller sets the status to
    [error], drops its handles, and records the error message of the job
    when that is truthy: the text itself when it is a text that is not
    empty, and the value as it is when it is a truthy value that is not a
    text; it records [Chat job <status>] when the message is missing, null,
    the empty text or otherwise falsy. In every state of every run in which
    one submission is pending at a time, no active timer and no running
    subscription is left in either case. *)
Theorem terminal_job_status_ends_the_run `{Host} :
  forall (isChatTokenEvent : JobEvent -> bool)
         (getChatTokenText : JobEvent -> string)
         (h : Hook.State) (r : Reply) (job : Api.JobRead),
    Api.readJob r = Return job ->
    let normalized := Str.toLowerCase (Chat.statusText (Api.status job)) in
    (Hook.has Hook.terminalSuccess normalized = true ->
     exists h',
       Chat.tick r h = Chat.Settled h' /\
       Hook.status h' = Hook.Success /\
       Hook.error h' = Hook.error h /\
       Hook.abortRef h' = None /\
       Hook.pollRef h' = None /\
       (forall p : Hook.Pending,
           Hook.reachable isChatTokenEvent getChatTokenText (p, h) ->
           released h')) /\
    (Hook.has Hook.terminalError normalized = true ->
     exists h',
       Hook.status h' = Hook.Error /\
       Hook.abortRef h' = None /\
       Hook.pollRef h' = None /\
       (forall p : Hook.Pending,
           Hook.reachable isChatTokenEvent getChatTokenText (p, h) ->
           released h') /\
       match Api.errorMessage job with
       | Some (JStr text) =>
           Chat.tick r h = Chat.Settled h' /\
           Hook.error h'
           = Some (if Str.nonEmpty text then text
                   else ("Chat job " ++ normalized)%string)
       | Some v =>
           if Js.truthy v
           then Chat.tick r h = Chat.SettledWith v h'
           else Chat.tick r h = Chat.Settled h' /\
                Hook.error h' = Some ("Chat job " ++ normalized)%string
       | None =>
           Chat.tick r h = Chat.Settled h' /\
           Hook.error h' = Some ("Chat job " ++ normalized)%string
       end).
Proof.
  intros isTok tokText h r job Q. cbv zeta.
  assert (Rel : forall h',
             (Hook.owned h = true -> released h') ->
             forall p, Hook.reachable isTok tokText (p, h) -> released h').
  { intros h' Rl p Rc.
    destruct (reachable_invariant isTok tokText (p, h) Rc) as (O & _).
    exact (Rl O). }
  split.
  - intros E. unfold Chat.tick. rewrite Q. cbv zeta.
    rewrite (has_success_not_error _ E).
    eexists. split; [reflexivity|].
    rewrite (pollOnce_success
               (Hook.mkJobRead (Chat.statusText (Api.status job)) None) h E).
    destruct (cleanup_spec h) as (_ & C2 & _ & C4 & C5 & _). cbv zeta in *.
    split; [reflexivity|]. split; [|split; [|split]].
    + unfold Hook.finalizeAssistant.
      destruct (Hook.assistantIdRef _); cbn; exact C2.
    + unfold Hook.finalizeAssistant.
      destruct (Hook.assistantIdRef _); cbn; exact C4.
    + unfold Hook.finalizeAssistant.
      destruct (Hook.assistantIdRef _); cbn; exact C5.
    + apply Rel. intros O.
      apply (released_after_cleanup h); [exact O | resources].
  - intros E. unfold Chat.tick. rewrite Q. cbv zeta. rewrite E.
    assert (G : forall m : option string,
               let h' := Hook.pollOnce
                           (Hook.mkJobRead (Chat.statusText (Api.status job)) m)
                           h in
               Hook.status h' = Hook.Error /\
               Hook.abortRef h' = None /\
               Hook.pollRef h' = None /\
               (forall p, Hook.reachable isTok tokText (p, h) -> released h') /\
               Hook.error h'
               = Some (match m with
                       | Some text =>
                           if Str.nonEmpty text then text
                           else ("Chat job "
                                 ++ Str.toLowerCase
                                      (Chat.statusText (Api.status job)))%string
                       | None =>
                           ("Chat job "
                            ++ Str.toLowerCase
                                 (Chat.statusText (Api.status job)))%string
                       end)).
    { intros m. cbv zeta.
      rewrite (pollOnce_failed
                 (Hook.mkJobRead (Chat.statusText (Api.status job)) m) h E).
      cbn [Hook.errorMessage Hook.job_status].
      destruct (ended_run h Hook.Error
                  (Some (match m with
                         | Some text =>
                             if Str.nonEmpty text then text
                             else ("Chat job "
                                   ++ Str.toLowerCase
                                        (Chat.statusText (Api.status job)))%string
                         | None =>
                             ("Chat job "
                              ++ Str.toLowerCase
                                   (Chat.statusText (Api.status job)))%string
                         end)))
        as (S & Er & A & P & Rl).
      cbv zeta in *.
      split; [exact S|]. split; [exact A|]. split; [exact P|].
      split; [|exact Er]. intros p Rc. now apply (Rel _ Rl p). }
    destruct (Api.errorMessage job) as [v|]; cbn [Chat.errorText].
    + destruct v as [| b | n | text | l | ms];
        try (destruct (G None) as (S & A & P & Rl & Er);
             destruct (Js.truthy _); eexists; eauto 10).
      destruct (G (Some text)) as (S & A & P & Rl & Er). eexists. eauto 10.
    + destruct (G None) as (S & A & P & Rl & Er). eexists. eauto 10.
Qed.

Lemma terminal_job_status_witness :
  let isTok := fun e : JobEvent =>
                 match type e with chatToken => true | _ => false end in
  let tokText := fun e : JobEvent =>
                   match message e with JStr t => t | _ => "" end in
  let h := midStream (H := Ref.host) in
  let r := Response 200
             (BodyText (Ref.q "{'status':'Failed','error_message':{'code':7}}")) in
  let job := Api.mkJobRead (JStr "Failed")
                           (Some (JObj [("code", JNum 7)])) None in
  (Api.readJob (H := Ref.host) r = Return job /\
   Hook.has Hook.terminalError
            (Str.toLowerCase (Chat.statusText (Api.status job))) = true) /\
  exists h',
    Chat.tick (H := Ref.host) r h
    = Chat.SettledWith (JObj [("code", JNum 7)]) h' /\
    Hook.status h' = Hook.Error /\
    released h'.
Proof.
  cbv zeta.
  assert (Rc : Hook.reachable
                 (H := Ref.host)
                 (fun e : JobEvent =>
                    match type e with chatToken => true | _ => false end)
                 (fun e : JobEvent =>
                    match message e with JStr t => t | _ => "" end)
                 (Hook.NoSubmit, midStream (H := Ref.host))).
  { eapply Hook.AfterStep;
      [eapply Hook.AfterStep;
       [eapply Hook.AfterStep;
        [apply Hook.AtStart
        |eapply Hook.Submits with (prompt := "hello"); reflexivity]
       |apply Hook.JobCreated with (createdJobId := "job-1")]
      |exact (Hook.FirstPollRead _ _ _ (Hook.mkJobRead "running" None))]. }
  split; [split; reflexivity|].
  destruct (proj2 (terminal_job_status_ends_the_run
                     (H := Ref.host)
                     (fun e : JobEvent =>
                        match type e with chatToken => true | _ => false end)
                     (fun e : JobEvent =>
                        match message e with JStr t => t | _ => "" end)
                     (midStream (H := Ref.host))
                     (Response 200
                        (BodyText
                           (Ref.q "{'status':'Failed','error_message':{'code':7}}")))
                     (Api.mkJobRead (JStr "Failed")
                                    (Some (JObj [("code", JNum 7)])) None)
                     eq_refl)
                  eq_refl)
    as (h' & S & _ & _ & Rl & T).
  exists h'. split; [exact T|]. split; [exact S|].
  exact (Rl Hook.NoSubmit Rc).
Defined.

(* ------------------------------------------------------------------ *)
(** ** The transcript *)

Section TranscriptFacts.

Lemma trim_idempotent (s : string) : Str.trim (Str.trim s) = Str.trim s.
Proof.
  unfold Str.trim at 2. now rewrite trim_trimEnd, trim_trimStart.
Qed.

Lemma length_positive (s : string) :
  (0 <? String.length s)%nat = Str.nonEmpty s.
Proof. now destruct s. Qed.

Lemma concat_empty_cons (t : string) (ts : list string) :
  String.concat "" (t :: ts) = (t ++ String.concat "" ts)%string.
Proof.
  destruct ts as [|u ts]; cbn [String.concat].
  - now rewrite append_empty_r.
  - reflexivity.
Qed.

Lemma asChatMessages_cons (m : Hook.UIMessage) (ms : list Hook.UIMessage) :
  Chat.asChatMessages (m :: ms)
  = (if Str.nonEmpty (Str.trim (Chat.getMessageText m))
     then [Chat.mkChatMessage (Hook.role m) (Chat.getMessageText m)]
     else [])
    ++ Chat.asChatMessages ms.
Proof.
  unfold Chat.asChatMessages. cbn [filter].
  assert (R : Chat.chatRole (Hook.role m) = true) by now destruct (Hook.role m).
  rewrite R. cbn [map filter Chat.content]. rewrite length_positive.
  now destruct (Str.nonEmpty _).
Qed.

Lemma asChatMessages_app (a b : list Hook.UIMessage) :
  Chat.asChatMessages (a ++ b)
  = Chat.asChatMessages a ++ Chat.asChatMessages b.
Proof.
  induction a as [|m a IH]; [reflexivity|].
  cbn [app]. now rewrite !asChatMessages_cons, IH, app_assoc.
Qed.

End TranscriptFacts.

(** X14. [asChatMessages] keeps exactly the messages whose text is not
    blank, in their order, each with its role and its text (the texts of its
    text parts, concatenated): a message without text, such as an assistant
    placeholder that never received a token, is not sent; and no chat
    message it returns has a blank content. *)
Theorem asChatMessages_keeps_the_messages_with_text :
  forall messages : list Hook.UIMessage,
    Chat.asChatMessages messages
    = map (fun m => Chat.mkChatMessage (Hook.role m) (Chat.getMessageText m))
          (filter (fun m => Str.nonEmpty (Str.trim (Chat.getMessageText m)))
                  messages) /\
    Forall (fun c => Str.trim (Chat.content c) <> "")
           (Chat.asChatMessages messages).
Proof.
  intros messages. induction messages as [|m ms [IH1 IH2]].
  - split; [reflexivity | constructor].
  - rewrite asChatMessages_cons. cbn [filter].
    destruct (Str.nonEmpty (Str.trim (Chat.getMessageText m))) eqn:E.
    + cbn [map app]. rewrite IH1. split; [reflexivity|].
      constructor; [|now rewrite <- IH1].
      cbn [Chat.content]. now apply nonEmpty_true.
    + cbn [app]. split; [exact IH1 | exact IH2].
Qed.

(** X15. The chat messages [submitPrompt] hands to the job creation are
    the messages of the transcript so far that have text, followed by the
    new prompt as a user message, trimmed: the prompt is always the last
    message of the request. *)
Theorem submitted_prompt_is_the_last_chat_message :
  forall (prompt : string) (h : Hook.State),
    Str.nonEmpty (Str.trim prompt) = true ->
    Chat.chatMessages prompt h
    = Chat.asChatMessages (Hook.messages h)
      ++ [Chat.mkChatMessage Hook.RoleUser (Str.trim prompt)].
Proof.
  intros prompt h N. unfold Chat.chatMessages. cbv zeta.
  rewrite asChatMessages_app. f_equal.
  rewrite asChatMessages_cons.
  change (Chat.getMessageText
            (Hook.buildUserMessage (Hook.nextId h) (Str.trim prompt)))
    with (Str.trim prompt).
  now rewrite trim_idempotent, N.
Qed.

Lemma submitted_prompt_witness :
  let prompt := "  What is an agent?  " in
  let h := midStream (H := Ref.host) in
  Str.nonEmpty (Str.trim prompt) = true /\
  Chat.chatMessages prompt h
  = [ Chat.mkChatMessage Hook.RoleUser "hello";
      Chat.mkChatMessage Hook.RoleUser "What is an agent?" ] /\
  Chat.chatMessages prompt h
  = Chat.asChatMessages (Hook.messages h)
    ++ [Chat.mkChatMessage Hook.RoleUser (Str.trim prompt)].
Proof.
  split; [reflexivity|]. split; [reflexivity|].
  apply submitted_prompt_is_the_last_chat_message. reflexivity.
Defined.

Section TokenFacts.
Context `{Host}.
Variable isChatTokenEvent : JobEvent -> bool.
Variable getChatTokenText : JobEvent -> string.

Lemma withChunk_twice (a : nat) (c1 c2 : string) (m : Hook.UIMessage) :
  withChunk a c2 (withChunk a c1 m) = withChunk a (c1 ++ c2) m.
Proof.
  unfold withChunk. destruct (Hook.msg_id m =? a)%nat eqn:E; cbn [negb].
  - cbn [Hook.msg_id Hook.role Hook.parts Hook.firstText]. rewrite E.
    cbn [negb]. now rewrite append_assoc.
  - now rewrite E.
Qed.

(** What one event does to the state of the controller. *)
Lemma onStreamEvent_spec (event : JobEvent) (h : Hook.State) (a : nat) :
  Hook.assistantIdRef h = Some a ->
  let h' := Hook.onStreamEvent isChatTokenEvent getChatTokenText event h in
  Hook.assistantIdRef h' = Some a /\
  Hook.events h' = Hook.events h ++ [event] /\
  Hook.tokenEvents h'
  = Hook.tokenEvents h
    + match tokenOf isChatTokenEvent getChatTokenText event with
      | Some _ => 1
      | None => 0
      end /\
  Hook.messages h'
  = match tokenOf isChatTokenEvent getChatTokenText event with
    | Some t => map (withChunk a t) (Hook.messages h)
    | None => Hook.messages h
    end /\
  Hook.status h' = Hook.status h /\ Hook.error h' = Hook.error h.
Proof.
  intros A. cbv zeta. unfold Hook.onStreamEvent, tokenOf. cbv zeta.
  destruct (isChatTokenEvent event && negb (Js.truthy (finished event)));
    [|cbn; rewrite Nat.add_0_r; auto 6].
  destruct (Str.nonEmpty (getChatTokenText event));
    [|cbn; rewrite Nat.add_0_r; auto 6].
  unfold Hook.appendAssistantChunk. cbn [Hook.assistantIdRef Hook.setTokenEvents
                                           Hook.setEvents].
  rewrite A. cbn. rewrite Nat.add_1_r. auto 6.
Qed.

Lemma tokens_accumulate (evs : list JobEvent) (h : Hook.State) (a : nat) :
  Hook.assistantIdRef h = Some a ->
  let tokens := tokensOf isChatTokenEvent getChatTokenText evs in
  let h' := fold_left (Hook.dispatch isChatTokenEvent getChatTokenText)
                      (map OnEvent evs) h in
  Hook.events h' = Hook.events h ++ evs /\
  Hook.tokenEvents h' = Hook.tokenEvents h + List.length tokens /\
  Hook.messages h'
  = match tokens with
    | [] => Hook.messages h
    | _ => map (withChunk a (String.concat "" tokens)) (Hook.messages h)
    end /\
  Hook.status h' = Hook.status h /\ Hook.error h' = Hook.error h.
Proof.
  cbv zeta. revert h. induction evs as [|e evs IH]; intros h A.
  - cbn. rewrite app_nil_r, Nat.add_0_r. auto.
  - cbn [map fold_left Hook.dispatch tokensOf].
    destruct (onStreamEvent_spec e h a A) as (A' & E1 & E2 & E3 & E4 & E5).
    cbv zeta in *.
    destruct (IH _ A') as (I1 & I2 & I3 & I4 & I5).
    rewrite I1, I2, I4, I5, E1, E2, E4, E5, <- app_assoc.
    split; [reflexivity|].
    destruct (tokenOf isChatTokenEvent getChatTokenText e) as [t|];
      destruct (tokensOf isChatTokenEvent getChatTokenText evs) as [|u us];
      rewrite I3, E3; cbn [List.length]; (split; [lia|]); (split; [|auto]);
      try reflexivity.
    rewrite map_map, (concat_empty_cons t (u :: us)).
    apply map_ext. intros m. apply withChunk_twice.
Qed.

Lemma finalize_text (a : nat) (m : Hook.UIMessage) :
  Chat.getMessageText
    (if negb (Hook.msg_id m =? a)%nat then m
     else Hook.mkUIMessage (Hook.msg_id m) (Hook.role m)
            (map Hook.donePart (Hook.parts m)))
  = Chat.getMessageText m.
Proof.
  destruct (negb _); [reflexivity|].
  unfold Chat.getMessageText. cbn [Hook.parts]. f_equal.
  induction (Hook.parts m) as [|p ps IH]; [reflexivity|].
  destruct p; cbn; now rewrite ?IH.
Qed.

Lemma donePart_idempotent (p : Hook.Part) :
  Hook.donePart (Hook.donePart p) = Hook.donePart p.
Proof. now destruct p. Qed.

End TokenFacts.

(** X16. The controller builds the answer from the token events. After any
    sequence of events has been delivered to it, the controller has
    recorded every event, in order; the token counter has grown by the
    number of events that carry a token (chat token events that are not
    finished and whose token is not empty); and the message of the current
    assistant id holds its earlier text followed by these tokens, in the
    order of arrival, in a single streaming text part, every other message
    being as it was. Status and error are untouched. *)
Theorem tokens_are_appended_in_order `{Host} :
  forall (isChatTokenEvent : JobEvent -> bool)
         (getChatTokenText : JobEvent -> string)
         (evs : list JobEvent) (h : Hook.State) (a : nat),
    Hook.assistantIdRef h = Some a ->
    let tokens := tokensOf isChatTokenEvent getChatTokenText evs in
    let h' := fold_left (Hook.dispatch isChatTokenEvent getChatTokenText)
                        (map OnEvent evs) h in
    Hook.events h' = Hook.events h ++ evs /\
    Hook.tokenEvents h' = Hook.tokenEvents h + List.length tokens /\
    Hook.messages h'
    = match tokens with
      | [] => Hook.messages h
      | _ => map (withChunk a (String.concat "" tokens)) (Hook.messages h)
      end /\
    (forall m : Hook.UIMessage,
        Chat.getMessageText (withChunk a (String.concat "" tokens) m)
        = if (Hook.msg_id m =? a)%nat
          then (Hook.firstText (Hook.parts m) ++ String.concat "" tokens)%string
          else Chat.getMessageText m) /\
    Hook.status h' = Hook.status h /\ Hook.error h' = Hook.error h.
Proof.
  intros isTok tokText evs h a A. cbv zeta.
  destruct (tokens_accumulate isTok tokText evs h a A) as (T1 & T2 & T3 & T4 & T5).
  cbv zeta in *. repeat (split; [assumption|]).
  split; [|auto].
  intros m. unfold withChunk.
  destruct (Hook.msg_id m =? a)%nat; cbn [negb]; [|reflexivity].
  unfold Chat.getMessageText. cbn. reflexivity.
Qed.

Lemma tokens_appended_witness :
  let isTok := fun e : JobEvent =>
                 match type e with chatToken => true | _ => false end in
  let tokText := fun e : JobEvent =>
                   match message e with JStr t => t | _ => "" end in
  let token := fun t : string =>
                 mkJobEvent (JStr "chat:token:1") (JStr t) (JBool false)
                            (DateAt 0) chatToken in
  let evs := [ token "Hel";
               mkJobEvent (JStr "phase:a") (JStr "x") (JBool false) (DateAt 0) phase;
               token ""; token "lo" ] in
  let h := midStream (H := Ref.host) in
  let h' := fold_left (Hook.dispatch isTok tokText) (map OnEvent evs) h in
  Hook.assistantIdRef h = Some 1 /\
  tokensOf isTok tokText evs = ["Hel"; "lo"] /\
  map Chat.getMessageText (Hook.messages h') = ["hello"; "Hello"] /\
  Hook.events h' = Hook.events h ++ evs /\
  Hook.tokenEvents h' = Hook.tokenEvents h + 2.
Proof.
  cbv zeta. split; [reflexivity|]. split; [reflexivity|].
  split; [reflexivity|].
  destruct (tokens_are_appended_in_order
              (H := Ref.host)
              (fun e : JobEvent =>
                 match type e with chatToken => true | _ => false end)
              (fun e : JobEvent =>
                 match message e with JStr t => t | _ => "" end)
              [ mkJobEvent (JStr "chat:token:1") (JStr "Hel") (JBool false)
                           (DateAt 0) chatToken;
                mkJobEvent (JStr "phase:a") (JStr "x") (JBool false) (DateAt 0) phase;
                mkJobEvent (JStr "chat:token:1") (JStr "") (JBool false)
                           (DateAt 0) chatToken;
                mkJobEvent (JStr "chat:token:1") (JStr "lo") (JBool false)
                           (DateAt 0) chatToken ]
              (midStream (H := Ref.host)) 1 eq_refl)
    as (T1 & T2 & _).
  split; [exact T1 | exact T2].
Defined.

(** X17. Finalizing the placeholder changes no text. [finalizeAssistant]
    leaves the text of every message as it is, marks every text part of the
    message of the current assistant id as done, leaves every other message
    untouched, and doing it twice is the same as doing it once. *)
Theorem finalizeAssistant_only_marks_parts_done `{Host} :
  forall h : Hook.State,
    let h' := Hook.finalizeAssistant h in
    map Chat.getMessageText (Hook.messages h')
    = map Chat.getMessageText (Hook.messages h) /\
    map Hook.msg_id (Hook.messages h') = map Hook.msg_id (Hook.messages h) /\
    (forall m, In m (Hook.messages h') ->
               Hook.assistantIdRef h = Some (Hook.msg_id m) ->
               allDone m = true) /\
    (forall m, In m (Hook.messages h) ->
               Hook.assistantIdRef h <> Some (Hook.msg_id m) ->
               In m (Hook.messages h')) /\
    Hook.finalizeAssistant h' = h'.
Proof.
  intros h. cbv zeta. unfold Hook.finalizeAssistant.
  destruct (Hook.assistantIdRef h) as [a|] eqn:A.
  - cbn [Hook.messages Hook.setMessages Hook.assistantIdRef]. rewrite A.
    split; [|split; [|split; [|split]]].
    + rewrite map_map. apply map_ext. intros m. apply finalize_text.
    + rewrite map_map. apply map_ext. intros m. now destruct (negb _).
    + intros m I [= E]. apply in_map_iff in I as (m0 & <- & _).
      destruct (Hook.msg_id m0 =? a)%nat eqn:Q; cbn [negb] in *.
      * unfold allDone. cbn [Hook.parts]. clear E.
        induction (Hook.parts m0) as [|p ps IH]; [reflexivity|].
        cbn [map forallb]. rewrite IH. now destruct p.
      * apply Nat.eqb_neq in Q. now destruct Q.
    + intros m I N. apply in_map_iff. exists m. split; [|exact I].
      destruct (Hook.msg_id m =? a)%nat eqn:Q; [|reflexivity].
      apply Nat.eqb_eq in Q. subst a. now destruct N.
    + unfold Hook.setMessages. cbn. f_equal.
      rewrite map_map. apply map_ext. intros m.
      destruct (Hook.msg_id m =? a)%nat eqn:Q; cbn [negb]; [|now rewrite Q].
      cbn [Hook.msg_id Hook.role Hook.parts]. rewrite Q. cbn [negb].
      f_equal. rewrite map_map. apply map_ext, donePart_idempotent.
  - rewrite A. repeat split; auto. intros m _ E. discriminate.
Qed.

(* ------------------------------------------------------------------ *)
(** ** The resources of the controller *)

Section ResourceFacts.
Context `{Host}.
Variable isChatTokenEvent : JobEvent -> bool.
Variable getChatTokenText : JobEvent -> string.

Lemma filter_shorter {A} (f : A -> bool) (l : list A) :
  List.length (filter f l) <= List.length l.
Proof.
  induction l as [|x l IH]; [reflexivity|].
  cbn [filter]. destruct (f x); cbn [List.length]; lia.
Qed.

Lemma cleanup_timers (h : Hook.State) :
  List.length (Hook.timers (Hook.cleanup h)) <= List.length (Hook.timers h).
Proof.
  unfold Hook.cleanup. cbv zeta.
  destruct h as [ms st jid err tok ecs evs aid ar pr cr ts ss nid].
  destruct ar as [i|], pr as [t|]; cbn; auto using filter_shorter.
Qed.

Lemma sameResources_timers (h h' : Hook.State) :
  Hook.sameResources h h' -> Hook.timers h' = Hook.timers h.
Proof. now intros (_ & _ & _ & T & _). Qed.

Lemma pollOnce_timers (job : Hook.JobRead) (h : Hook.State) :
  List.length (Hook.timers (Hook.pollOnce job h))
  <= List.length (Hook.timers h).
Proof.
  unfold Hook.pollOnce. cbv zeta.
  set (normalized := Str.toLowerCase (Hook.job_status job)).
  match goal with |- context [Hook.cleanup ?x] => set (h1 := x) end.
  assert (T1 : Hook.timers h1 = Hook.timers h).
  { subst h1. now destruct (_ && _). }
  assert (C : forall h',
             Hook.sameResources (Hook.cleanup h1) h' ->
             List.length (Hook.timers h') <= List.length (Hook.timers h)).
  { intros h' S. rewrite (sameResources_timers _ _ S), <- T1.
    apply cleanup_timers. }
  destruct (Hook.has Hook.terminalSuccess normalized); [apply C; resources|].
  destruct (Hook.has Hook.terminalError normalized); [apply C; resources|].
  destruct (negb (Hook.has Hook.nonTerminal normalized)); [apply C; resources|].
  now rewrite T1.
Qed.

Lemma transition_timers (c c' : Hook.Pending * Hook.State) :
  Hook.transition isChatTokenEvent getChatTokenText c c' ->
  Hook.invariant c ->
  List.length (Hook.timers (snd c)) <= 1 ->
  List.length (Hook.timers (snd c')) <= 1.
Proof.
  intros T I L.
  assert (C : forall h h',
             List.length (Hook.timers h) <= 1 ->
             Hook.sameResources (Hook.cleanup h) h' ->
             List.length (Hook.timers h') <= 1).
  { intros h h' Lh S. rewrite (sameResources_timers _ _ S).
    pose proof (cleanup_timers h). lia. }
  destruct T as [h h' prompt E | h created | h msg | h job | h msg
                 | p h job | p h msg | p h i r | p h]; cbn [snd] in *.
  - unfold Hook.submitPrompt in E.
    destruct (negb (Str.nonEmpty (Str.trim prompt))); [discriminate|].
    injection E as <-. apply (C h); [exact L|]. unfold Hook.fresh. resources.
  - exact L.
  - apply (C h); [exact L|]. unfold Hook.onSubmitError. resources.
  - destruct (pollOnce_invariant Hook.AwaitingFirstPoll job h I)
      as (O & _ & P). cbn [fst snd] in *.
    specialize (P ltac:(discriminate)).
    apply owned_split in O as [O1 _]. rewrite P in O1.
    pose proof (held_timer_cleared None _ O1) as E. cbn in E.
    unfold Hook.startPolling. cbn. rewrite E. cbn. lia.
  - apply (C h); [exact L|]. unfold Hook.onSubmitError. resources.
  - pose proof (pollOnce_timers job h). lia.
  - apply (C (Hook.setStatus Hook.Error (Hook.setError (Some msg) h)));
      [exact L|]. unfold Hook.onPollError. resources.
  - destruct (streamInput_resources isChatTokenEvent getChatTokenText i r h)
      as (_ & _ & _ & R4 & _). cbn zeta in R4. now rewrite R4.
  - apply (C h); [exact L|]. unfold Hook.reset. resources.
Qed.

Lemma reachable_timers (c : Hook.Pending * Hook.State) :
  Hook.reachable isChatTokenEvent getChatTokenText c ->
  List.length (Hook.timers (snd c)) <= 1.
Proof.
  induction 1 as [|c c' R IH T]; [cbn; lia|].
  apply (transition_timers c c' T); [|exact IH].
  exact (reachable_invariant isChatTokenEvent getChatTokenText c R).
Qed.

(** Among subscriptions held as [heldFrom] says, at most one runs. *)
Lemma heldFrom_running (k : nat) (a : option nat) (l : list Sub) :
  Hook.heldFrom k a l = true ->
  List.length (filter running l) <= 1.
Proof.
  revert k. induction l as [|x l IH]; intros k E; [cbn; lia|].
  rewrite heldFrom_cons in E. apply andb_true_iff in E as [E1 E2].
  cbn [filter]. destruct (running x) eqn:R; [|exact (IH (S k) E2)].
  cbn [negb orb] in E1. destruct a as [i|]; [|discriminate].
  apply Nat.eqb_eq in E1. subst i.
  assert (S0 : Hook.allStopped l = true).
  { apply (heldFrom_earlier (S k) k l); [lia | exact E2]. }
  assert (F : filter running l = []).
  { clear - S0. induction l as [|y l IH]; [reflexivity|].
    cbn [Hook.allStopped forallb] in S0. apply andb_true_iff in S0 as [S1 S2].
    apply negb_true_iff in S1. cbn [filter]. rewrite S1. exact (IH S2). }
  rewrite F. cbn. lia.
Qed.



End ResourceFacts.

(** X18. The controller never runs two poll timers or two subscription
    loops at once: in every state of every run, at most one interval timer
    is active and at most one subscription loop is running, and they are
    the ones whose handles the controller holds. *)
Theorem at_most_one_timer_and_one_subscription `{Host} :
  forall (isChatTokenEvent : JobEvent -> bool)
         (getChatTokenText : JobEvent -> string)
         (c : Hook.Pending * Hook.State),
    Hook.reachable isChatTokenEvent getChatTokenText c ->
    List.length (Hook.timers (snd c)) <= 1 /\
    List.length (filter running (Hook.streams (snd c))) <= 1 /\
    (forall t, In t (Hook.timers (snd c)) -> Hook.pollRef (snd c) = Some t) /\
    (forall i s, nth_error (Hook.streams (snd c)) i = Some s ->
                 running s = true -> Hook.abortRef (snd c) = Some i).
Proof.
  intros isTok tokText c Rc.
  destruct (reachable_invariant isTok tokText c Rc) as (O & _).
  apply owned_split in O as [O1 O2].
  split; [exact (reachable_timers isTok tokText c Rc)|].
  split; [exact (heldFrom_running 0 _ _ O2)|].
  split.
  - intros t I. rewrite forallb_forall in O1. specialize (O1 t I).
    destruct (Hook.pollRef (snd c)) as [t'|]; [|discriminate].
    apply Nat.eqb_eq in O1. now subst.
  - intros i s N R.
    assert (G : forall l k j,
               Hook.heldFrom k (Hook.abortRef (snd c)) l = true ->
               nth_error l j = Some s ->
               Hook.abortRef (snd c) = Some (k + j)).
    { induction l as [|x l IH]; intros k j E Q; [destruct j; discriminate|].
      rewrite heldFrom_cons in E. apply andb_true_iff in E as [E1 E2].
      destruct j as [|j]; cbn in Q.
      - injection Q as ->. rewrite R in E1. cbn in E1.
        destruct (Hook.abortRef (snd c)) as [a|]; [|discriminate].
        apply Nat.eqb_eq in E1. subst a. now rewrite Nat.add_0_r.
      - rewrite (IH (S k) j E2 Q). f_equal. lia. }
    exact (G _ 0 i O2 N).
Qed.

Lemma at_most_one_witness :
  let isTok := fun e : JobEvent =>
                 match type e with chatToken => true | _ => false end in
  let tokText := fun e : JobEvent =>
                   match message e with JStr t => t | _ => "" end in
  let h := midStream (H := Ref.host) in
  Hook.reachable (H := Ref.host) isTok tokText (Hook.NoSubmit, h) /\
  List.length (Hook.timers h) = 1 /\
  List.length (filter running (Hook.streams h)) = 1 /\
  List.length (Hook.timers h) <= 1 /\
  List.length (filter running (Hook.streams h)) <= 1.
Proof.
  cbv zeta.
  assert (Rc : Hook.reachable
                 (H := Ref.host)
                 (fun e : JobEvent =>
                    match type e with chatToken => true | _ => false end)
                 (fun e : JobEvent =>
                    match message e with JStr t => t | _ => "" end)
                 (Hook.NoSubmit, midStream (H := Ref.host))).
  { eapply Hook.AfterStep;
      [eapply Hook.AfterStep;
       [eapply Hook.AfterStep;
        [apply Hook.AtStart
        |eapply Hook.Submits with (prompt := "hello"); reflexivity]
       |apply Hook.JobCreated with (createdJobId := "job-1")]
      |exact (Hook.FirstPollRead _ _ _ (Hook.mkJobRead "running" None))]. }
  split; [exact Rc|]. split; [reflexivity|]. split; [reflexivity|].
  destruct (at_most_one_timer_and_one_subscription
              (H := Ref.host) _ _ (Hook.NoSubmit, midStream (H := Ref.host)) Rc)
    as (L1 & L2 & _).
  split; [exact L1 | exact L2].
Defined.



(* ------------------------------------------------------------------ *)
(** ** A [null] among the items of a JSON response *)

Section RetryFacts.
Context `{Host}.

(** The loop over the items stops at the first [null], after the items
    before it have been delivered. *)
Lemma forOf_emitItem_null (pre post : list json) (s : Sub) :
  forallb deliverableItem pre = true ->
  exists e,
    forOf emitItem (pre ++ JNull :: post) s
    = (Throw (nullPropertyError "SeqID"), applyEffect e s) /\
    Forall2 decodesItem pre (eff_events e).
Proof.
  intros D. destruct (forOf_emitItem_delivers pre s D) as (e & R & F).
  exists e. rewrite forOf_app, R. split; [reflexivity | exact F].
Qed.

(** A text that [JSON.parse] reads as an array is one record without any
    step id or message of its own. *)
Lemma parseEventPayload_array (text : string) (items : list json) (s : Sub) :
  Str.nonEmpty (Str.trim text) = true ->
  JSON_parse (Str.trim text) = Some (JArr items) ->
  parseEventPayload (Some (JStr text)) None s
  = (Return (Some (mkJobEvent (JStr "unknown")
                              (JStr (JSON_stringify (JArr items)))
                              (JBool false)
                              (DateAt (Date_now (clockReads s)))
                              (getEventType (JStr "unknown")))),
     applyEffect (advance 1) s).
Proof.
  intros N P. unfold parseEventPayload. rewrite N, P. cbn [negb].
  unfold eventOfRecord, timestampOf, stepIdOf, messageOf, finishedOf.
  cbn [Js.prop Js.optProp Js.firstTruthy Js.nullish]. unfold bind.
  now rewrite readClock_effect.
Qed.

End RetryFacts.

(** X20. A [null] among the items of a JSON array does not end the
    subscription; it makes the whole body be delivered once more as one
    event. When a successful reply holds a JSON array with a [null] item,
    the items before the [null] are delivered one by one, the [TypeError]
    raised at the [null] is caught by [poll], which decodes the body again
    as a text: one more event is delivered, with step id [unknown], the
    [JSON.stringify] of the whole array as message and [finished] false.
    The items after the [null] are not delivered, and the loop body returns
    normally. *)
Theorem null_item_redelivers_the_body_as_one_event `{Host} :
  forall (status : Z) (text : string) (pre post : list json) (s : Sub),
    ok status = true ->
    status <> 204%Z ->
    Str.nonEmpty (Str.trim text) = true ->
    looksLikeSse (Str.trim text) = false ->
    JSON_parse text = Some (JArr (pre ++ JNull :: post)) ->
    JSON_parse (Str.trim text) = Some (JArr (pre ++ JNull :: post)) ->
    forallb deliverableItem pre = true ->
    exists (evs : list JobEvent) (last : JobEvent) (s' : Sub),
      pollBody (Response status (BodyText text)) s = (Return tt, s') /\
      trace s' = trace (connectedState s) ++ map OnEvent (evs ++ [last]) /\
      Forall2 decodesItem pre evs /\
      step_id last = JStr "unknown" /\
      message last = JStr (JSON_stringify (JArr (pre ++ JNull :: post))) /\
      finished last = JBool false.
Proof.
  intros status text pre post s O N4 NE L P PT D.
  destruct (markConnected_spec s) as (MC & _).
  assert (E4 : (status =? 204)%Z = false) by now apply Z.eqb_neq.
  cbn [pollBody]. rewrite E4, O. cbn [negb andb].
  unfold bind at 1. rewrite MC. unfold bind at 1, readText at 1, ret at 1.
  rewrite NE. cbn [negb].
  set (s0 := connectedState s).
  destruct (forOf_emitItem_null pre post s0 D) as (e & R & F).
  unfold tryCatch, bind, parseJson. rewrite P. unfold ret at 1.
  assert (A : emitFromResponse (JArr (pre ++ JNull :: post)) s0
              = (Throw (nullPropertyError "SeqID"), applyEffect e s0)).
  { cbn [emitFromResponse]. unfold bind, itemsOf. cbn [Js.isArray Js.iterate].
    unfold ret at 1. exact R. }
  rewrite A.
  cbn [emitFromResponse]. cbv zeta. rewrite NE, L. cbn [negb].
  unfold bind.
  assert (NE' : Str.nonEmpty (Str.trim (Str.trim text)) = true)
    by now rewrite trim_idempotent.
  assert (PT' : JSON_parse (Str.trim (Str.trim text))
                = Some (JArr (pre ++ JNull :: post)))
    by now rewrite trim_idempotent.
  rewrite (parseEventPayload_array (Str.trim text) _ _ NE' PT').
  cbn [deliver]. rewrite onEvent_effect.
  exists (eff_events e),
         (mkJobEvent (JStr "unknown")
                     (JStr (JSON_stringify (JArr (pre ++ JNull :: post))))
                     (JBool false)
                     (DateAt (Date_now (clockReads (applyEffect e s0))))
                     (getEventType (JStr "unknown"))).
  eexists. split; [reflexivity|].
  split; [|split; [exact F | split; [|split]; reflexivity]].
  unfold applyEffect. cbn [trace eff_events advance map].
  rewrite app_nil_r, map_app, <- app_assoc. reflexivity.
Qed.

Lemma null_item_witness :
  let text := Ref.q "[{'step_id':'phase:a','message':'m'},null,{'step_id':'phase:b'}]" in
  let first := JObj [("step_id", JStr "phase:a"); ("message", JStr "m")] in
  let third := JObj [("step_id", JStr "phase:b")] in
  let s := subscribeToJobEvents in
  (ok 200 = true /\ 200%Z <> 204%Z /\
   Str.nonEmpty (Str.trim text) = true /\
   looksLikeSse (Str.trim text) = false /\
   JSON_parse (Host := Ref.host) text = Some (JArr ([first] ++ JNull :: [third])) /\
   JSON_parse (Host := Ref.host) (Str.trim text)
   = Some (JArr ([first] ++ JNull :: [third])) /\
   forallb (deliverableItem (H := Ref.host)) [first] = true) /\
  exists (evs : list JobEvent) (last : JobEvent) (s' : Sub),
    pollBody (H := Ref.host) (Response 200 (BodyText text)) s = (Return tt, s') /\
    trace s' = trace (connectedState s) ++ map OnEvent (evs ++ [last]) /\
    Forall2 (decodesItem (H := Ref.host)) [first] evs /\
    step_id last = JStr "unknown" /\
    message last
    = JStr (JSON_stringify (Host := Ref.host) (JArr ([first] ++ JNull :: [third]))) /\
    finished last = JBool false.
Proof.
  split.
  - repeat split; try reflexivity. discriminate.
  - apply (null_item_redelivers_the_body_as_one_event (H := Ref.host));
      try reflexivity. discriminate.
Defined.

(* ------------------------------------------------------------------ *)
(** ** Message ids *)

Section IdFacts.
Context `{Host}.
Variable isChatTokenEvent : JobEvent -> bool.
Variable getChatTokenText : JobEvent -> string.

Lemma sameIds_refl (h : Hook.State) : sameIds h h.
Proof. now split. Qed.

Lemma sameIds_trans (h1 h2 h3 : Hook.State) :
  sameIds h1 h2 -> sameIds h2 h3 -> sameIds h1 h3.
Proof. intros [A1 A2] [B1 B2]. split; congruence. Qed.

Lemma idsBelow_sameIds (h h' : Hook.State) :
  sameIds h h' -> idsBelow h -> idsBelow h'.
Proof.
  unfold sameIds, idsBelow. intros [E N] B. rewrite N.
  rewrite Forall_forall in *. intros m I.
  assert (J : In (Hook.msg_id m) (map Hook.msg_id (Hook.messages h')))
    by now apply in_map.
  rewrite E in J. apply in_map_iff in J as (m0 & <- & I0). now apply B.
Qed.

Lemma map_ids (f : Hook.UIMessage -> Hook.UIMessage) (ms : list Hook.UIMessage) :
  (forall m, Hook.msg_id (f m) = Hook.msg_id m) ->
  map Hook.msg_id (map f ms) = map Hook.msg_id ms.
Proof. intros F. rewrite map_map. now apply map_ext. Qed.

Lemma cleanup_sameIds (h : Hook.State) : sameIds h (Hook.cleanup h).
Proof.
  unfold Hook.cleanup. cbv zeta.
  destruct h as [ms st jid err tok ecs evs aid ar pr cr ts ss nid].
  destruct ar, pr; split; reflexivity.
Qed.

Lemma finalizeAssistant_sameIds (h : Hook.State) :
  sameIds h (Hook.finalizeAssistant h).
Proof.
  unfold Hook.finalizeAssistant. destruct (Hook.assistantIdRef h);
    [|apply sameIds_refl].
  split; [|reflexivity]. cbn. apply map_ids. intros m. now destruct (negb _).
Qed.

Lemma appendAssistantChunk_sameIds (chunk : string) (h : Hook.State) :
  sameIds h (Hook.appendAssistantChunk chunk h).
Proof.
  unfold Hook.appendAssistantChunk. destruct (Hook.assistantIdRef h);
    [|apply sameIds_refl].
  split; [|reflexivity]. cbn. apply map_ids. intros m. now destruct (negb _).
Qed.

Lemma dispatch_sameIds (h : Hook.State) (o : Obs) :
  sameIds h (Hook.dispatch isChatTokenEvent getChatTokenText h o).
Proof.
  destruct o as [c | e | | x]; cbn [Hook.dispatch].
  - apply sameIds_refl.
  - unfold Hook.onStreamEvent. cbv zeta.
    destruct (_ && _); [|now split].
    destruct (Str.nonEmpty _); [|now split].
    eapply sameIds_trans; [|apply appendAssistantChunk_sameIds]. now split.
  - now split.
  - unfold Hook.onStreamError. cbv zeta.
    eapply sameIds_trans; [|apply finalizeAssistant_sameIds]. now split.
Qed.

Lemma dispatch_all_sameIds (os : list Obs) (h : Hook.State) :
  sameIds h (fold_left (Hook.dispatch isChatTokenEvent getChatTokenText) os h).
Proof.
  revert h. induction os as [|o os IH]; intros h; [apply sameIds_refl|].
  cbn [fold_left].
  eapply sameIds_trans; [apply dispatch_sameIds | apply IH].
Qed.

Lemma streamInput_sameIds (i : nat) (r : Reply) (h : Hook.State) :
  sameIds h (Hook.streamInput isChatTokenEvent getChatTokenText i r h).
Proof.
  unfold Hook.streamInput.
  destruct (nth_error (Hook.streams h) i) as [s|]; [|apply sameIds_refl].
  eapply sameIds_trans; [|apply dispatch_all_sameIds]. now split.
Qed.

Lemma ended_sameIds (h : Hook.State) :
  sameIds h (Hook.finalizeAssistant (Hook.cleanup h)).
Proof.
  eapply sameIds_trans; [apply cleanup_sameIds | apply finalizeAssistant_sameIds].
Qed.

Lemma pollOnce_sameIds (job : Hook.JobRead) (h : Hook.State) :
  sameIds h (Hook.pollOnce job h).
Proof.
  unfold Hook.pollOnce. cbv zeta.
  set (normalized := Str.toLowerCase (Hook.job_status job)).
  match goal with |- context [Hook.cleanup ?x] => set (h1 := x) end.
  assert (S1 : sameIds h h1) by (subst h1; destruct (_ && _); now split).
  assert (C : forall h', sameIds (Hook.finalizeAssistant (Hook.cleanup h1)) h' ->
                         sameIds h h').
  { intros h' S. eapply sameIds_trans; [exact S1|].
    eapply sameIds_trans; [apply ended_sameIds | exact S]. }
  destruct (Hook.has Hook.terminalSuccess normalized); [apply C; now split|].
  destruct (Hook.has Hook.terminalError normalized); [apply C; now split|].
  destruct (negb (Hook.has Hook.nonTerminal normalized)); [apply C; now split|].
  exact S1.
Qed.

(** What [submitPrompt] does to the transcript and to the counter. *)
Lemma submitPrompt_messages (prompt : string) (h h' : Hook.State) :
  Hook.submitPrompt prompt h = Some h' ->
  Hook.messages h'
  = Hook.messages h
    ++ [ Hook.buildUserMessage (Hook.nextId h) (Str.trim prompt);
         Hook.buildAssistantMessage (S (Hook.nextId h)) ] /\
  Hook.assistantIdRef h' = Some (S (Hook.nextId h)) /\
  Hook.nextId h' = S (S (Hook.nextId h)) /\
  Hook.status h' = Hook.Submitting /\
  Hook.error h' = None /\
  Hook.jobId h' = None /\
  Hook.events h' = [] /\
  Hook.tokenEvents h' = 0.
Proof.
  unfold Hook.submitPrompt. cbv zeta.
  destruct (negb (Str.nonEmpty (Str.trim prompt))); [discriminate|].
  intros [= <-]. unfold Hook.fresh, Hook.cleanup. cbv zeta.
  destruct h as [ms st jid err tok ecs evs aid ar pr cr ts ss nid].
  destruct ar, pr; cbn; rewrite <- app_assoc; auto 10.
Qed.

Lemma transition_idsBelow (c c' : Hook.Pending * Hook.State) :
  Hook.transition isChatTokenEvent getChatTokenText c c' ->
  idsBelow (snd c) -> idsBelow (snd c').
Proof.
  intros T B.
  destruct T as [h h' prompt E | h created | h msg | h job | h msg
                 | p h job | p h msg | p h i r | p h]; cbn [snd] in *.
  - destruct (submitPrompt_messages prompt h h' E) as (M & _ & N & _).
    unfold idsBelow in *. rewrite M, N. apply Forall_app. split.
    + eapply Forall_impl; [|exact B]. cbn. intros m L. lia.
    + repeat constructor; cbn; lia.
  - exact B.
  - apply (idsBelow_sameIds h); [|exact B].
    unfold Hook.onSubmitError. cbv zeta.
    eapply sameIds_trans; [apply ended_sameIds | now split].
  - pose proof (idsBelow_sameIds h _ (pollOnce_sameIds job h) B) as B1.
    unfold idsBelow, Hook.startPolling, Hook.fresh in *. cbn.
    eapply Forall_impl; [|exact B1]. cbn. intros m L. lia.
  - apply (idsBelow_sameIds h); [|exact B].
    unfold Hook.onSubmitError. cbv zeta.
    eapply sameIds_trans; [apply ended_sameIds | now split].
  - exact (idsBelow_sameIds h _ (pollOnce_sameIds job h) B).
  - apply (idsBelow_sameIds h); [|exact B].
    unfold Hook.onPollError. cbv zeta.
    eapply sameIds_trans; [|apply ended_sameIds]. now split.
  - exact (idsBelow_sameIds h _ (streamInput_sameIds i r h) B).
  - unfold idsBelow, Hook.reset. cbn. constructor.
Qed.

Lemma reachable_idsBelow (c : Hook.Pending * Hook.State) :
  Hook.reachable isChatTokenEvent getChatTokenText c -> idsBelow (snd c).
Proof.
  induction 1 as [|c c' R IH T]; [constructor|].
  exact (transition_idsBelow c c' T IH).
Qed.

Lemma withChunk_other (a : nat) (chunk : string) (ms : list Hook.UIMessage) :
  Forall (fun m => Hook.msg_id m < a) ms ->
  map (withChunk a chunk) ms = ms.
Proof.
  induction 1 as [|m ms L F IH]; [reflexivity|].
  cbn [map]. rewrite IH. f_equal. unfold withChunk.
  assert (N : (Hook.msg_id m =? a)%nat = false) by (apply Nat.eqb_neq; lia).
  now rewrite N.
Qed.

End IdFacts.

(** X21. The tokens of a run go to the placeholder of that run and to no
    other message. In every state of every run, a submitted prompt appends
    to the transcript the user message (the trimmed prompt) and an empty
    assistant placeholder, both with fresh ids; and whatever events are
    then delivered, the earlier messages and the user message stay exactly
    as they were, while the placeholder holds the tokens received, in
    order, in one streaming text part. *)
Theorem tokens_reach_only_the_new_placeholder `{Host} :
  forall (isChatTokenEvent : JobEvent -> bool)
         (getChatTokenText : JobEvent -> string)
         (c : Hook.Pending * Hook.State) (prompt : string) (h' : Hook.State)
         (evs : list JobEvent),
    Hook.reachable isChatTokenEvent getChatTokenText c ->
    Hook.submitPrompt prompt (snd c) = Some h' ->
    let tokens := tokensOf isChatTokenEvent getChatTokenText evs in
    let h2 := fold_left (Hook.dispatch isChatTokenEvent getChatTokenText)
                        (map OnEvent evs) h' in
    Hook.messages h2
    = Hook.messages (snd c)
      ++ [ Hook.buildUserMessage (Hook.nextId (snd c)) (Str.trim prompt);
           Hook.mkUIMessage (S (Hook.nextId (snd c))) Hook.RoleAssistant
             [Hook.TextPart (String.concat "" tokens) Hook.PartStreaming] ] /\
    Hook.tokenEvents h2 = List.length tokens /\
    Hook.events h2 = evs.
Proof.
  intros isTok tokText c prompt h' evs Rc E. cbv zeta.
  pose proof (reachable_idsBelow isTok tokText c Rc) as B.
  destruct (submitPrompt_messages prompt (snd c) h' E)
    as (M & A & _ & _ & _ & _ & Ev & Tk).
  destruct (tokens_accumulate isTok tokText evs h' _ A) as (T1 & T2 & T3 & _).
  cbv zeta in *. rewrite T1, T2, T3, Ev, Tk, M. cbn [app].
  split; [|split; reflexivity].
  destruct (tokensOf isTok tokText evs) as [|t ts] eqn:Q; [reflexivity|].
  rewrite map_app. f_equal.
  - apply withChunk_other. unfold idsBelow in B.
    eapply Forall_impl; [|exact B]. cbn. intros m L. lia.
  - cbn [map]. unfold withChunk. cbn [Hook.msg_id Hook.buildUserMessage
                                       Hook.buildAssistantMessage].
    rewrite Nat.eqb_refl.
    assert (N : (Hook.nextId (snd c) =? S (Hook.nextId (snd c)))%nat = false)
      by (apply Nat.eqb_neq; lia).
    rewrite N. reflexivity.
Qed.

Lemma tokens_new_placeholder_witness :
  let isTok := fun e : JobEvent =>
                 match type e with chatToken => true | _ => false end in
  let tokText := fun e : JobEvent =>
                   match message e with JStr t => t | _ => "" end in
  let token := fun t : string =>
                 mkJobEvent (JStr "chat:token:1") (JStr t) (JBool false)
                            (DateAt 0) chatToken in
  let h := midStream (H := Ref.host) in
  let h' := match Hook.submitPrompt (H := Ref.host) "again" h with
            | Some x => x
            | None => h
            end in
  let h2 := fold_left (Hook.dispatch isTok tokText)
                      (map OnEvent [token "a"; token "b"]) h' in
  (Hook.reachable (H := Ref.host) isTok tokText (Hook.NoSubmit, h) /\
   Hook.submitPrompt (H := Ref.host) "again" h = Some h') /\
  map Chat.getMessageText (Hook.messages h2) = ["hello"; ""; "again"; "ab"] /\
  Hook.tokenEvents h2 = 2.
Proof.
  cbv zeta.
  assert (Rc : Hook.reachable
                 (H := Ref.host)
                 (fun e : JobEvent =>
                    match type e with chatToken => true | _ => false end)
                 (fun e : JobEvent =>
                    match message e with JStr t => t | _ => "" end)
                 (Hook.NoSubmit, midStream (H := Ref.host))).
  { eapply Hook.AfterStep;
      [eapply Hook.AfterStep;
       [eapply Hook.AfterStep;
        [apply Hook.AtStart
        |eapply Hook.Submits with (prompt := "hello"); reflexivity]
       |apply Hook.JobCreated with (createdJobId := "job-1")]
      |exact (Hook.FirstPollRead _ _ _ (Hook.mkJobRead "running" None))]. }
  split; [split; [exact Rc | reflexivity]|].
  split; [reflexivity|].
  exact (proj1 (proj2 (tokens_reach_only_the_new_placeholder
                         (H := Ref.host) _ _
                         (Hook.NoSubmit, midStream (H := Ref.host)) "again" _
                         [ mkJobEvent (JStr "chat:token:1") (JStr "a")
                                      (JBool false) (DateAt 0) chatToken;
                           mkJobEvent (JStr "chat:token:1") (JStr "b")
                                      (JBool false) (DateAt 0) chatToken ]
                         Rc eq_refl))).
Defined.

(* ------------------------------------------------------------------ *)
(** ** The cursor after a JSON response *)

Section ArrayCursorFacts.
Context `{Host}.

Lemma emitItem_cursor (entry : json) (s : Sub) :
  deliverableItem entry = true ->
  exists e,
    emitItem entry s = (Return tt, applyEffect e s) /\
    eff_cursor e = seqIdOf entry /\
    List.length (eff_events e) = 1.
Proof.
  intros D.
  assert (O : exists ms, entry = JObj ms).
  { destruct entry; try discriminate. now eexists. }
  destruct O as [ms ->].
  cbn [emitItem]. unfold bind at 1. unfold seqIdOf.
  set (c := Js.firstTruthy _).
  assert (C : exists e0, (match c with
                          | Some seqId => setLastSeqId seqId
                          | None => ret tt
                          end) s = (Return tt, applyEffect e0 s)
                         /\ eff_events e0 = [] /\ eff_cursor e0 = c).
  { destruct c as [v|].
    - exists (mkEffect (Some v) 0 []). now rewrite setLastSeqId_effect.
    - exists noEffect. now rewrite ret_effect. }
  destruct C as (e0 & -> & E0 & C0).
  unfold bind.
  destruct (parseEventPayload_item_delivers (JObj ms) (applyEffect e0 s) D)
    as (ev & k & P).
  fold (payloadOf (JObj ms)). rewrite P.
  exists (seqEffect (seqEffect e0 (advance k)) (mkEffect None 0 [ev])).
  split; [|split].
  - cbn [deliver].
    now rewrite onEvent_effect, (applyEffect_seq e0 (advance k)), applyEffect_seq.
  - cbn. exact C0.
  - cbn. now rewrite E0.
Qed.

Lemma forOf_emitItem_cursor (items : list json) (s : Sub) :
  forallb deliverableItem items = true ->
  exists e,
    forOf emitItem items s = (Return tt, applyEffect e s) /\
    eff_cursor e = lastSeqIdOf items /\
    List.length (eff_events e) = List.length items.
Proof.
  revert s. induction items as [|x items IH]; intros s D.
  - exists noEffect. cbn. unfold ret. now rewrite applyEffect_noEffect.
  - cbn [forallb] in D. apply andb_true_iff in D as [Dx D].
    destruct (emitItem_cursor x s Dx) as (e1 & R1 & C1 & L1).
    destruct (IH (applyEffect e1 s) D) as (e2 & R2 & C2 & L2).
    exists (seqEffect e1 e2). cbn [forOf]. unfold bind. rewrite R1, R2.
    rewrite applyEffect_seq. split; [reflexivity|].
    cbn [seqEffect eff_cursor eff_events lastSeqIdOf List.length].
    rewrite C2, C1, length_app, L1, L2. split; reflexivity.
Qed.

End ArrayCursorFacts.

(** X22. The loop resumes from the last sequence id it has seen. When a
    running subscription receives a successful reply whose body is a JSON
    array of deliverable items, it delivers one event per item, moves the
    cursor to the [SeqID] (or [seqId]) of the last item that carries a
    truthy one, keeping the cursor it had when no item carries any, and the
    request it issues next carries exactly that cursor. *)
Theorem next_request_resumes_after_the_last_item `{Host} :
  forall (status : Z) (text : string) (items : list json) (s : Sub),
    running s = true ->
    aborted s = false ->
    ok status = true ->
    status <> 204%Z ->
    Str.nonEmpty (Str.trim text) = true ->
    JSON_parse text = Some (JArr items) ->
    forallb deliverableItem items = true ->
    let s' := step s (Arrives (Response status (BodyText text))) in
    exists evs : list JobEvent,
      trace s'
      = trace (connectedState s) ++ map OnEvent evs ++ [Fetch (lastSeqId s')] /\
      List.length evs = List.length items /\
      lastSeqId s' = match lastSeqIdOf items with
                     | Some v => Some v
                     | None => lastSeqId s
                     end /\
      running s' = true.
Proof.
  intros status text items s R A O N4 NE P D. cbv zeta.
  destruct (markConnected_spec s) as (MC & _ & MA & MR & ML & _).
  assert (E4 : (status =? 204)%Z = false) by now apply Z.eqb_neq.
  destruct (forOf_emitItem_cursor items (connectedState s) D)
    as (e & F & C & L).
  assert (B : pollBody (Response status (BodyText text)) s
              = (Return tt, applyEffect e (connectedState s))).
  { cbn [pollBody]. rewrite E4, O. cbn [negb andb].
    unfold bind at 1. rewrite MC. unfold bind at 1, readText at 1, ret at 1.
    rewrite NE. cbn [negb].
    unfold tryCatch, bind, parseJson. rewrite P. unfold ret at 1.
    cbn [emitFromResponse]. unfold bind, itemsOf. cbn [Js.isArray Js.iterate].
    unfold ret at 1. now rewrite F. }
  unfold step. rewrite R, B.
  destruct (applyEffect_fields e (connectedState s)) as (_ & A2 & A3 & _).
  unfold pollHead. rewrite A2, MA, A.
  cbn [snd emit trace lastSeqId running].
  exists (eff_events e).
  unfold applyEffect at 1 2. cbn [trace lastSeqId].
  rewrite <- app_assoc. split; [reflexivity|]. split; [exact L|].
  split.
  - unfold applyEffect. cbn [lastSeqId]. rewrite C, ML.
    now destruct (lastSeqIdOf items).
  - now rewrite A3, MR.
Qed.

Lemma next_request_resumes_witness :
  let text := Ref.q "[{'SeqID':'41','step_id':'phase:a'},{'seqId':'42','data':'plain'},{'step_id':'phase:b'}]" in
  let items := [ JObj [("SeqID", JStr "41"); ("step_id", JStr "phase:a")];
                 JObj [("seqId", JStr "42"); ("data", JStr "plain")];
                 JObj [("step_id", JStr "phase:b")] ] in
  let s := subscribeToJobEvents in
  let s' := step (H := Ref.host) s (Arrives (Response 200 (BodyText text))) in
  (running s = true /\ aborted s = false /\ ok 200 = true /\ 200%Z <> 204%Z /\
   Str.nonEmpty (Str.trim text) = true /\
   JSON_parse (Host := Ref.host) text = Some (JArr items) /\
   forallb (deliverableItem (H := Ref.host)) items = true) /\
  lastSeqIdOf items = Some (JStr "42") /\
  exists evs : list JobEvent,
    trace s'
    = trace (connectedState s) ++ map OnEvent evs ++ [Fetch (lastSeqId s')] /\
    List.length evs = List.length items /\
    lastSeqId s' = match lastSeqIdOf items with
                   | Some v => Some v
                   | None => lastSeqId s
                   end /\
    running s' = true.
Proof.
  split; [repeat split; try reflexivity; discriminate|].
  split; [reflexivity|].
  apply (next_request_resumes_after_the_last_item (H := Ref.host));
    try reflexivity. discriminate.
Defined.

(* ------------------------------------------------------------------ *)
(** ** The single-request client *)

Section OneShotFacts.
Context `{Host}.

Lemma related_oneShot_emitItem (item : json) :
  related eq (OneShot.emitItem item) (OneShot.emitItem item).
Proof.
  destruct item; try apply related_throw;
    unfold OneShot.emitItem; cbv zeta;
    (eapply related_bind with (RA := fun t1 t2 => eraseStamp t1 = eraseStamp t2);
     [ destruct (Js.firstTruthy _);
       [ now apply related_ret
       | eapply related_bind; [apply related_readClock|];
         intros a1 a2 _; now apply related_ret ]
     | intros t1 t2 E; apply related_onEvent; unfold eraseClock; cbn;
       now rewrite E ]).
Qed.

Lemma related_oneShot_decode (text : string) :
  related eq
    (tryCatch (data <- parseJson text ;;
               items <- OneShot.itemsOf data ;;
               forOf OneShot.emitItem items)
              (ret tt))
    (tryCatch (data <- parseJson text ;;
               items <- OneShot.itemsOf data ;;
               forOf OneShot.emitItem items)
              (ret tt)).
Proof.
  apply related_tryCatch; [|now apply related_ret].
  eapply related_bind with (RA := eq).
  - unfold parseJson. destruct (JSON_parse text);
      [now apply related_ret | apply related_throw].
  - intros data ? <-. eapply related_bind with (RA := eq).
    + unfold OneShot.itemsOf. destruct data; try apply related_throw;
        cbv zeta; destruct (Js.iterate _);
        try (now apply related_ret); apply related_throw.
    + intros items ? <-. apply related_forOf, related_oneShot_emitItem.
Qed.

(** The decoding of the body never throws: it delivers events and returns. *)
Lemma oneShot_decode_returns (text : string) (s : Sub) :
  exists e,
    tryCatch (data <- parseJson text ;;
              items <- OneShot.itemsOf data ;;
              forOf OneShot.emitItem items)
             (ret tt) s
    = (Return tt, applyEffect e s).
Proof.
  destruct (effect_of_related eq _ s (related_oneShot_decode text)) as (o & e & Q).
  exists e. rewrite Q. f_equal.
  unfold tryCatch in Q.
  destruct ((data <- parseJson text ;;
             items <- OneShot.itemsOf data ;;
             forOf OneShot.emitItem items) s) as [[[] | x] s1].
  - now injection Q as <- _.
  - unfold ret in Q. now injection Q as <- _.
Qed.

(** What the reply to the request makes the subscription do. *)
Lemma oneShot_settle (r : Reply) (s : Sub) :
  let s' := snd (OneShot.settle r s) in
  (forall status text,
      r = Response status (BodyText text) -> ok status = true ->
      exists evs, trace s' = trace s ++ map OnEvent evs ++ [OnComplete]) /\
  (forall status text,
      r = Response status (BodyText text) -> ok status = false ->
      trace s'
      = trace s ++ [OnError (PlainError ("Events request failed: "
                                         ++ Str.ofZ status ++ " - " ++ text))]) /\
  (forall x, r = FetchRejected x \/ (exists status, r = Response status (BodyRejected x)) ->
             trace s' = trace s ++ (if negb (err_name x =? "AbortError")
                                    then [OnError x] else [])).
Proof.
  cbv zeta. split; [|split].
  - intros status text -> O. unfold OneShot.settle, OneShot.catch.
    unfold bind at 1, readText at 1, ret at 1. rewrite O. cbn [negb].
    unfold bind at 1.
    destruct (oneShot_decode_returns text s) as (e & ->).
    exists (eff_events e). unfold onComplete, emit. cbn.
    now rewrite <- app_assoc.
  - intros status text -> O. unfold OneShot.settle, OneShot.catch.
    unfold bind at 1, readText at 1, ret at 1. rewrite O. cbn [negb].
    unfold throw. cbn. reflexivity.
  - intros x [-> | (status & ->)]; unfold OneShot.settle, OneShot.catch;
      [unfold throw | unfold bind, readText, throw];
      destruct (negb (err_name x =? "AbortError")); cbn;
      now rewrite ?app_nil_r.
Qed.

Lemma oneShot_stopped (s : Sub) (script : list Input) :
  running s = false ->
  trace (OneShot.run s script) = trace s /\
  running (OneShot.run s script) = false.
Proof.
  revert s. induction script as [|i script IH]; intros s R; [auto|].
  cbn [OneShot.run fold_left]. unfold OneShot.run in IH.
  assert (Q : trace (OneShot.step s i) = trace s /\
              running (OneShot.step s i) = false).
  { unfold OneShot.step. rewrite R. destruct i; cbn; auto. }
  destruct Q as [Q1 Q2]. destruct (IH _ Q2) as [I1 I2].
  now rewrite I1, I2, Q1.
Qed.

Lemma oneShot_step_ends (s : Sub) (i : Input) :
  running (OneShot.step s i) = false \/ running s = false.
Proof.
  unfold OneShot.step. destruct (running s); [|now right].
  left. now destruct i.
Qed.

Lemma oneShot_emitItem_delivers (item : json) (s : Sub) :
  item <> JNull ->
  exists e,
    OneShot.emitItem item s = (Return tt, applyEffect e s) /\
    List.length (eff_events e) = 1.
Proof.
  intros N.
  assert (G : forall step_id message finished type,
             exists e,
               (timestamp <- match Js.firstTruthy [Js.prop item "timestamp"] with
                             | Some v => ret (DateOf v)
                             | None => now <- readClock ;; ret (DateAt now)
                             end ;;
                onEvent (mkJobEvent step_id message finished timestamp type)) s
               = (Return tt, applyEffect e s) /\
               List.length (eff_events e) = 1).
  { intros step_id message finished type. unfold bind.
    destruct (Js.firstTruthy _) as [v|].
    - unfold ret at 1. rewrite onEvent_effect. eexists. split; reflexivity.
    - rewrite readClock_effect. unfold ret at 1.
      rewrite onEvent_effect, applyEffect_seq. eexists. split; reflexivity. }
  destruct item; try apply G. contradiction.
Qed.

Lemma oneShot_items_until_null (pre post : list json) (s : Sub) :
  Forall (fun v => v <> JNull) pre ->
  exists e,
    forOf OneShot.emitItem (pre ++ JNull :: post) s
    = (Throw (nullPropertyError "step_id"), applyEffect e s) /\
    List.length (eff_events e) = List.length pre.
Proof.
  intros F. revert s. induction F as [|x pre N F IH]; intros s.
  - exists noEffect. cbn. unfold bind, throw. now rewrite applyEffect_noEffect.
  - destruct (oneShot_emitItem_delivers x s N) as (e1 & R1 & L1).
    destruct (IH (applyEffect e1 s)) as (e2 & R2 & L2).
    exists (seqEffect e1 e2). cbn [app forOf]. unfold bind. rewrite R1, R2.
    rewrite applyEffect_seq. split; [reflexivity|].
    cbn. rewrite length_app. lia.
Qed.

End OneShotFacts.

(** X23. The single-request client settles once. Whatever reaches it and
    in whatever order, it has issued exactly one request; only the first
    thing that reaches it (the reply, or a cancellation) has any effect;
    and it calls [onComplete] or [onError] at most once in all, never both.
    A cancellation, or a rejection named [AbortError], calls neither. *)
Theorem single_request_client_settles_once `{Host} :
  forall (i : Input) (script : list Input),
    let s := OneShot.run OneShot.subscribeToJobEvents (i :: script) in
    trace s = trace (OneShot.step OneShot.subscribeToJobEvents i) /\
    running s = false /\
    fetches (trace s) = 1 /\
    connects (trace s) + List.length (errors (trace s)) <= 1 /\
    (i = Cancel -> trace s = [Fetch None]) /\
    (forall x, i = Arrives (FetchRejected x) -> err_name x = "AbortError" ->
               trace s = [Fetch None]).
Proof.
  intros i script. cbv zeta.
  change (OneShot.run OneShot.subscribeToJobEvents (i :: script))
    with (OneShot.run (OneShot.step OneShot.subscribeToJobEvents i) script).
  destruct (oneShot_step_ends OneShot.subscribeToJobEvents i) as [E | E];
    [|discriminate].
  destruct (oneShot_stopped _ script E) as [T R]. rewrite T, R.
  split; [reflexivity|]. split; [reflexivity|].
  assert (G : forall r,
             fetches (trace (snd (OneShot.settle r OneShot.subscribeToJobEvents))) = 1 /\
             connects (trace (snd (OneShot.settle r OneShot.subscribeToJobEvents)))
             + List.length
                 (errors (trace (snd (OneShot.settle r OneShot.subscribeToJobEvents))))
             <= 1).
  { intros r.
    destruct (oneShot_settle r OneShot.subscribeToJobEvents) as (S1 & S2 & S3).
    cbv zeta in *.
    destruct r as [x | status [text | x]].
    - rewrite (S3 x) by now left.
      destruct (negb _); cbn; split; lia.
    - destruct (ok status) eqn:O.
      + destruct (S1 status text eq_refl O) as (evs & ->).
        rewrite !fetches_app, !connects_app, !errors_app.
        destruct (events_only evs) as (-> & -> & ->). cbn. split; lia.
      + rewrite (S2 status text eq_refl O). cbn. split; lia.
    - rewrite (S3 x) by (right; now exists status).
      destruct (negb _); cbn; split; lia. }
  unfold OneShot.step. cbn [running OneShot.subscribeToJobEvents].
  destruct i as [r|].
  - cbn [trace OneShot.ended]. destruct (G r) as [G1 G2].
    split; [exact G1|]. split; [exact G2|]. split; [discriminate|].
    intros x [= ->] N.
    destruct (oneShot_settle (FetchRejected x) OneShot.subscribeToJobEvents)
      as (_ & _ & S3).
    cbv zeta in S3. rewrite (S3 x) by now left. now rewrite N.
  - cbn. split; [reflexivity|]. split; [lia|]. split; [reflexivity|].
    discriminate.
Qed.

(** X24. For the single-request client no body of a successful reply is an
    error. Whatever the text of the body, the events decoded before the
    decoding stops are delivered and [onComplete] follows them; [onError]
    is not called. A body that is not JSON, or is [null], delivers nothing;
    an array with a [null] item delivers the items before the [null], one
    event each, and silently drops the rest. A reply whose status is not a
    success calls [onError] alone, with
    [Events request failed: <status> - <body>]. *)
Theorem single_request_body_is_never_an_error `{Host} :
  forall (status : Z) (text : string),
    let s := OneShot.step OneShot.subscribeToJobEvents
                          (Arrives (Response status (BodyText text))) in
    (ok status = true ->
     (exists evs, trace s = Fetch None :: map OnEvent evs ++ [OnComplete]) /\
     (JSON_parse text = None -> trace s = [Fetch None; OnComplete]) /\
     (JSON_parse text = Some JNull -> trace s = [Fetch None; OnComplete]) /\
     (forall pre post : list json,
         JSON_parse text = Some (JArr (pre ++ JNull :: post)) ->
         Forall (fun v => v <> JNull) pre ->
         exists evs,
           trace s = Fetch None :: map OnEvent evs ++ [OnComplete] /\
           List.length evs = List.length pre)) /\
    (ok status = false ->
     trace s
     = [Fetch None;
        OnError (PlainError ("Events request failed: " ++ Str.ofZ status
                             ++ " - " ++ text))]).
Proof.
  intros status text. cbv zeta.
  destruct (oneShot_settle (Response status (BodyText text))
                           OneShot.subscribeToJobEvents) as (S1 & S2 & _).
  cbv zeta in *.
  unfold OneShot.step. cbn [running OneShot.subscribeToJobEvents].
  cbn [trace OneShot.ended].
  split.
  - intros O. split; [|split; [|split]].
    + destruct (S1 status text eq_refl O) as (evs & E). exists evs. exact E.
    + intros P. unfold OneShot.settle, OneShot.catch, bind, readText, ret.
      rewrite O. cbn [negb]. unfold tryCatch, bind, parseJson. rewrite P.
      reflexivity.
    + intros P. unfold OneShot.settle, OneShot.catch, bind, readText, ret.
      rewrite O. cbn [negb]. unfold tryCatch, bind, parseJson. rewrite P.
      reflexivity.
    + intros pre post P F.
      destruct (oneShot_items_until_null
                  pre post OneShot.subscribeToJobEvents F)
        as (e & R & L).
      exists (eff_events e). split; [|exact L].
      unfold OneShot.settle, OneShot.catch.
      unfold bind at 1, readText at 1, ret at 1. rewrite O. cbn [negb].
      unfold bind at 1, tryCatch, bind, parseJson. rewrite P.
      unfold ret at 1. cbn [OneShot.itemsOf Js.isArray Js.iterate].
      unfold ret at 1. cbv beta iota. rewrite R. unfold ret at 1.
      cbv beta iota. unfold onComplete, emit, applyEffect. cbn.
      reflexivity.
  - intros O. exact (S2 status text eq_refl O).
Qed.

Lemma single_request_body_witness :
  let text := Ref.q "[{'step_id':'phase:a','message':'m'},null,{'step_id':'phase:b'}]" in
  let s := OneShot.step (H := Ref.host) OneShot.subscribeToJobEvents
                        (Arrives (Response 200 (BodyText text))) in
  ok 200 = true /\
  trace s
  = [ Fetch None;
      OnEvent (mkJobEvent (JStr "phase:a") (JStr "m") (JBool false)
                          (DateAt 1700000000000) phase);
      OnComplete ] /\
  exists evs, trace s = Fetch None :: map OnEvent evs ++ [OnComplete].
Proof.
  split; [reflexivity|]. split; [reflexivity|].
  exact (proj1 (proj1 (single_request_body_is_never_an_error
                         (H := Ref.host) 200%Z
                         (Ref.q "[{'step_id':'phase:a','message':'m'},null,{'step_id':'phase:b'}]"))
                      eq_refl)).
Defined.
